(** * traceroute: the probe/response correlation engine

    A shallow embedding of the final, flag-driven version of the program
    ([main] and [probe]), of the two Go library packages it leans on
    ([encoding/binary] and [golang.org/x/net/icmp]), and the properties of
    the packet codec, of the wait loop of a probe and of the TTL-escalation
    driver. *)

From Stdlib Require Import ZArith List Bool Lia.
From Stdlib Require Import Strings.Byte.
Import ListNotations.
Local Open Scope Z_scope.

(** ** Go values *)

(** Go's [error] values that the program can meet.  The program never
    inspects them, it only tests them against [nil] and hands them on. *)
Inductive error : Set :=
| ErrDeadlineExceeded            (* the read deadline elapsed: "i/o timeout" *)
| ErrSocket (errno : Z)          (* any other failure of a socket operation *)
| errMessageTooShort             (* package icmp *)
| errInvalidProtocol             (* package icmp *)
| errNoExtension                 (* package icmp *)
| errInvalidBody.                (* package icmp: a body that does not serialise *)

(** A Go call returning [(T, error)]. *)
Inductive result (A : Type) : Type :=
| Ok (a : A)
| Err (e : error).
Arguments Ok {A} a.
Arguments Err {A} e.

(** A Go call that either returns or stops the program with a run-time
    panic (index or slice bounds out of range, failed type assertion). *)
Inductive outcome (A : Type) : Type :=
| Returns (a : A)
| Panics.
Arguments Returns {A} a.
Arguments Panics {A}.

Module Go.

(** [int] is 64 bits wide on the platforms the program runs on. *)
Definition MaxInt : Z := 0x7fffffffffffffff.
Definition MinInt : Z := - 0x8000000000000000.

(** Two's complement wrap-around of a signed 64-bit result. *)
Definition wrap (z : Z) : Z :=
  (z + 0x8000000000000000) mod 0x10000000000000000 - 0x8000000000000000.

Definition uint16 (z : Z) : Z := z mod 0x10000.
Definition uint32 (z : Z) : Z := z mod 0x100000000.

(** The value of a byte, and the conversion [byte(z)]. *)
Definition u8 (b : byte) : Z := Z.of_N (Byte.to_N b).

Definition to_byte (z : Z) : byte :=
  match Byte.of_N (Z.to_N (z mod 0x100)) with
  | Some b => b
  | None => x00
  end.

(** [s[lo:hi]] on a slice whose capacity equals its length (a slice fresh
    from [make] or a [nil] slice): it panics unless [lo <= hi <= cap(s)]. *)
Definition slice {A : Type} (s : list A) (lo hi : nat) : outcome (list A) :=
  if (lo <=? hi)%nat && (hi <=? length s)%nat
  then Returns (firstn (hi - lo) (skipn lo s))
  else Panics.

(** [binary.BigEndian.Uint16(b)]: [uint16(b[1]) | uint16(b[0])<<8], after
    the bounds check [_ = b[1]]. *)
Definition BigEndian_Uint16 (b : list byte) : outcome Z :=
  match b with
  | b0 :: b1 :: _ => Returns (Z.lor (u8 b1) (Z.shiftl (u8 b0) 8))
  | _ => Panics
  end.

(** [binary.BigEndian.PutUint16(b, v)] into a two-byte window. *)
Definition BigEndian_PutUint16 (v : Z) : list byte :=
  [to_byte (Z.shiftr v 8); to_byte v].

(** [a ^ b] on bytes. *)
Definition xor8 (a b : byte) : byte := to_byte (Z.lxor (u8 a) (u8 b)).

End Go.

Arguments Go.u8 : simpl never.
Arguments Go.to_byte : simpl never.

(** ** Package golang.org/x/net/icmp (IPv4 side)

    The package is an external dependency of the program.  The parts the
    program reaches are written out after the package: [Message.Marshal],
    [Echo.Marshal], [checksum], [ParseMessage], [parseEcho],
    [parseTimeExceeded] and [parseMultipartMessageBody].  What the program
    never looks at (the bodies of the other message types, RFC 4884
    extension objects) is left to a record of functions, [rest]. *)
Module icmp.

(** [ipv4.ICMPType] values. *)
Definition ICMPTypeEchoReply : Z := 0.
Definition ICMPTypeEcho : Z := 8.
Definition ICMPTypeTimeExceeded : Z := 11.

(** [iana.ProtocolICMP], the result of [ipv4.ICMPTypeEcho.Protocol()]. *)
Definition ProtocolICMP : Z := 1.

(** The interface [icmp.Type]; the field of [Message] is [Type_], [Type]
    being reserved. *)
Inductive IType : Set :=
| NilType
| ipv4_ICMPType (t : Z)
| ipv6_ICMPType (t : Z).

(** An extension object, kept as its octets. *)
Definition Extension : Set := list byte.

(** The interface [icmp.MessageBody]. *)
Inductive MessageBody : Set :=
| NilBody
| Echo (ID Seq : Z) (Data : list byte)
| TimeExceeded (Data : list byte) (Extensions : list Extension)
| OtherBody (typ : Z) (Data : list byte).

Record Message : Set := mkMessage {
  Type_ : IType;
  Code : Z;
  Checksum : Z;
  Body : MessageBody
}.

(** The parts of the package that are not written out. *)
Record rest : Type := mkRest {
  (** [parseExtensions(typ, b, l)]: the extensions and the adjusted length
      of the original datagram field, or an error. *)
  parseExtensions : Z -> list byte -> Z -> result (list Extension * Z);
  (** the parsers of the other bodies (destination unreachable, parameter
      problem, extended echo, raw) *)
  parseOtherBody : Z -> list byte -> result MessageBody;
  (** [Len] and [Marshal] of the bodies other than [Echo] *)
  marshalOtherBody : MessageBody -> result (list byte)
}.

(** The sum of the loop of [checksum], before it is cut to 32 bits: the
    message as little-endian 16-bit words, an odd last byte on its own. *)
Fixpoint sum16 (b : list byte) : Z :=
  match b with
  | [] => 0
  | [b0] => Go.u8 b0
  | b0 :: b1 :: tl => Z.lor (Z.shiftl (Go.u8 b1) 8) (Go.u8 b0) + sum16 tl
  end.

(** [checksum(b)]. *)
Definition checksum (b : list byte) : Z :=
  let s := Go.uint32 (sum16 b) in
  let s := Go.uint32 (Z.shiftr s 16 + Z.land s 0xffff) in
  let s := Go.uint32 (s + Z.shiftr s 16) in
  Z.lxor (Go.uint16 s) 0xffff.

(** The method [Marshal] of [Echo]. *)
Definition Echo_Marshal (ID Seq : Z) (Data : list byte) : list byte :=
  Go.BigEndian_PutUint16 (Go.uint16 ID)
    ++ Go.BigEndian_PutUint16 (Go.uint16 Seq) ++ Data.

(** [b[2] ^= byte(s); b[3] ^= byte(s >> 8)]. *)
Definition place_checksum (b : list byte) (s : Z) : list byte :=
  match b with
  | t :: c :: k0 :: k1 :: tl =>
      t :: c :: Go.xor8 k0 (Go.to_byte s)
        :: Go.xor8 k1 (Go.to_byte (Z.shiftr s 8)) :: tl
  | _ => b
  end.

Section WithRest.
Variable R : rest.

(** [m.Marshal(nil)]. *)
Definition Marshal (m : Message) : result (list byte) :=
  match Type_ m with
  | NilType => Err errInvalidProtocol
  | ipv6_ICMPType t =>
      (* no pseudo header: the checksum is left to the kernel *)
      let b := [Go.to_byte t; Go.to_byte (Code m); x00; x00] in
      match Body m with
      | NilBody => Ok b
      | Echo ID Seq Data => Ok (b ++ Echo_Marshal ID Seq Data)
      | body =>
          match marshalOtherBody R body with
          | Ok mb => Ok (b ++ mb)
          | Err e => Err e
          end
      end
  | ipv4_ICMPType t =>
      let b := [Go.to_byte t; Go.to_byte (Code m); x00; x00] in
      match Body m with
      | NilBody => Ok (place_checksum b (checksum b))
      | Echo ID Seq Data =>
          let b := b ++ Echo_Marshal ID Seq Data in
          Ok (place_checksum b (checksum b))
      | body =>
          match marshalOtherBody R body with
          | Ok mb => let b := b ++ mb in Ok (place_checksum b (checksum b))
          | Err e => Err e
          end
      end
  end.

(** [parseEcho]. *)
Definition parseEcho (b : list byte) : result MessageBody :=
  match b with
  | i1 :: i0 :: s1 :: s0 :: data =>
      Ok (Echo (Z.lor (Go.u8 i0) (Z.shiftl (Go.u8 i1) 8))
               (Z.lor (Go.u8 s0) (Z.shiftl (Go.u8 s1) 8))
               data)
  | _ => Err errMessageTooShort
  end.

(** [parseMultipartMessageBody] for [iana.ProtocolICMP]; [b] has at least
    four bytes.  [data = make([]byte, l); copy(data, b[4:])]. *)
Definition parseMultipartMessageBody (typ : Z) (b : list byte)
  : list byte * list Extension :=
  let l := 4 * Go.u8 (nth 1 b x00) in
  if (length b =? 4)%nat then ([], [])
  else
    let '(exts, l) :=
      match parseExtensions R typ (skipn 4 b) l with
      | Ok (exts, l) => (exts, l)
      | Err _ => ([], Z.of_nat (length b) - 4)
      end in
    let data :=
      if 0 <? l then
        let src := firstn (Z.to_nat l) (skipn 4 b) in
        src ++ repeat x00 (Z.to_nat l - length src)
      else [] in
    (data, exts).

(** [parseTimeExceeded]. *)
Definition parseTimeExceeded (typ : Z) (b : list byte)
  : result MessageBody :=
  if (length b <? 4)%nat then Err errMessageTooShort
  else
    let '(data, exts) := parseMultipartMessageBody typ b in
    Ok (TimeExceeded data exts).

(** [ParseMessage(iana.ProtocolICMP, b)]. *)
Definition ParseMessage (b : list byte) : result Message :=
  match b with
  | t :: c :: k1 :: k0 :: body =>
      let typ := Go.u8 t in
      let parsed :=
        if (typ =? ICMPTypeEcho) || (typ =? ICMPTypeEchoReply)
        then parseEcho body
        else if typ =? ICMPTypeTimeExceeded
        then parseTimeExceeded typ body
        else parseOtherBody R typ body in
      match parsed with
      | Ok mb =>
          Ok {| Type_ := ipv4_ICMPType typ;
                Code := Go.u8 c;
                Checksum := Z.lor (Go.u8 k0) (Z.shiftl (Go.u8 k1) 8);
                Body := mb |}
      | Err e => Err e
      end
  | _ => Err errMessageTooShort
  end.

End WithRest.

End icmp.

(** ** The socket and the clock, as one call of [probe] meets them *)

(** A [net.Addr]: an IPv4 address. *)
Definition Addr : Set := Z.

(** What one successful [conn.ReadFrom] delivers. *)
Record Datagram : Set := mkDatagram {
  dg_bytes : list byte;      (* the ICMP message that arrived *)
  dg_from : Addr;            (* the sender, [responderAddr] *)
  dg_at : Z                  (* the clock when the read returned *)
}.

(** The behaviour of the socket and of the clock during one call of [probe].
    A read deadline is set before the first read, so only finitely many
    reads succeed before one fails: with the deadline error or another. *)
Record Script : Set := mkScript {
  clock_start : Z;                      (* the first [time.Now()] *)
  clock_deadline : Z;                   (* the second [time.Now()] *)
  setReadDeadlineErr : option error;
  setTTLErr : option error;
  writeToErr : option error;
  inbound : list Datagram;              (* the successful reads, in order *)
  readErr : error                       (* the error of the read after them *)
}.

(** A datagram handed to the network. *)
Record Sent : Set := mkSent {
  s_bytes : list byte;
  s_dst : Addr;
  s_ttl : option Z                      (* the TTL option of the socket then *)
}.

(** The mutable state of the shared raw socket. *)
Record Conn : Set := mkConn {
  readDeadline : option Z;
  TTL_option : option Z;
  sent : list Sent                      (* the most recent first *)
}.

Definition SetReadDeadline (sc : Script) (c : Conn) (t : Z)
  : option error * Conn :=
  match setReadDeadlineErr sc with
  | Some e => (Some e, c)
  | None => (None, {| readDeadline := Some t;
                      TTL_option := TTL_option c;
                      sent := sent c |})
  end.

Definition SetTTL (sc : Script) (c : Conn) (ttl : Z) : option error * Conn :=
  match setTTLErr sc with
  | Some e => (Some e, c)
  | None => (None, {| readDeadline := readDeadline c;
                      TTL_option := Some ttl;
                      sent := sent c |})
  end.

Definition WriteTo (sc : Script) (c : Conn) (b : list byte) (dst : Addr)
  : option error * Conn :=
  match writeToErr sc with
  | Some e => (Some e, c)
  | None => (None, {| readDeadline := readDeadline c;
                      TTL_option := TTL_option c;
                      sent := mkSent b dst (TTL_option c) :: sent c |})
  end.

(** ** The program: [probe] *)

(** The four results of [probe]. *)
Record ProbeReturn : Set := mkReturn {
  responderAddr : option Addr;
  elapsedTime : Z;
  msgType : Z;
  err : option error
}.

(** What one turn of the wait loop does with a parsed message. *)
Inductive verdict : Set :=
| Accept (typ : Z)       (* [return responderAddr, elapsedTime, typ, nil] *)
| Ignore                 (* next turn of the loop *)
| Abort.                 (* run-time panic *)

Definition innerIPv4HeaderLen : nat := 20.
Definition icmpEchoIDOffset : nat := innerIPv4HeaderLen + 4.
Definition icmpEchoIDLen : nat := 2.
Definition icmpEchoSeqOffset : nat := icmpEchoIDOffset + icmpEchoIDLen.
Definition icmpEchoSeqLen : nat := 2.

(** [int(binary.BigEndian.Uint16(Data[icmpEchoIDOffset:icmpEchoIDOffset+icmpEchoIDLen]))] *)
Definition embeddedID (Data : list byte) : outcome Z :=
  match Go.slice Data icmpEchoIDOffset (icmpEchoIDOffset + icmpEchoIDLen) with
  | Returns s => Go.BigEndian_Uint16 s
  | Panics => Panics
  end.

(** [int(binary.BigEndian.Uint16(Data[icmpEchoSeqOffset:icmpEchoSeqOffset+icmpEchoSeqLen]))] *)
Definition embeddedSeq (Data : list byte) : outcome Z :=
  match Go.slice Data icmpEchoSeqOffset (icmpEchoSeqOffset + icmpEchoSeqLen) with
  | Returns s => Go.BigEndian_Uint16 s
  | Panics => Panics
  end.

(** The [switch responseMsg.Type] of the wait loop.  [&&] evaluates its
    right operand only when the left one holds. *)
Definition check_packet (processIDKeep16 seqNum : Z) (m : icmp.Message)
  : verdict :=
  match icmp.Type_ m with
  | icmp.ipv4_ICMPType t =>
      if t =? icmp.ICMPTypeEchoReply then
        match icmp.Body m with
        | icmp.Echo ID Seq _ =>
            if ID =? processIDKeep16
            then if Seq =? seqNum then Accept icmp.ICMPTypeEchoReply
                 else Ignore
            else Ignore
        | _ => Abort                       (* the type assertion to Echo fails *)
        end
      else if t =? icmp.ICMPTypeTimeExceeded then
        match icmp.Body m with
        | icmp.TimeExceeded Data _ =>
            match embeddedID Data with
            | Panics => Abort
            | Returns id =>
                if id =? processIDKeep16
                then match embeddedSeq Data with
                     | Panics => Abort
                     | Returns s =>
                         if s =? seqNum then Accept icmp.ICMPTypeTimeExceeded
                         else Ignore
                     end
                else Ignore
            end
        | _ => Abort                       (* the type assertion to TimeExceeded fails *)
        end
      else Ignore
  | _ => Ignore
  end.

(** [[]byte("hello")] *)
Definition hello : list byte := [x68; x65; x6c; x6c; x6f].

Section Program.

(** [var processID int = os.Getpid()] *)
Variable processID : Z.

(** The two entry points of package icmp that the program calls:
    [msg.Marshal(nil)] and
    [icmp.ParseMessage(ipv4.ICMPTypeEcho.Protocol(), b)]. *)
Variable Marshal : icmp.Message -> result (list byte).
Variable ParseMessage : list byte -> result icmp.Message.

Definition icmpEchoIDMask : Z := 0xffff.
Definition processIDKeep16 : Z := Z.land processID icmpEchoIDMask.

(** The Echo Request of a probe. *)
Definition echo_request (seqNum : Z) : icmp.Message :=
  {| icmp.Type_ := icmp.ipv4_ICMPType icmp.ICMPTypeEcho;
     icmp.Code := 0;
     icmp.Checksum := 0;
     icmp.Body := icmp.Echo processIDKeep16 seqNum hello |}.

(** The wait loop of [probe], over the reads that the socket grants. *)
Fixpoint wait_loop (startTime seqNum : Z) (lastErr : error)
    (pending : list Datagram) : outcome ProbeReturn :=
  match pending with
  | [] =>
      (* [conn.ReadFrom] fails: timeout or other error *)
      Returns (mkReturn None 0 0 (Some lastErr))
  | d :: pending' =>
      (* [responseBytes[:responseLen]], out of a buffer of 1500 bytes *)
      let responseBytes := firstn 1500 (dg_bytes d) in
      let elapsedTime := dg_at d - startTime in
      match ParseMessage responseBytes with
      | Err _ => wait_loop startTime seqNum lastErr pending'
      | Ok responseMsg =>
          match check_packet processIDKeep16 seqNum responseMsg with
          | Accept typ =>
              Returns (mkReturn (Some (dg_from d)) elapsedTime typ None)
          | Ignore => wait_loop startTime seqNum lastErr pending'
          | Abort => Panics
          end
      end
  end.

(** [probe(conn, dstAddr, TTL, seqNum, waitTime)]. *)
Definition probe (sc : Script) (c : Conn) (dstAddr : Addr)
    (TTL seqNum waitTime : Z) : outcome ProbeReturn * Conn :=
  let startTime := clock_start sc in
  let t := clock_deadline sc + Go.wrap (1000000000 * waitTime) in
  match SetReadDeadline sc c t with
  | (Some e, c) => (Returns (mkReturn None 0 0 (Some e)), c)
  | (None, c) =>
      let msg := echo_request seqNum in
      let c := snd (SetTTL sc c TTL) in
      match Marshal msg with
      | Err e => (Returns (mkReturn None 0 0 (Some e)), c)
      | Ok msgBytes =>
          let c := snd (WriteTo sc c msgBytes dstAddr) in
          (wait_loop startTime seqNum (readErr sc) (inbound sc), c)
      end
  end.

(** ** The program: [main] *)

(** One call of [probe] made by the driver. *)
Record ProbeRecord : Set := mkRecord {
  p_TTL : Z;
  p_seqNum : Z;
  p_result : outcome ProbeReturn
}.

(** The lines of the report; reverse DNS and layout are left out. *)
Inductive Line : Set :=
| HopLine (TTL : Z)
| StarLine
| ResponseLine (from : Addr) (elapsed : Z).

(** The state of a run: the socket, the counter of [main], and what the
    run did so far (the calls of [probe] and the report, the most recent
    first; [issued] counts the calls). *)
Record Run : Set := mkRun {
  conn : Conn;
  probeCounter : Z;
  issued : nat;
  log : list ProbeRecord;
  output : list Line
}.

Inductive Status : Set :=
| Reached               (* [os.Exit(0)] after an Echo Reply *)
| Exhausted             (* [main] returns after the last TTL *)
| Crashed.              (* a run-time panic ended the process *)

(** How the loop over the probes of one hop ends. *)
Inductive flow : Set :=
| Next (reachedDestination : bool) (r : Run)
| Crash (r : Run).

Definition print (l : Line) (r : Run) : Run :=
  {| conn := conn r; probeCounter := probeCounter r; issued := issued r;
     log := log r; output := l :: output r |}.

Section Driver.

(** The flags [-q], [-w], [-m], the resolved destination, and the script
    of the socket for each call of [probe], numbered from 0. *)
Variables queries wait maxTTL : Z.
Variable dstAddr : Addr.
Variable world : nat -> Script.

(** [for range queries { ... }], with [n] turns left. *)
Fixpoint queries_loop (n : nat) (TTL : Z) (reachedDestination : bool)
    (r : Run) : flow :=
  match n with
  | O => Next reachedDestination r
  | S n' =>
      let '(res, c) :=
        probe (world (issued r)) (conn r) dstAddr TTL (probeCounter r) wait in
      let called pc :=
        {| conn := c; probeCounter := pc; issued := S (issued r);
           log := mkRecord TTL (probeCounter r) res :: log r;
           output := output r |} in
      match res with
      | Panics => Crash (called (probeCounter r))
      | Returns ret =>
          (* [probeCounter += 1] *)
          let r := called (Go.wrap (probeCounter r + 1)) in
          match err ret with
          | Some _ => queries_loop n' TTL reachedDestination (print StarLine r)
          | None =>
              match responderAddr ret with
              | None => Crash r          (* [responderAddr.String()] on nil *)
              | Some a =>
                  if msgType ret =? icmp.ICMPTypeEchoReply then
                    queries_loop n' TTL true
                      (print (ResponseLine a (elapsedTime ret)) r)
                  else if msgType ret =? icmp.ICMPTypeTimeExceeded then
                    queries_loop n' TTL reachedDestination
                      (print (ResponseLine a (elapsedTime ret)) r)
                  else queries_loop n' TTL reachedDestination r
              end
          end
      end
  end.

(** [for TTL := 1; TTL <= maxTTL; TTL++ { ... }], with [fuel] bounding
    the number of turns. *)
Fixpoint ttl_loop (fuel : nat) (TTL : Z) (r : Run) : option (Status * Run) :=
  match fuel with
  | O => None
  | S fuel' =>
      if TTL <=? maxTTL then
        match queries_loop (Z.to_nat queries) TTL false
                (print (HopLine TTL) r) with
        | Crash r => Some (Crashed, r)
        | Next reachedDestination r =>
            if reachedDestination then Some (Reached, r)
            else ttl_loop fuel' (Go.wrap (TTL + 1)) r
        end
      else Some (Exhausted, r)
  end.

(** [main], after the flags are parsed, the destination is resolved and
    the socket is open. *)
Definition main (fuel : nat) : option (Status * Run) :=
  ttl_loop fuel 1
    {| conn := mkConn None None []; probeCounter := 1; issued := 0;
       log := []; output := [] |}.

End Driver.

End Program.

(** ** Vocabulary of the statements *)

(** The calls of [probe] of a run, in the order they were made. *)
Definition probes (r : Run) : list ProbeRecord := rev (log r).

(** The call returned a response of type [typ] to the driver. *)
Definition yields (typ : Z) (p : ProbeRecord) : bool :=
  match p_result p with
  | Returns ret =>
      match err ret with
      | None => msgType ret =? typ
      | Some _ => false
      end
  | Panics => false
  end.

Definition yields_EchoReply : ProbeRecord -> bool :=
  yields icmp.ICMPTypeEchoReply.

(** The call ended the process. *)
Definition panicked (p : ProbeRecord) : bool :=
  match p_result p with
  | Returns _ => false
  | Panics => true
  end.

(** [a, a + 1, ..., a + n - 1]. *)
Definition zrange (a : Z) (n : nat) : list Z :=
  map (fun i => a + Z.of_nat i) (seq 0 n).

(** The value of [probeCounter] after [i] executions of [probeCounter += 1]. *)
Definition counter_at (i : nat) : Z :=
  Nat.iter i (fun c => Go.wrap (c + 1)) 1.

(** What one turn of the wait loop decides about a datagram; a datagram
    that does not parse is passed over. *)
Definition turn (ParseMessage : list byte -> result icmp.Message)
    (processID seqNum : Z) (d : Datagram) : verdict :=
  match ParseMessage (firstn 1500 (dg_bytes d)) with
  | Err _ => Ignore
  | Ok responseMsg => check_packet (processIDKeep16 processID) seqNum responseMsg
  end.

(** The same script with another result for [conn.WriteTo]. *)
Definition with_writeToErr (e : option error) (sc : Script) : Script :=
  {| clock_start := clock_start sc;
     clock_deadline := clock_deadline sc;
     setReadDeadlineErr := setReadDeadlineErr sc;
     setTTLErr := setTTLErr sc;
     writeToErr := e;
     inbound := inbound sc;
     readErr := readErr sc |}.

(** The 16-bit big-endian field at offset [off] of a datagram. *)
Definition field16 (off : nat) (b : list byte) : option Z :=
  match skipn off b with
  | b0 :: b1 :: _ => Some (256 * Go.u8 b0 + Go.u8 b1)
  | _ => None
  end.

(** The fields of an ICMP Echo message on the wire. *)
Definition type_field (b : list byte) : option Z := option_map Go.u8 (nth_error b 0).
Definition code_field (b : list byte) : option Z := option_map Go.u8 (nth_error b 1).
Definition checksum_field (b : list byte) : option Z := field16 2 b.
Definition identifier_field (b : list byte) : option Z := field16 4 b.
Definition sequence_field (b : list byte) : option Z := field16 6 b.
Definition payload (b : list byte) : list byte := skipn 8 b.

(** The Internet checksum of RFC 1071 over big-endian 16-bit words, an odd
    last byte padded with a zero byte: the one's complement sum and its
    complement. *)
Fixpoint words_be (b : list byte) : list Z :=
  match b with
  | [] => []
  | [b0] => [256 * Go.u8 b0]
  | b0 :: b1 :: tl => (256 * Go.u8 b0 + Go.u8 b1) :: words_be tl
  end.

Definition ones_add (x y : Z) : Z :=
  let s := x + y in if s <? 0x10000 then s else s - 0xffff.

Definition ones_sum (ws : list Z) : Z := fold_left ones_add ws 0.

Definition internet_checksum (b : list byte) : Z :=
  0xffff - ones_sum (words_be b).

(** The same datagram with its checksum field cleared. *)
Definition clear_checksum (b : list byte) : list byte :=
  match b with
  | t :: c :: _ :: _ :: tl => t :: c :: x00 :: x00 :: tl
  | _ => b
  end.

(** The sequence number that the Echo Request of a call carries on the
    wire. *)
Definition carried_sequence (R : icmp.rest) (processID : Z) (p : ProbeRecord)
  : option Z :=
  match icmp.Marshal R (echo_request processID (p_seqNum p)) with
  | Ok b => sequence_field b
  | Err _ => None
  end.

(** The record of a call holds what [probe] returned on some script of
    the world, for the arguments on record. *)
Definition made_by_driver (processID : Z)
    (Marshal : icmp.Message -> result (list byte))
    (ParseMessage : list byte -> result icmp.Message)
    (wait : Z) (dstAddr : Addr) (world : nat -> Script) (p : ProbeRecord) : Prop :=
  exists (i : nat) (c : Conn),
    p_result p =
    fst (probe processID Marshal ParseMessage (world i) c dstAddr
           (p_TTL p) (p_seqNum p) wait).

(** What every state of a run satisfies: [issued] counts the calls on
    record, the call number [i] was given the value of the counter after [i]
    increments, and every record comes from a call of [probe]. *)
Definition log_invariant (processID : Z)
    (Marshal : icmp.Message -> result (list byte))
    (ParseMessage : list byte -> result icmp.Message)
    (wait : Z) (dstAddr : Addr) (world : nat -> Script) (r : Run) : Prop :=
  issued r = length (log r) /\
  map p_seqNum (probes r) = map counter_at (seq 0 (issued r)) /\
  Forall (made_by_driver processID Marshal ParseMessage wait dstAddr world) (log r).

(** Between two calls, [probeCounter] was incremented once per call. *)
Definition counter_invariant (r : Run) : Prop :=
  probeCounter r = counter_at (issued r).

(** ** Scenarios *)
Module Scenario.

(** The parts of package icmp that are not written out, for the scenarios:
    [parseExtensions] answers as the package does on every datagram shorter
    than 136 octets, which has no room for an extension structure; the
    scenarios hold only Echo and Time Exceeded messages of that size, so the
    other two functions are never called. *)
Definition rest0 : icmp.rest :=
  {| icmp.parseExtensions := fun _ _ _ => Err errNoExtension;
     icmp.parseOtherBody := fun typ b => Ok (icmp.OtherBody typ b);
     icmp.marshalOtherBody := fun _ => Err errInvalidBody |}.

Definition Marshal := icmp.Marshal rest0.
Definition ParseMessage := icmp.ParseMessage rest0.

Definition pid : Z := 77777.
Definition dst : Addr := 0x08080808.
Definition router (hop : Z) : Addr := 0x0a000000 + hop.

(** The Echo Request of the probe with sequence number [seqNum]. *)
Definition request (processID seqNum : Z) : list byte :=
  match Marshal (echo_request processID seqNum) with
  | Ok b => b
  | Err _ => []
  end.

(** The Echo Reply that a host returns for a request: the type is 0, the
    checksum is recomputed, the rest is returned as it came. *)
Definition echo_reply (req : list byte) : list byte :=
  match req with
  | _ :: c :: _ :: _ :: tl =>
      let b := x00 :: c :: x00 :: x00 :: tl in
      icmp.place_checksum b (icmp.checksum b)
  | _ => req
  end.

(** An IPv4 header without options. *)
Definition ip_header : list byte :=
  [x45; x00; x00; x21; xab; xcd; x00; x00; x01; x01;
   x00; x00; xc0; xa8; x00; x02; x08; x08; x08; x08].

(** The Time Exceeded message of a router for a request: 8 octets of ICMP
    header, the IPv4 header of the request and its first 8 octets. *)
Definition time_exceeded (hdr req : list byte) : list byte :=
  let b := [x0b; x00; x00; x00; x00; x00; x00; x00] ++ hdr ++ firstn 8 req in
  icmp.place_checksum b (icmp.checksum b).

(** A Time Exceeded message that quotes nothing of the request. *)
Definition bare_time_exceeded : list byte :=
  [x0b; x00; xf4; xff; x00; x00; x00; x00].

(** No datagram arrives and the read deadline elapses. *)
Definition silent : Script :=
  {| clock_start := 0; clock_deadline := 0;
     setReadDeadlineErr := None; setTTLErr := None; writeToErr := None;
     inbound := []; readErr := ErrDeadlineExceeded |}.

(** The datagrams [ds] arrive, then the read deadline elapses. *)
Definition arrive (ds : list Datagram) : Script :=
  {| clock_start := 0; clock_deadline := 0;
     setReadDeadlineErr := None; setTTLErr := None; writeToErr := None;
     inbound := ds; readErr := ErrDeadlineExceeded |}.

(** The destination is three hops away and three probes are sent per
    hop: the calls 0 to 5 are answered by the routers of hops 1 and 2,
    the later ones by the destination. *)
Definition path3 (i : nat) : Script :=
  let req := request pid (Z.of_nat i + 1) in
  if (i <? 6)%nat
  then arrive [mkDatagram (time_exceeded ip_header req)
                          (router (Z.of_nat (i / 3) + 1)) 5000000]
  else arrive [mkDatagram (echo_reply req) dst 9000000].

(** The run of the non-matching isolation scenario: an Echo Reply and a
    Time Exceeded of another run, then the awaited Echo Reply. *)
Definition foreign_then_awaited : Script :=
  arrive [mkDatagram (echo_reply (request 4242 7)) dst 1000;
          mkDatagram (time_exceeded ip_header (request 4242 7)) (router 1) 2000;
          mkDatagram (echo_reply (request pid 7)) dst 3000].

(** A Time Exceeded message without a quoted datagram arrives before the
    awaited Echo Reply. *)
Definition bare_then_awaited : Script :=
  arrive [mkDatagram bare_time_exceeded (router 1) 1000;
          mkDatagram (echo_reply (request pid 7)) dst 3000].

End Scenario.

(** ** Vocabulary of the further statements *)

(** The message [m] is a response of type [typ] to the request with
    identifier [id] and sequence number [seqNum]: an Echo Reply with these
    two fields, or a Time Exceeded message whose payload holds them at
    bytes 24-25 and 26-27. *)
Definition carries_identity (id seqNum : Z) (m : icmp.Message) (typ : Z) : Prop :=
  (typ = icmp.ICMPTypeEchoReply /\
   icmp.Type_ m = icmp.ipv4_ICMPType icmp.ICMPTypeEchoReply /\
   exists Data, icmp.Body m = icmp.Echo id seqNum Data)
  \/
  (typ = icmp.ICMPTypeTimeExceeded /\
   icmp.Type_ m = icmp.ipv4_ICMPType icmp.ICMPTypeTimeExceeded /\
   exists Data exts,
     icmp.Body m = icmp.TimeExceeded Data exts /\
     embeddedID Data = Returns id /\
     embeddedSeq Data = Returns seqNum).

(** No operation on the socket but the reads fails during the call. *)
Definition socket_ok (sc : Script) : Prop :=
  setReadDeadlineErr sc = None /\ setTTLErr sc = None /\ writeToErr sc = None.

(** The bytes of the Echo Request with sequence number [seqNum]. *)
Definition echo_request_bytes (R : icmp.rest) (processID seqNum : Z) : list byte :=
  match icmp.Marshal R (echo_request processID seqNum) with
  | Ok b => b
  | Err _ => []
  end.

(** The datagram that the call on record hands to the network. *)
Definition datagram_of (R : icmp.rest) (processID : Z) (dstAddr : Addr)
    (p : ProbeRecord) : Sent :=
  mkSent (echo_request_bytes R processID (p_seqNum p)) dstAddr (Some (p_TTL p)).

Definition is_HopLine (l : Line) : bool :=
  match l with
  | HopLine _ => true
  | _ => false
  end.

(** The line of the report for a call of [probe]: a star when it returned
    an error, the responder and the elapsed time when it returned a
    response, nothing when it did not return. *)
Definition report_line (p : ProbeRecord) : list Line :=
  match p_result p with
  | Panics => []
  | Returns ret =>
      match err ret, responderAddr ret with
      | Some _, _ => [StarLine]
      | None, Some a => [ResponseLine a (elapsedTime ret)]
      | None, None => []
      end
  end.

(** ** The version with one probe per hop (part_001)

    [probe] takes no wait time (the deadline is 5 seconds) and uses
    [os.Getpid()] as it is; [main] sends one probe per TTL, with the TTL as
    sequence number, up to the TTL 64, and exits on the first Echo Reply. *)
Section OneProbePerHop.

(** [os.Getpid()] *)
Variable Getpid : Z.

Variable Marshal : icmp.Message -> result (list byte).
Variable ParseMessage : list byte -> result icmp.Message.

Definition echo_request1 (seqNum : Z) : icmp.Message :=
  {| icmp.Type_ := icmp.ipv4_ICMPType icmp.ICMPTypeEcho;
     icmp.Code := 0;
     icmp.Checksum := 0;
     icmp.Body := icmp.Echo Getpid seqNum hello |}.

(** The wait loop of [probe]. *)
Fixpoint wait_loop1 (startTime seqNum : Z) (lastErr : error)
    (pending : list Datagram) : outcome ProbeReturn :=
  match pending with
  | [] => Returns (mkReturn None 0 0 (Some lastErr))
  | d :: pending' =>
      let responseBytes := firstn 1500 (dg_bytes d) in
      let elapsedTime := dg_at d - startTime in
      match ParseMessage responseBytes with
      | Err _ => wait_loop1 startTime seqNum lastErr pending'
      | Ok responseMsg =>
          match check_packet Getpid seqNum responseMsg with
          | Accept typ =>
              Returns (mkReturn (Some (dg_from d)) elapsedTime typ None)
          | Ignore => wait_loop1 startTime seqNum lastErr pending'
          | Abort => Panics
          end
      end
  end.

(** [probe(conn, dstAddr, TTL, seqNum)]; [time.Second * 5] is 5000000000. *)
Definition probe1 (sc : Script) (c : Conn) (dstAddr : Addr) (TTL seqNum : Z)
  : outcome ProbeReturn * Conn :=
  let startTime := clock_start sc in
  let t := clock_deadline sc + 5000000000 in
  match SetReadDeadline sc c t with
  | (Some e, c) => (Returns (mkReturn None 0 0 (Some e)), c)
  | (None, c) =>
      let msg := echo_request1 seqNum in
      let c := snd (SetTTL sc c TTL) in
      match Marshal msg with
      | Err e => (Returns (mkReturn None 0 0 (Some e)), c)
      | Ok msgBytes =>
          let c := snd (WriteTo sc c msgBytes dstAddr) in
          (wait_loop1 startTime seqNum (readErr sc) (inbound sc), c)
      end
  end.

(** The lines of the report of this version. *)
Inductive Line1 : Set :=
| StarLine1 (TTL : Z)
| ResponseLine1 (TTL : Z) (from : Addr) (elapsed : Z).

(** The state of a run of this version; the calls and the lines, the most
    recent first. *)
Record Run1 : Set := mkRun1 {
  conn1 : Conn;
  issued1 : nat;
  log1 : list ProbeRecord;
  output1 : list Line1
}.

Definition print1 (l : Line1) (r : Run1) : Run1 :=
  {| conn1 := conn1 r; issued1 := issued1 r; log1 := log1 r;
     output1 := l :: output1 r |}.

(** [maxTTL := 64] *)
Definition maxTTL1 : Z := 64.

Section Driver1.

Variable dstAddr : Addr.
Variable world : nat -> Script.

(** [for TTL := 1; TTL <= maxTTL; TTL++ { ... }]. *)
Fixpoint ttl_loop1 (fuel : nat) (TTL : Z) (r : Run1) : option (Status * Run1) :=
  match fuel with
  | O => None
  | S fuel' =>
      if TTL <=? maxTTL1 then
        let '(res, c) := probe1 (world (issued1 r)) (conn1 r) dstAddr TTL TTL in
        let r := {| conn1 := c; issued1 := S (issued1 r);
                    log1 := mkRecord TTL TTL res :: log1 r;
                    output1 := output1 r |} in
        match res with
        | Panics => Some (Crashed, r)
        | Returns ret =>
            match err ret with
            | Some _ =>
                ttl_loop1 fuel' (Go.wrap (TTL + 1)) (print1 (StarLine1 TTL) r)
            | None =>
                if msgType ret =? icmp.ICMPTypeEchoReply then
                  match responderAddr ret with
                  | None => Some (Crashed, r)
                  | Some a =>
                      (* [os.Exit(0)] *)
                      Some (Reached,
                            print1 (ResponseLine1 TTL a (elapsedTime ret)) r)
                  end
                else if msgType ret =? icmp.ICMPTypeTimeExceeded then
                  match responderAddr ret with
                  | None => Some (Crashed, r)
                  | Some a =>
                      ttl_loop1 fuel' (Go.wrap (TTL + 1))
                        (print1 (ResponseLine1 TTL a (elapsedTime ret)) r)
                  end
                else ttl_loop1 fuel' (Go.wrap (TTL + 1)) r
            end
        end
      else Some (Exhausted, r)
  end.

(** [main], after the destination is resolved and the socket is open; 65
    turns of the loop are enough for its 64 TTL values. *)
Definition main1 : option (Status * Run1) :=
  ttl_loop1 65 1
    {| conn1 := mkConn None None []; issued1 := 0; log1 := []; output1 := [] |}.

End Driver1.

End OneProbePerHop.

(** The calls of [probe] of a run of that version, in order. *)
Definition probes1 (r : Run1) : list ProbeRecord := rev (log1 r).

(** What one turn of its wait loop decides about a datagram. *)
Definition turn1 (ParseMessage : list byte -> result icmp.Message)
    (Getpid seqNum : Z) (d : Datagram) : verdict :=
  match ParseMessage (firstn 1500 (dg_bytes d)) with
  | Err _ => Ignore
  | Ok responseMsg => check_packet Getpid seqNum responseMsg
  end.

(** ** The version without a maximum TTL (main.go)

    [main] holds the whole loop: the Echo Request always has the sequence
    number 1, the wait loop parses the whole buffer of 1500 bytes, compares
    the identifier alone with [os.Getpid()], and the loop over the TTL values
    has no bound. *)

(** [responseBytes] after [conn.ReadFrom]: the datagram in a buffer of 1500
    zero bytes. *)
Definition buffer_after_read (b : list byte) : list byte :=
  firstn 1500 (b ++ repeat x00 1500).

(** The [switch responseMsg.Type] of that wait loop. *)
Definition check_packet0 (Getpid : Z) (m : icmp.Message) : verdict :=
  match icmp.Type_ m with
  | icmp.ipv4_ICMPType t =>
      if t =? icmp.ICMPTypeEchoReply then
        match icmp.Body m with
        | icmp.Echo ID _ _ =>
            if ID =? Getpid then Accept icmp.ICMPTypeEchoReply else Ignore
        | _ => Abort
        end
      else if t =? icmp.ICMPTypeTimeExceeded then
        match icmp.Body m with
        | icmp.TimeExceeded Data _ =>
            (* [int(binary.BigEndian.Uint16(Data[24:26]))] *)
            match embeddedID Data with
            | Panics => Abort
            | Returns id =>
                if id =? Getpid then Accept icmp.ICMPTypeTimeExceeded
                else Ignore
            end
        | _ => Abort
        end
      else Ignore
  | _ => Ignore
  end.

(** The lines of the report of that version: a star, or the message as
    [fmt.Println] shows it. *)
Inductive Line0 : Set :=
| StarLine0
| MessageLine0 (m : icmp.Message).

(** How its wait loop ends. *)
Inductive ended : Set :=
| Return0                          (* [return]: the program ends *)
| Break0 (out : list Line0)        (* [break]: the next TTL *)
| Panic0.                          (* run-time panic *)

(** How that version ends. *)
Inductive Status0 : Set :=
| Returned0                        (* [main] returns on an Echo Reply *)
| Fatal0 (e : error)               (* [log.Fatalf] *)
| Panicked0.

(** The state of a run: the socket, the number of turns of the loop over
    the TTL values begun so far, the report (the most recent line first). *)
Record Run0 : Set := mkRun0 {
  conn0 : Conn;
  turns0 : nat;
  output0 : list Line0
}.

Section NoMaximum.

Variable Getpid : Z.
Variable Marshal : icmp.Message -> result (list byte).
Variable ParseMessage : list byte -> result icmp.Message.

(** [net.ResolveIPAddr("ip4", "google.com.tr")] and the script of the
    socket, for each turn of the loop over the TTL values. *)
Variable resolve : nat -> result Addr.
Variable world : nat -> Script.

(** The wait loop. *)
Fixpoint wait_loop0 (pending : list Datagram) (out : list Line0) : ended :=
  match pending with
  | [] => Break0 (StarLine0 :: out)
  | d :: pending' =>
      let responseBytes := buffer_after_read (dg_bytes d) in
      match ParseMessage responseBytes with
      | Err _ => wait_loop0 pending' out
      | Ok responseMsg =>
          match check_packet0 Getpid responseMsg with
          | Accept typ =>
              if typ =? icmp.ICMPTypeEchoReply then Return0
              else Break0 (MessageLine0 responseMsg :: out)
          | Ignore => wait_loop0 pending' out
          | Abort => Panic0
          end
      end
  end.

(** [for TTL := 1; ; TTL++ { ... }]. *)
Fixpoint ttl_loop0 (fuel : nat) (TTL : Z) (r : Run0) : option (Status0 * Run0) :=
  match fuel with
  | O => None
  | S fuel' =>
      let sc := world (turns0 r) in
      let t := clock_deadline sc + 5000000000 in
      match SetReadDeadline sc (conn0 r) t with
      | (Some _, c) =>
          ttl_loop0 fuel' (Go.wrap (TTL + 1))
            {| conn0 := c; turns0 := S (turns0 r); output0 := output0 r |}
      | (None, c) =>
          let msg := echo_request1 Getpid 1 in
          let c := snd (SetTTL sc c TTL) in
          match Marshal msg with
          | Err e =>
              Some (Fatal0 e,
                    {| conn0 := c; turns0 := S (turns0 r); output0 := output0 r |})
          | Ok msgBytes =>
              match resolve (turns0 r) with
              | Err e =>
                  Some (Fatal0 e,
                        {| conn0 := c; turns0 := S (turns0 r);
                           output0 := output0 r |})
              | Ok ipAddr =>
                  let c := snd (WriteTo sc c msgBytes ipAddr) in
                  match wait_loop0 (inbound sc) (output0 r) with
                  | Return0 =>
                      Some (Returned0,
                            {| conn0 := c; turns0 := S (turns0 r);
                               output0 := output0 r |})
                  | Break0 out =>
                      ttl_loop0 fuel' (Go.wrap (TTL + 1))
                        {| conn0 := c; turns0 := S (turns0 r); output0 := out |}
                  | Panic0 =>
                      Some (Panicked0,
                            {| conn0 := c; turns0 := S (turns0 r);
                               output0 := output0 r |})
                  end
              end
          end
      end
  end.

(** [main], once the socket is open. *)
Definition main0 (fuel : nat) : option (Status0 * Run0) :=
  ttl_loop0 fuel 1 {| conn0 := mkConn None None []; turns0 := 0; output0 := [] |}.

End NoMaximum.

(** What one turn of that wait loop decides about a datagram. *)
Definition turn0 (ParseMessage : list byte -> result icmp.Message)
    (Getpid : Z) (d : Datagram) : verdict :=
  match ParseMessage (buffer_after_read (dg_bytes d)) with
  | Err _ => Ignore
  | Ok responseMsg => check_packet0 Getpid responseMsg
  end.

(** When [parseExtensions] finds an extension structure, the original
    datagram field that it delimits has at least 26 bytes (128 in the
    package). *)
Definition extensions_after_datagram (R : icmp.rest) : Prop :=
  forall (typ : Z) (b : list byte) (l l' : Z) (exts : list icmp.Extension),
    icmp.parseExtensions R typ b l = Ok (exts, l') -> 26 <= l'.

(** Scenarios of the further statements. *)
Module Scenario1.

(** A process identity that fits in 16 bits. *)
Definition pid : Z := 4242.

(** The destination is three hops away: the calls 0 and 1 are answered by
    the routers of hops 1 and 2, the later ones by the destination. *)
Definition path3 (i : nat) : Script :=
  let req := Scenario.request pid (Z.of_nat i + 1) in
  if (i <? 2)%nat
  then Scenario.arrive
         [mkDatagram (Scenario.time_exceeded Scenario.ip_header req)
                     (Scenario.router (Z.of_nat i + 1)) 5000000]
  else Scenario.arrive [mkDatagram (Scenario.echo_reply req) Scenario.dst 9000000].

(** The second hop does not answer. *)
Definition lossy (i : nat) : Script :=
  if (i =? 3)%nat || (i =? 4)%nat || (i =? 5)%nat
  then Scenario.silent else Scenario.path3 i.

End Scenario1.

(** * Properties *)

(** ** Bytes and 16-bit fields *)

Lemma u8_range (b : byte) : 0 <= Go.u8 b < 256.
Proof.
  unfold Go.u8. pose proof (Byte.to_N_bounded b). lia.
Qed.

Lemma u8_to_byte (z : Z) : Go.u8 (Go.to_byte z) = z mod 256.
Proof.
  unfold Go.to_byte, Go.u8.
  assert (Hr : 0 <= z mod 256 < 256) by (apply Z.mod_pos_bound; lia).
  change (z mod 0x100) with (z mod 256).
  destruct (Byte.of_N (Z.to_N (z mod 256))) as [b|] eqn:E.
  - apply Byte.to_of_N in E. rewrite E. apply Z2N.id. lia.
  - apply Byte.of_N_None_iff in E. lia.
Qed.

Lemma to_byte_u8 (b : byte) : Go.to_byte (Go.u8 b) = b.
Proof.
  pose proof (u8_range b) as Hr.
  unfold Go.to_byte. change (Go.u8 b mod 0x100) with (Go.u8 b mod 256).
  rewrite Z.mod_small by lia.
  unfold Go.u8. rewrite N2Z.id, Byte.of_to_N. reflexivity.
Qed.

Lemma land_low_shiftl (lo hi : Z) :
  0 <= lo < 256 -> Z.land lo (Z.shiftl hi 8) = 0.
Proof.
  intros Hlo. apply Z.bits_inj'. intros n Hn.
  rewrite Z.land_spec, Z.bits_0.
  destruct (Z.ltb_spec n 8) as [Hlt|Hge].
  - rewrite (Z.shiftl_spec_low hi 8 n) by lia. apply andb_false_r.
  - destruct (Z.eq_dec lo 0) as [->|Hnz].
    + rewrite Z.bits_0. reflexivity.
    + rewrite (Z.bits_above_log2 lo n); [reflexivity | lia |].
      apply Z.log2_lt_pow2; [lia|].
      apply Z.lt_le_trans with (2 ^ 8); [simpl; lia|].
      apply Z.pow_le_mono_r; lia.
Qed.

(** [lo | hi<<8] is [256 * hi + lo] when [lo] is a byte. *)
Lemma lor_shiftl_8 (lo hi : Z) :
  0 <= lo < 256 -> Z.lor lo (Z.shiftl hi 8) = 256 * hi + lo.
Proof.
  intros Hlo.
  rewrite <- Z.lxor_lor by (apply land_low_shiftl; assumption).
  rewrite <- Z.add_nocarry_lxor by (apply land_low_shiftl; assumption).
  rewrite Z.shiftl_mul_pow2 by lia. change (2 ^ 8) with 256. lia.
Qed.

Lemma shiftr_8 (v : Z) : Z.shiftr v 8 = v / 256.
Proof. rewrite Z.shiftr_div_pow2 by lia. reflexivity. Qed.

Lemma shiftr_16 (v : Z) : Z.shiftr v 16 = v / 65536.
Proof. rewrite Z.shiftr_div_pow2 by lia. reflexivity. Qed.

Lemma land_ffff (v : Z) : Z.land v 0xffff = v mod 65536.
Proof. change 0xffff with (Z.ones 16). rewrite Z.land_ones by lia. reflexivity. Qed.

(** [^x] on 16 bits. *)
Lemma lxor_ffff (x : Z) : 0 <= x < 65536 -> Z.lxor x 0xffff = 65535 - x.
Proof.
  intros Hx.
  assert (Hland : Z.land x (Z.lxor x 0xffff) = 0).
  { apply Z.bits_inj'. intros n Hn.
    rewrite Z.land_spec, Z.lxor_spec, Z.bits_0.
    destruct (Z.testbit x n) eqn:Hb; [|reflexivity].
    destruct (Z.ltb_spec n 16) as [Hlt|Hge].
    - change 0xffff with (Z.ones 16).
      rewrite Z.ones_spec_low by lia. reflexivity.
    - exfalso. destruct (Z.eq_dec x 0) as [->|Hnz].
      + rewrite Z.bits_0 in Hb. discriminate.
      + rewrite (Z.bits_above_log2 x n) in Hb; [discriminate | lia |].
        apply Z.log2_lt_pow2; [lia|].
        apply Z.lt_le_trans with (2 ^ 16); [simpl; lia|].
        apply Z.pow_le_mono_r; lia. }
  pose proof (Z.add_nocarry_lxor _ _ Hland) as Hadd.
  rewrite <- Z.lxor_assoc, Z.lxor_nilpotent, Z.lxor_0_l in Hadd.
  lia.
Qed.

Lemma lor_shiftl_8' (lo hi : Z) :
  0 <= lo < 256 -> Z.lor (Z.shiftl hi 8) lo = 256 * hi + lo.
Proof. intros. rewrite Z.lor_comm. apply lor_shiftl_8. assumption. Qed.

Lemma xor8_zero_l (b : byte) : Go.xor8 x00 b = b.
Proof.
  unfold Go.xor8. change (Go.u8 x00) with 0. rewrite Z.lxor_0_l. apply to_byte_u8.
Qed.

Lemma field_PutUint16 (v : Z) :
  0 <= v < 65536 ->
  256 * Go.u8 (Go.to_byte (Z.shiftr v 8)) + Go.u8 (Go.to_byte v) = v.
Proof.
  intros Hv. rewrite !u8_to_byte, shiftr_8. Z.div_mod_to_equations. lia.
Qed.

Lemma processIDKeep16_range (processID : Z) :
  0 <= processIDKeep16 processID < 65536.
Proof.
  unfold processIDKeep16, icmpEchoIDMask. rewrite land_ffff.
  apply Z.mod_pos_bound. lia.
Qed.

Lemma Marshal_echo_request (R : icmp.rest) (processID seqNum : Z) :
  icmp.Marshal R (echo_request processID seqNum) =
  Ok (let cs := icmp.checksum
             ([x08; x00; x00; x00] ++
              icmp.Echo_Marshal (processIDKeep16 processID) seqNum hello) in
      x08 :: x00 :: Go.to_byte cs :: Go.to_byte (Z.shiftr cs 8)
        :: icmp.Echo_Marshal (processIDKeep16 processID) seqNum hello).
Proof.
  unfold icmp.Marshal, echo_request. cbn [icmp.Type_ icmp.Body icmp.Code].
  change (Go.to_byte icmp.ICMPTypeEcho) with x08.
  change (Go.to_byte 0) with x00.
  cbn [app icmp.place_checksum]. rewrite !xor8_zero_l. reflexivity.
Qed.

Lemma fold_sum (s : Z) :
  0 < s < 0x100000000 ->
  let f := Go.uint16 (Go.uint32 (Go.uint32 (Z.shiftr (Go.uint32 s) 16 + Z.land (Go.uint32 s) 0xffff)
             + Z.shiftr (Go.uint32 (Z.shiftr (Go.uint32 s) 16 + Z.land (Go.uint32 s) 0xffff)) 16)) in
  1 <= f <= 65535 /\ (s - f) mod 65535 = 0.
Proof.
  intros Hs. cbv zeta. rewrite !shiftr_16, !land_ffff. unfold Go.uint16, Go.uint32.
  Z.div_mod_to_equations. lia.
Qed.


Ltac eval_u8 :=
  change (Go.u8 x08) with 8 in *; change (Go.u8 x00) with 0 in *;
  change (Go.u8 x68) with 104 in *; change (Go.u8 x65) with 101 in *;
  change (Go.u8 x6c) with 108 in *; change (Go.u8 x6f) with 111 in *.

Lemma checksum_sum (b : list byte) (S : Z) :
  icmp.sum16 b = S -> 0 < S < 0x100000000 ->
  0 <= icmp.checksum b < 65535 /\
  (S + icmp.checksum b) mod 65535 = 0.
Proof.
  intros Hsum HS. unfold icmp.checksum. rewrite Hsum.
  pose proof (fold_sum S HS) as Hf. cbv zeta in Hf.
  set (f := Go.uint16 _) in *. destruct Hf as [Hf1 Hf2].
  rewrite lxor_ffff by lia. split; [lia|].
  Z.div_mod_to_equations. lia.
Qed.

Lemma checksum_zero (b : list byte) (S : Z) :
  icmp.sum16 b = S -> 0 < S < 0x100000000 -> S mod 65535 = 0 ->
  icmp.checksum b = 0.
Proof.
  intros Hsum HS Hmod. unfold icmp.checksum. rewrite Hsum.
  pose proof (fold_sum S HS) as Hf. cbv zeta in Hf.
  set (f := Go.uint16 _) in *. destruct Hf as [Hf1 Hf2].
  rewrite lxor_ffff by lia.
  Z.div_mod_to_equations. lia.
Qed.


Lemma ones_sum_spec (ws : list Z) :
  Forall (fun w => 0 <= w <= 65535) ws ->
  forall acc, 0 <= acc <= 65535 ->
  exists k, fold_left ones_add ws acc = acc + fold_right Z.add 0 ws - 65535 * k /\
            0 <= fold_left ones_add ws acc <= 65535 /\
            (0 < acc + fold_right Z.add 0 ws -> 0 < fold_left ones_add ws acc).
Proof.
  induction 1 as [|w ws Hw Hws IH]; intros acc Hacc.
  - exists 0. cbn. lia.
  - cbn [fold_left fold_right].
    assert (Hstep : 0 <= ones_add acc w <= 65535 /\
                    (ones_add acc w = acc + w \/ ones_add acc w = acc + w - 65535) /\
                    (0 < acc + w -> 0 < ones_add acc w)).
    { unfold ones_add. destruct (Z.ltb_spec (acc + w) 0x10000); lia. }
    destruct Hstep as (Hr & Hv & Hp).
    destruct (IH (ones_add acc w) Hr) as (k & Hk & Hb & Hpos).
    destruct Hv as [Hv|Hv].
    + exists k. rewrite Hk, Hv. repeat split; try lia.
    + exists (k + 1). rewrite Hk, Hv. repeat split; try lia.
      intros Hgt. assert (0 <= fold_right Z.add 0 ws).
      { clear - Hws. induction Hws; cbn; lia. }
      destruct (Z.eq_dec (fold_right Z.add 0 ws) 0); lia.
Qed.

Lemma checksum_echo (a b c d : byte) :
  let b0 := [x08; x00; x00; x00; a; b; c; d] ++ hello in
  let cs := icmp.checksum b0 in
  let msg := x08 :: x00 :: Go.to_byte cs :: Go.to_byte (Z.shiftr cs 8)
               :: a :: b :: c :: d :: hello in
  checksum_field msg = Some (internet_checksum (clear_checksum msg)) /\
  ones_sum (words_be msg) = 0xffff /\
  icmp.checksum msg = 0.
Proof.
  cbv zeta.
  pose proof (u8_range a) as Ha. pose proof (u8_range b) as Hb.
  pose proof (u8_range c) as Hc. pose proof (u8_range d) as Hd.
  set (S := 53835 + (256 * Go.u8 b + Go.u8 a) + (256 * Go.u8 d + Go.u8 c)).
  assert (Hsum : icmp.sum16 ([x08; x00; x00; x00; a; b; c; d] ++ hello) = S).
  { unfold hello, S. cbn [app icmp.sum16].
    rewrite !lor_shiftl_8' by apply u8_range. eval_u8. lia. }
  assert (HS : 0 < S < 0x100000000) by (unfold S; lia).
  destruct (checksum_sum _ S Hsum HS) as [Hcs Hmod].
  set (cs := icmp.checksum _) in *.
  assert (Hk : 256 * Go.u8 (Go.to_byte (Z.shiftr cs 8)) + Go.u8 (Go.to_byte cs) = cs)
    by (apply field_PutUint16; lia).
  pose proof (u8_range (Go.to_byte cs)) as Hlo.
  pose proof (u8_range (Go.to_byte (Z.shiftr cs 8))) as Hhi.
  split; [|split].
  - unfold checksum_field, field16, internet_checksum, hello.
    cbn [skipn clear_checksum words_be]. f_equal. unfold ones_sum.
    match goal with
    | |- _ = _ - fold_left ones_add ?ws 0 =>
        destruct (ones_sum_spec ws) with (acc := 0) as (k & Hv & Hr & Hp)
    end.
    { repeat constructor; eval_u8; lia. }
    { lia. }
    rewrite Hv. cbn [fold_right] in *. eval_u8. unfold S in *.
    Z.div_mod_to_equations. lia.
  - unfold hello. cbn [words_be]. unfold ones_sum.
    match goal with
    | |- fold_left ones_add ?ws 0 = _ =>
        destruct (ones_sum_spec ws) with (acc := 0) as (k & Hv & Hr & Hp)
    end.
    { repeat constructor; eval_u8; lia. }
    { lia. }
    cbn [fold_right] in *. eval_u8. unfold S in *.
    Z.div_mod_to_equations. lia.
  - apply checksum_zero with (S := S + cs).
    + unfold hello. cbn [icmp.sum16].
      rewrite !lor_shiftl_8' by apply u8_range.
      unfold S. eval_u8. lia.
    + lia.
    + assumption.
Qed.

Lemma uint16_small (v : Z) : 0 <= v < 65536 -> Go.uint16 v = v.
Proof. intros Hv. unfold Go.uint16. apply Z.mod_small. assumption. Qed.

Lemma Uint16_PutUint16 (v : Z) :
  0 <= v < 65536 ->
  Z.lor (Go.u8 (Go.to_byte v)) (Z.shiftl (Go.u8 (Go.to_byte (Z.shiftr v 8))) 8) = v.
Proof.
  intros Hv. rewrite lor_shiftl_8 by apply u8_range.
  apply field_PutUint16. assumption.
Qed.

(** ** The packet codec *)

(** C2.  On a Time Exceeded payload made of a 20-byte inner IPv4 header,
    whatever it holds, followed by the first 8 bytes of the inner ICMP header
    (and by anything), the two expressions of the wait loop return the
    big-endian 16-bit value of payload bytes 24-25 as identifier and of bytes
    26-27 as sequence number, whatever the other bytes are; the packet is
    accepted exactly when both equal the awaited identity. *)
Theorem embedded_identity_extraction :
  forall (hdr tl : list byte) (t c k1 k0 i1 i0 s1 s0 : byte)
         (code cksum : Z) (exts : list icmp.Extension)
         (processIDKeep16 seqNum : Z),
    length hdr = 20%nat ->
    let Data := hdr ++ [t; c; k1; k0; i1; i0; s1; s0] ++ tl in
    let X := 256 * Go.u8 i1 + Go.u8 i0 in
    let Y := 256 * Go.u8 s1 + Go.u8 s0 in
    embeddedID Data = Returns X /\
    embeddedSeq Data = Returns Y /\
    0 <= X < 65536 /\ 0 <= Y < 65536 /\
    nth_error Data 24 = Some i1 /\ nth_error Data 25 = Some i0 /\
    nth_error Data 26 = Some s1 /\ nth_error Data 27 = Some s0 /\
    check_packet processIDKeep16 seqNum
      {| icmp.Type_ := icmp.ipv4_ICMPType icmp.ICMPTypeTimeExceeded;
         icmp.Code := code; icmp.Checksum := cksum;
         icmp.Body := icmp.TimeExceeded Data exts |}
    = if (X =? processIDKeep16) && (Y =? seqNum)
      then Accept icmp.ICMPTypeTimeExceeded else Ignore.
Proof.
  intros hdr tl t c k1 k0 i1 i0 s1 s0 code cksum exts pid16 seqNum Hlen.
  do 20 (destruct hdr as [|? hdr]; [discriminate Hlen|]).
  destruct hdr as [|? hdr]; [clear Hlen|discriminate Hlen].
  cbv zeta.
  pose proof (u8_range i1). pose proof (u8_range i0).
  pose proof (u8_range s1). pose proof (u8_range s0).
  assert (HID : embeddedID
            ([b; b0; b1; b2; b3; b4; b5; b6; b7; b8; b9; b10; b11; b12; b13;
              b14; b15; b16; b17; b18] ++ [t; c; k1; k0; i1; i0; s1; s0] ++ tl)
          = Returns (256 * Go.u8 i1 + Go.u8 i0)).
  { unfold embeddedID, Go.slice, icmpEchoIDOffset, icmpEchoIDLen,
      innerIPv4HeaderLen.
    cbn [length app Nat.leb Nat.add Nat.sub andb skipn firstn
         Go.BigEndian_Uint16].
    rewrite lor_shiftl_8 by assumption. reflexivity. }
  assert (HSeq : embeddedSeq
            ([b; b0; b1; b2; b3; b4; b5; b6; b7; b8; b9; b10; b11; b12; b13;
              b14; b15; b16; b17; b18] ++ [t; c; k1; k0; i1; i0; s1; s0] ++ tl)
          = Returns (256 * Go.u8 s1 + Go.u8 s0)).
  { unfold embeddedSeq, Go.slice, icmpEchoSeqOffset, icmpEchoSeqLen,
      icmpEchoIDOffset, icmpEchoIDLen, innerIPv4HeaderLen.
    cbn [length app Nat.leb Nat.add Nat.sub andb skipn firstn
         Go.BigEndian_Uint16].
    rewrite lor_shiftl_8 by assumption. reflexivity. }
  repeat split; try assumption; try lia.
  unfold check_packet. cbn [icmp.Type_ icmp.Body].
  change (icmp.ICMPTypeTimeExceeded =? icmp.ICMPTypeEchoReply) with false.
  change (icmp.ICMPTypeTimeExceeded =? icmp.ICMPTypeTimeExceeded) with true.
  cbv iota. rewrite HID, HSeq.
  destruct (256 * Go.u8 i1 + Go.u8 i0 =? pid16); [|reflexivity].
  destruct (256 * Go.u8 s1 + Go.u8 s0 =? seqNum); reflexivity.
Qed.

Lemma embedded_identity_extraction_witness :
  length Scenario.ip_header = 20%nat /\
  embeddedID (Scenario.ip_header ++ [x08; x00; xf7; xff; x2f; xd1; x00; x07] ++ [])
    = Returns (256 * Go.u8 x2f + Go.u8 xd1).
Proof.
  split; [reflexivity|].
  apply (embedded_identity_extraction Scenario.ip_header []
           x08 x00 xf7 xff x2f xd1 x00 x07 0 0 [] 0 0).
  reflexivity.
Defined.

(** C7 (as stated, refuted).  For the run token 46124 and the sequence
    number 1 the checksum computed over the message is 0: the Echo Request
    goes out with a zero checksum field. *)
Lemma echo_request_checksum_zero :
  exists b,
    icmp.Marshal Scenario.rest0 (echo_request 46124 1) = Ok b /\
    identifier_field b = Some 46124 /\
    sequence_field b = Some 1 /\
    checksum_field b = Some 0.
Proof.
  eexists. split; [vm_compute; reflexivity|].
  repeat split; vm_compute; reflexivity.
Qed.

(** C7 (amended).  For every process identity and every 16-bit sequence
    number, encoding succeeds and gives an ICMP Echo Request: type Echo,
    code 0, identifier the process identity masked to its low 16 bits,
    sequence the given number, payload the fixed non-empty string "hello",
    and a checksum field that holds the Internet checksum computed over the
    whole message, so that the message verifies (the field is the computed
    value, which is zero for some identities).  When serialising fails,
    [probe] returns that error to its caller and transmits nothing. *)
Theorem echo_request_encoding :
  forall (R : icmp.rest) (processID seqNum : Z),
    0 <= seqNum < 65536 ->
    (exists b,
       icmp.Marshal R (echo_request processID seqNum) = Ok b /\
       type_field b = Some icmp.ICMPTypeEcho /\
       code_field b = Some 0 /\
       identifier_field b = Some (Z.land processID 0xffff) /\
       sequence_field b = Some seqNum /\
       payload b = hello /\ hello <> [] /\
       checksum_field b = Some (internet_checksum (clear_checksum b)) /\
       ones_sum (words_be b) = 0xffff /\
       icmp.checksum b = 0) /\
    (forall Marshal ParseMessage sc c dstAddr TTL waitTime e,
       setReadDeadlineErr sc = None ->
       Marshal (echo_request processID seqNum) = Err e ->
       let '(res, c') :=
         probe processID Marshal ParseMessage sc c dstAddr TTL seqNum waitTime in
       res = Returns (mkReturn None 0 0 (Some e)) /\ sent c' = sent c).
Proof.
  intros R processID seqNum Hseq. split.
  - eexists. split; [apply Marshal_echo_request|]. cbv zeta.
    pose proof (processIDKeep16_range processID) as Hid.
    unfold icmp.Echo_Marshal, Go.BigEndian_PutUint16. cbn [app].
    rewrite !uint16_small by assumption.
    repeat split.
    + unfold identifier_field, field16. cbn [skipn].
      rewrite field_PutUint16 by assumption. reflexivity.
    + unfold sequence_field, field16. cbn [skipn].
      rewrite field_PutUint16 by assumption. reflexivity.
    + discriminate.
    + apply checksum_echo.
    + apply checksum_echo.
    + apply checksum_echo.
  - intros Marshal ParseMessage sc c dstAddr TTL waitTime e Hd Hm.
    unfold probe, SetReadDeadline. rewrite Hd, Hm.
    unfold SetTTL. destruct (setTTLErr sc); split; reflexivity.
Qed.

Lemma echo_request_encoding_witness :
  0 <= 7 < 65536 /\
  exists b,
    icmp.Marshal Scenario.rest0 (echo_request Scenario.pid 7) = Ok b /\
    identifier_field b = Some (Z.land Scenario.pid 0xffff) /\
    sequence_field b = Some 7.
Proof.
  split; [lia|].
  destruct (echo_request_encoding Scenario.rest0 Scenario.pid 7) as [[b Hb] _];
    [lia|].
  exists b. repeat split; apply Hb.
Defined.

(** C8.  For every process identity (hence every 16-bit run token) and
    every 16-bit sequence number, the bytes of the encoded Echo Request, sent
    back as an Echo Reply, decode to an Echo Reply whose identifier and
    sequence are the ones encoded; the wait loop accepts it for that
    identity. *)
Theorem encode_decode_round_trip :
  forall (R : icmp.rest) (processID seqNum : Z),
    0 <= seqNum < 65536 ->
    exists req m,
      icmp.Marshal R (echo_request processID seqNum) = Ok req /\
      icmp.ParseMessage R (Scenario.echo_reply req) = Ok m /\
      icmp.Type_ m = icmp.ipv4_ICMPType icmp.ICMPTypeEchoReply /\
      icmp.Body m = icmp.Echo (processIDKeep16 processID) seqNum hello /\
      0 <= processIDKeep16 processID < 65536 /\
      check_packet (processIDKeep16 processID) seqNum m
        = Accept icmp.ICMPTypeEchoReply.
Proof.
  intros R processID seqNum Hseq.
  pose proof (processIDKeep16_range processID) as Hid.
  eexists. eexists. split; [apply Marshal_echo_request|]. cbv zeta.
  unfold Scenario.echo_reply, icmp.place_checksum.
  unfold icmp.ParseMessage.
  change (Go.u8 x00) with 0.
  change ((0 =? icmp.ICMPTypeEcho) || (0 =? icmp.ICMPTypeEchoReply)) with true.
  cbv iota.
  unfold icmp.Echo_Marshal, Go.BigEndian_PutUint16. cbn [app icmp.parseEcho].
  rewrite !uint16_small by assumption.
  rewrite !Uint16_PutUint16 by assumption.
  split; [reflexivity|]. cbn [icmp.Type_ icmp.Body].
  repeat split; try apply Hid.
  unfold check_packet. cbn [icmp.Type_ icmp.Body].
  change (0 =? icmp.ICMPTypeEchoReply) with true. cbv iota.
  rewrite !Z.eqb_refl. reflexivity.
Qed.

Lemma encode_decode_round_trip_witness :
  0 <= 7 < 65536 /\
  exists req m,
    icmp.Marshal Scenario.rest0 (echo_request Scenario.pid 7) = Ok req /\
    icmp.ParseMessage Scenario.rest0 (Scenario.echo_reply req) = Ok m /\
    icmp.Body m = icmp.Echo (processIDKeep16 Scenario.pid) 7 hello.
Proof.
  split; [lia|].
  destruct (encode_decode_round_trip Scenario.rest0 Scenario.pid 7)
    as (req & m & H1 & H2 & _ & H4 & _); [lia|].
  exists req, m. repeat split; assumption.
Defined.

(** ** The wait loop of [probe] *)

Section WaitLoop.

Variable processID : Z.
Variable Marshal : icmp.Message -> result (list byte).
Variable ParseMessage : list byte -> result icmp.Message.

Local Notation "'wait'" := (wait_loop processID ParseMessage).
Local Notation "'decide'" := (turn ParseMessage processID).

(** One turn of the loop. *)
Lemma wait_loop_cons (startTime seqNum : Z) (lastErr : error)
    (d : Datagram) (ds : list Datagram) :
  wait startTime seqNum lastErr (d :: ds) =
  match decide seqNum d with
  | Accept typ =>
      Returns (mkReturn (Some (dg_from d)) (dg_at d - startTime) typ None)
  | Ignore => wait startTime seqNum lastErr ds
  | Abort => Panics
  end.
Proof.
  unfold turn. cbn [wait_loop].
  destruct (ParseMessage (firstn 1500 (dg_bytes d))); reflexivity.
Qed.

(** Datagrams that are passed over leave no trace. *)
Lemma wait_loop_ignored (startTime seqNum : Z) (lastErr : error)
    (pre ds : list Datagram) :
  Forall (fun d => decide seqNum d = Ignore) pre ->
  wait startTime seqNum lastErr (pre ++ ds) = wait startTime seqNum lastErr ds.
Proof.
  induction 1 as [|d pre Hd _ IH]; [reflexivity|].
  cbn [app]. rewrite wait_loop_cons, Hd. exact IH.
Qed.

(** The loop returns the first datagram that is accepted, when the ones
    before it are passed over. *)
Lemma wait_loop_first_match (startTime seqNum : Z) (lastErr : error)
    (pre post : list Datagram) (d : Datagram) (typ : Z) :
  Forall (fun d => decide seqNum d = Ignore) pre ->
  decide seqNum d = Accept typ ->
  wait startTime seqNum lastErr (pre ++ d :: post) =
  Returns (mkReturn (Some (dg_from d)) (dg_at d - startTime) typ None).
Proof.
  intros Hpre Hd. rewrite wait_loop_ignored by assumption.
  rewrite wait_loop_cons, Hd. reflexivity.
Qed.

(** Without any accepted datagram the loop ends with the error of the
    read that failed. *)
Lemma wait_loop_no_match (startTime seqNum : Z) (lastErr : error)
    (ds : list Datagram) :
  Forall (fun d => decide seqNum d = Ignore) ds ->
  wait startTime seqNum lastErr ds = Returns (mkReturn None 0 0 (Some lastErr)).
Proof.
  intros H. rewrite <- (app_nil_r ds), wait_loop_ignored by assumption.
  reflexivity.
Qed.

(** What the loop passes over, accepts, and what stops the program. *)
Lemma turn_unparseable (seqNum : Z) (d : Datagram) (e : error) :
  ParseMessage (firstn 1500 (dg_bytes d)) = Err e -> decide seqNum d = Ignore.
Proof. intros H. unfold turn. rewrite H. reflexivity. Qed.

Lemma turn_echo_reply (seqNum : Z) (d : Datagram) (code cksum ID Seq : Z)
    (Data : list byte) :
  ParseMessage (firstn 1500 (dg_bytes d)) =
    Ok (icmp.mkMessage (icmp.ipv4_ICMPType icmp.ICMPTypeEchoReply) code cksum
          (icmp.Echo ID Seq Data)) ->
  decide seqNum d =
    if (ID =? processIDKeep16 processID) && (Seq =? seqNum)
    then Accept icmp.ICMPTypeEchoReply else Ignore.
Proof.
  intros H. unfold turn. rewrite H. unfold check_packet.
  cbn [icmp.Type_ icmp.Body].
  change (icmp.ICMPTypeEchoReply =? icmp.ICMPTypeEchoReply) with true.
  cbv iota. destruct (ID =? _); [|reflexivity].
  destruct (Seq =? _); reflexivity.
Qed.

Lemma turn_time_exceeded (seqNum : Z) (d : Datagram) (code cksum X Y : Z)
    (Data : list byte) (exts : list icmp.Extension) :
  ParseMessage (firstn 1500 (dg_bytes d)) =
    Ok (icmp.mkMessage (icmp.ipv4_ICMPType icmp.ICMPTypeTimeExceeded) code cksum
          (icmp.TimeExceeded Data exts)) ->
  embeddedID Data = Returns X ->
  embeddedSeq Data = Returns Y ->
  decide seqNum d =
    if (X =? processIDKeep16 processID) && (Y =? seqNum)
    then Accept icmp.ICMPTypeTimeExceeded else Ignore.
Proof.
  intros H HX HY. unfold turn. rewrite H. unfold check_packet.
  cbn [icmp.Type_ icmp.Body].
  change (icmp.ICMPTypeTimeExceeded =? icmp.ICMPTypeEchoReply) with false.
  change (icmp.ICMPTypeTimeExceeded =? icmp.ICMPTypeTimeExceeded) with true.
  cbv iota. rewrite HX, HY. destruct (X =? _); [|reflexivity].
  destruct (Y =? _); reflexivity.
Qed.

Lemma turn_other_type (seqNum : Z) (d : Datagram) (m : icmp.Message) (t : Z) :
  ParseMessage (firstn 1500 (dg_bytes d)) = Ok m ->
  icmp.Type_ m = icmp.ipv4_ICMPType t ->
  t <> icmp.ICMPTypeEchoReply -> t <> icmp.ICMPTypeTimeExceeded ->
  decide seqNum d = Ignore.
Proof.
  intros H Ht H0 H11. unfold turn. rewrite H. unfold check_packet. rewrite Ht.
  destruct (Z.eqb_spec t icmp.ICMPTypeEchoReply); [contradiction|].
  destruct (Z.eqb_spec t icmp.ICMPTypeTimeExceeded); [contradiction|].
  reflexivity.
Qed.

Lemma embeddedID_short (Data : list byte) :
  (length Data < 26)%nat -> embeddedID Data = Panics.
Proof.
  intros H. unfold embeddedID, Go.slice.
  replace (icmpEchoIDOffset + icmpEchoIDLen <=? length Data)%nat with false.
  - rewrite andb_false_r. reflexivity.
  - symmetry. apply Nat.leb_gt. exact H.
Qed.

Lemma embeddedSeq_short (Data : list byte) :
  (length Data < 28)%nat -> embeddedSeq Data = Panics.
Proof.
  intros H. unfold embeddedSeq, Go.slice.
  replace (icmpEchoSeqOffset + icmpEchoSeqLen <=? length Data)%nat with false.
  - rewrite andb_false_r. reflexivity.
  - symmetry. apply Nat.leb_gt. exact H.
Qed.

(** A Time Exceeded message whose payload has fewer than 26 bytes stops
    the program, whatever follows it and whoever sent it. *)
Lemma short_time_exceeded_panics (startTime seqNum : Z) (lastErr : error)
    (d : Datagram) (ds : list Datagram) (code cksum : Z) (Data : list byte)
    (exts : list icmp.Extension) :
  ParseMessage (firstn 1500 (dg_bytes d)) =
    Ok (icmp.mkMessage (icmp.ipv4_ICMPType icmp.ICMPTypeTimeExceeded) code cksum
          (icmp.TimeExceeded Data exts)) ->
  (length Data < 26)%nat ->
  wait startTime seqNum lastErr (d :: ds) = Panics.
Proof.
  intros H Hlen. rewrite wait_loop_cons. unfold turn. rewrite H.
  unfold check_packet. cbn [icmp.Type_ icmp.Body].
  change (icmp.ICMPTypeTimeExceeded =? icmp.ICMPTypeEchoReply) with false.
  change (icmp.ICMPTypeTimeExceeded =? icmp.ICMPTypeTimeExceeded) with true.
  cbv iota. rewrite embeddedID_short by assumption. reflexivity.
Qed.

(** With 26 or 27 bytes of payload the identifier is read: the message is
    passed over when it is foreign, and stops the program when it is the
    one of this process. *)
Lemma truncated_time_exceeded (seqNum : Z) (d : Datagram) (code cksum X : Z)
    (Data : list byte) (exts : list icmp.Extension) :
  ParseMessage (firstn 1500 (dg_bytes d)) =
    Ok (icmp.mkMessage (icmp.ipv4_ICMPType icmp.ICMPTypeTimeExceeded) code cksum
          (icmp.TimeExceeded Data exts)) ->
  embeddedID Data = Returns X ->
  (length Data < 28)%nat ->
  decide seqNum d = if X =? processIDKeep16 processID then Abort else Ignore.
Proof.
  intros H HX Hlen. unfold turn. rewrite H. unfold check_packet.
  cbn [icmp.Type_ icmp.Body].
  change (icmp.ICMPTypeTimeExceeded =? icmp.ICMPTypeEchoReply) with false.
  change (icmp.ICMPTypeTimeExceeded =? icmp.ICMPTypeTimeExceeded) with true.
  cbv iota. rewrite HX, embeddedSeq_short by assumption.
  destruct (X =? _); reflexivity.
Qed.

(** The results of a call that returns without an error: a responder
    and one of the two awaited types. *)
Lemma wait_loop_returns (startTime seqNum : Z) (lastErr : error)
    (ds : list Datagram) (ret : ProbeReturn) :
  wait startTime seqNum lastErr ds = Returns ret ->
  err ret = None ->
  responderAddr ret <> None /\
  (msgType ret = icmp.ICMPTypeEchoReply \/
   msgType ret = icmp.ICMPTypeTimeExceeded).
Proof.
  induction ds as [|d ds IH]; intros Hw He.
  - cbn in Hw. injection Hw as <-. discriminate He.
  - rewrite wait_loop_cons in Hw.
    destruct (decide seqNum d) as [typ| |] eqn:Hd.
    + injection Hw as <-. cbn. split; [discriminate|].
      unfold turn in Hd.
      destruct (ParseMessage _) as [m|]; [|discriminate].
      unfold check_packet in Hd.
      destruct (icmp.Type_ m) as [|t|t]; try discriminate.
      destruct (t =? icmp.ICMPTypeEchoReply).
      * destruct (icmp.Body m); try discriminate.
        destruct (_ =? _); [|discriminate].
        destruct (_ =? _); [|discriminate].
        injection Hd as <-. left. reflexivity.
      * destruct (t =? icmp.ICMPTypeTimeExceeded); [|discriminate].
        destruct (icmp.Body m); try discriminate.
        destruct (embeddedID _); [|discriminate].
        destruct (_ =? _); [|discriminate].
        destruct (embeddedSeq _); [|discriminate].
        destruct (_ =? _); [|discriminate].
        injection Hd as <-. right. reflexivity.
    + apply IH; assumption.
    + discriminate.
Qed.

Lemma probe_returns (sc : Script) (c : Conn) (dstAddr : Addr)
    (TTL seqNum waitTime : Z) (ret : ProbeReturn) :
  fst (probe processID Marshal ParseMessage sc c dstAddr TTL seqNum waitTime)
    = Returns ret ->
  err ret = None ->
  responderAddr ret <> None /\
  (msgType ret = icmp.ICMPTypeEchoReply \/
   msgType ret = icmp.ICMPTypeTimeExceeded).
Proof.
  unfold probe, SetReadDeadline.
  destruct (setReadDeadlineErr sc).
  - cbn. intros H; injection H as <-. discriminate.
  - destruct (Marshal _).
    + cbn [fst]. apply wait_loop_returns.
    + cbn. intros H; injection H as <-. discriminate.
Qed.

(** The steps of [probe] before the wait loop, when the deadline is set
    and the request is serialised: the read deadline stays the one set at
    the start, whatever arrives. *)
Lemma probe_waits (sc : Script) (c : Conn) (dstAddr : Addr)
    (TTL seqNum waitTime : Z) (msgBytes : list byte) :
  setReadDeadlineErr sc = None ->
  Marshal (echo_request processID seqNum) = Ok msgBytes ->
  let '(res, c') :=
    probe processID Marshal ParseMessage sc c dstAddr TTL seqNum waitTime in
  res = wait (clock_start sc) seqNum (readErr sc) (inbound sc) /\
  readDeadline c' =
    Some (clock_deadline sc + Go.wrap (1000000000 * waitTime)).
Proof.
  intros Hd Hm. unfold probe, SetReadDeadline. rewrite Hd, Hm.
  split; [reflexivity|].
  unfold WriteTo, SetTTL.
  destruct (setTTLErr sc), (writeToErr sc); reflexivity.
Qed.

End WaitLoop.

(** C1 (the code departs from it).  A Time Exceeded message with an empty
    payload parses without error; the wait loop then slices its payload at
    24..26 and the program stops with a run-time panic instead of passing
    the datagram over. *)
Theorem bare_time_exceeded_stops_probe :
  Scenario.ParseMessage Scenario.bare_time_exceeded =
    Ok (icmp.mkMessage (icmp.ipv4_ICMPType icmp.ICMPTypeTimeExceeded) 0 62719
          (icmp.TimeExceeded [] [])) /\
  fst (probe Scenario.pid Scenario.Marshal Scenario.ParseMessage
         (Scenario.arrive
            [mkDatagram Scenario.bare_time_exceeded (Scenario.router 1) 1000])
         (mkConn None None []) Scenario.dst 1 7 5) = Panics.
Proof. split; vm_compute; reflexivity. Qed.

(** C3 (the code departs from it).  The awaited Echo Reply alone is
    returned; when a Time Exceeded message with an empty payload is read
    before it, the loop does not reach it: the program stops with a run-time
    panic. *)
Theorem bare_time_exceeded_hides_awaited_reply :
  fst (probe Scenario.pid Scenario.Marshal Scenario.ParseMessage
         (Scenario.arrive
            [mkDatagram (Scenario.echo_reply (Scenario.request Scenario.pid 7))
               Scenario.dst 3000])
         (mkConn None None []) Scenario.dst 1 7 5)
    = Returns (mkReturn (Some Scenario.dst) 3000 icmp.ICMPTypeEchoReply None) /\
  fst (probe Scenario.pid Scenario.Marshal Scenario.ParseMessage
         Scenario.bare_then_awaited
         (mkConn None None []) Scenario.dst 1 7 5) = Panics.
Proof. split; vm_compute; reflexivity. Qed.

(** The non-matching isolation scenario of the specification: an Echo
    Reply and a Time Exceeded of another run are passed over and the awaited
    Echo Reply is returned, under the read deadline set at the start. *)
Example foreign_replies_passed_over :
  probe Scenario.pid Scenario.Marshal Scenario.ParseMessage
    Scenario.foreign_then_awaited (mkConn None None []) Scenario.dst 1 7 5
  = (Returns (mkReturn (Some Scenario.dst) 3000 icmp.ICMPTypeEchoReply None),
     mkConn (Some 5000000000) (Some 1)
       [mkSent (Scenario.request Scenario.pid 7) Scenario.dst (Some 1)]).
Proof. vm_compute. reflexivity. Qed.

(** C4.  When the wait ends without an accepted datagram, [probe] returns
    the error of the failed read as it is: the deadline error when the read
    deadline elapsed, and another error, which the caller can tell from it,
    when the read failed for another reason. *)
Theorem probe_read_failure :
  forall (processID : Z) (Marshal : icmp.Message -> result (list byte))
         (ParseMessage : list byte -> result icmp.Message)
         (sc : Script) (c : Conn) (dstAddr : Addr) (TTL seqNum waitTime : Z)
         (msgBytes : list byte),
    setReadDeadlineErr sc = None ->
    Marshal (echo_request processID seqNum) = Ok msgBytes ->
    Forall (fun d => turn ParseMessage processID seqNum d = Ignore) (inbound sc) ->
    let res :=
      fst (probe processID Marshal ParseMessage sc c dstAddr TTL seqNum waitTime) in
    res = Returns (mkReturn None 0 0 (Some (readErr sc))) /\
    (readErr sc = ErrDeadlineExceeded <->
     res = Returns (mkReturn None 0 0 (Some ErrDeadlineExceeded))).
Proof.
  intros processID Marshal ParseMessage sc c dstAddr TTL seqNum waitTime
    msgBytes Hd Hm Hin. cbv zeta.
  pose proof (probe_waits processID Marshal ParseMessage sc c dstAddr TTL
                seqNum waitTime msgBytes Hd Hm) as Hp.
  destruct (probe _ _ _ _ _ _ _ _ _) as [res c']. destruct Hp as [Hres _].
  cbn [fst]. rewrite Hres, wait_loop_no_match by assumption.
  split; [reflexivity|]. split.
  - intros ->. reflexivity.
  - intros H. injection H as H. exact H.
Qed.

Lemma probe_read_failure_witness :
  fst (probe Scenario.pid Scenario.Marshal Scenario.ParseMessage
         Scenario.silent (mkConn None None []) Scenario.dst 1 7 5)
  = Returns (mkReturn None 0 0 (Some ErrDeadlineExceeded)).
Proof.
  destruct (probe_read_failure Scenario.pid Scenario.Marshal
              Scenario.ParseMessage Scenario.silent (mkConn None None [])
              Scenario.dst 1 7 5 (Scenario.request Scenario.pid 7)) as [H _].
  - reflexivity.
  - vm_compute. reflexivity.
  - constructor.
  - exact H.
Defined.

(** C10.  The result of writing the Echo Request is dropped: [probe]
    returns the same results whether the write failed or not, and after a
    failed write, with nothing transmitted, it returns what the wait on the
    socket gives. *)
Theorem write_error_discarded :
  forall (processID : Z) (Marshal : icmp.Message -> result (list byte))
         (ParseMessage : list byte -> result icmp.Message)
         (sc : Script) (c : Conn) (dstAddr : Addr) (TTL seqNum waitTime : Z)
         (e : error),
    let failed :=
      probe processID Marshal ParseMessage (with_writeToErr (Some e) sc)
        c dstAddr TTL seqNum waitTime in
    let written :=
      probe processID Marshal ParseMessage (with_writeToErr None sc)
        c dstAddr TTL seqNum waitTime in
    fst failed = fst written /\
    sent (snd failed) = sent c /\
    forall msgBytes,
      setReadDeadlineErr sc = None ->
      Marshal (echo_request processID seqNum) = Ok msgBytes ->
      fst failed =
        wait_loop processID ParseMessage (clock_start sc) seqNum (readErr sc)
          (inbound sc) /\
      sent (snd written) = mkSent msgBytes dstAddr (TTL_option (snd written)) :: sent c.
Proof.
  intros processID Marshal ParseMessage sc c dstAddr TTL seqNum waitTime e.
  cbv zeta. unfold probe, SetReadDeadline, with_writeToErr.
  cbn [setReadDeadlineErr clock_start clock_deadline readErr inbound].
  destruct (setReadDeadlineErr sc) as [e0|].
  - cbn. split; [reflexivity|]. split; [reflexivity|].
    intros msgBytes Hd. discriminate Hd.
  - unfold SetTTL, WriteTo. cbn [setTTLErr writeToErr].
    destruct (Marshal (echo_request processID seqNum)) as [b|e1].
    + destruct (setTTLErr sc); cbn;
        (split; [reflexivity|]); (split; [reflexivity|]);
        intros msgBytes _ Hm; injection Hm as <-; split; reflexivity.
    + destruct (setTTLErr sc); cbn;
        (split; [reflexivity|]); (split; [reflexivity|]);
        intros msgBytes _ Hm; discriminate Hm.
Qed.

Lemma write_error_discarded_witness :
  fst (probe Scenario.pid Scenario.Marshal Scenario.ParseMessage
         (with_writeToErr (Some (ErrSocket 1)) Scenario.silent)
         (mkConn None None []) Scenario.dst 1 7 5)
  = Returns (mkReturn None 0 0 (Some ErrDeadlineExceeded)).
Proof.
  destruct (write_error_discarded Scenario.pid Scenario.Marshal
              Scenario.ParseMessage Scenario.silent (mkConn None None [])
              Scenario.dst 1 7 5 (ErrSocket 1)) as (_ & _ & H).
  destruct (H (Scenario.request Scenario.pid 7)) as [H1 _].
  - reflexivity.
  - vm_compute. reflexivity.
  - rewrite H1. reflexivity.
Defined.

(** ** The driver *)

Lemma wrap_small (z : Z) : Go.MinInt <= z <= Go.MaxInt -> Go.wrap z = z.
Proof.
  unfold Go.MinInt, Go.MaxInt, Go.wrap. intros H.
  rewrite Z.mod_small by lia. lia.
Qed.

Lemma counter_at_S (i : nat) : counter_at (S i) = Go.wrap (counter_at i + 1).
Proof. reflexivity. Qed.

(** Below [MaxInt] calls the counter is the number of the call plus one. *)
Lemma counter_at_small (i : nat) :
  Z.of_nat i < Go.MaxInt -> counter_at i = 1 + Z.of_nat i.
Proof.
  induction i as [|i IH]; intros Hi; [reflexivity|].
  rewrite counter_at_S, IH by lia.
  rewrite wrap_small by (unfold Go.MinInt, Go.MaxInt in *; lia). lia.
Qed.

Lemma zrange_S (a : Z) (n : nat) : zrange a (S n) = a :: zrange (a + 1) n.
Proof.
  unfold zrange. cbn [seq map]. f_equal; [lia|].
  rewrite <- seq_shift, map_map. apply map_ext. intros i. lia.
Qed.

Lemma zrange_snoc (a : Z) (n : nat) :
  zrange a (S n) = zrange a n ++ [a + Z.of_nat n].
Proof. unfold zrange. rewrite seq_S, map_app. reflexivity. Qed.

Lemma zrange_In (a x : Z) (n : nat) :
  In x (zrange a n) -> a <= x < a + Z.of_nat n.
Proof.
  unfold zrange. rewrite in_map_iff. intros (i & <- & Hi).
  apply in_seq in Hi. lia.
Qed.

Lemma In_hops (q : nat) (x : Z) (l : list Z) :
  In x (flat_map (fun h => repeat h q) l) -> In x l.
Proof.
  rewrite in_flat_map. intros (h & Hh & Hx).
  apply repeat_spec in Hx. subst x. exact Hh.
Qed.

Lemma map_p_TTL_repeat (TTL : Z) (l : list ProbeRecord) :
  Forall (fun p => p_TTL p = TTL) l -> map p_TTL l = repeat TTL (length l).
Proof.
  induction 1 as [|p l Hp _ IH]; [reflexivity|].
  cbn [map length repeat]. rewrite Hp, IH. reflexivity.
Qed.

Lemma panicked_false (p : ProbeRecord) :
  panicked p = false <-> p_result p <> Panics.
Proof.
  unfold panicked. destruct (p_result p); split; intros H;
    try reflexivity; try discriminate; try congruence.
Qed.

Section DriverFacts.

Variable processID : Z.
Variable Marshal : icmp.Message -> result (list byte).
Variable ParseMessage : list byte -> result icmp.Message.
Variables queries wait maxTTL : Z.
Variable dstAddr : Addr.
Variable world : nat -> Script.

Local Notation "'call'" :=
  (probe processID Marshal ParseMessage).
Local Notation "'hop_loop'" :=
  (queries_loop processID Marshal ParseMessage wait dstAddr world).
Local Notation "'escalate'" :=
  (ttl_loop processID Marshal ParseMessage queries wait maxTTL dstAddr world).
Local Notation "'made'" :=
  (made_by_driver processID Marshal ParseMessage wait dstAddr world).
Local Notation "'LogInv'" :=
  (log_invariant processID Marshal ParseMessage wait dstAddr world).

(** A turn of the loop over the probes of a hop whose call panics. *)
Lemma queries_loop_panics (n : nat) (TTL : Z) (b : bool) (r : Run) :
  fst (call (world (issued r)) (conn r) dstAddr TTL (probeCounter r) wait)
    = Panics ->
  exists r',
    hop_loop (S n) TTL b r = Crash r' /\
    log r' = mkRecord TTL (probeCounter r) Panics :: log r /\
    issued r' = S (issued r).
Proof.
  intros Hp. cbn [queries_loop].
  destruct (call (world (issued r)) (conn r) dstAddr TTL (probeCounter r) wait)
    as [res c].
  cbn [fst] in Hp. subst res. eexists. split; [reflexivity|].
  split; reflexivity.
Qed.

(** A turn whose call returns: the record is added, the counter is
    incremented, and [reachedDestination] is set on an Echo Reply. *)
Lemma queries_loop_returns (n : nat) (TTL : Z) (b : bool) (r : Run)
    (ret : ProbeReturn) :
  fst (call (world (issued r)) (conn r) dstAddr TTL (probeCounter r) wait)
    = Returns ret ->
  exists r1,
    hop_loop (S n) TTL b r =
      hop_loop n TTL
        (b || yields_EchoReply (mkRecord TTL (probeCounter r) (Returns ret))) r1 /\
    log r1 = mkRecord TTL (probeCounter r) (Returns ret) :: log r /\
    issued r1 = S (issued r) /\
    probeCounter r1 = Go.wrap (probeCounter r + 1).
Proof.
  intros Hp. pose proof (probe_returns _ _ _ _ _ _ _ _ _ _ Hp) as Hret.
  cbn [queries_loop].
  destruct (call (world (issued r)) (conn r) dstAddr TTL (probeCounter r) wait)
    as [res c].
  cbn [fst] in Hp. subst res.
  unfold yields_EchoReply, yields. cbn [p_result].
  destruct (err ret) as [e|] eqn:He.
  - rewrite orb_false_r. eexists. split; [reflexivity|].
    repeat split; reflexivity.
  - destruct (Hret eq_refl) as [Haddr Htyp].
    destruct (responderAddr ret) as [a|]; [|contradiction].
    destruct Htyp as [Htyp|Htyp]; rewrite Htyp.
    + change (icmp.ICMPTypeEchoReply =? icmp.ICMPTypeEchoReply) with true.
      cbv iota. rewrite orb_true_r. eexists. split; [reflexivity|].
      repeat split; reflexivity.
    + change (icmp.ICMPTypeTimeExceeded =? icmp.ICMPTypeEchoReply) with false.
      change (icmp.ICMPTypeTimeExceeded =? icmp.ICMPTypeTimeExceeded) with true.
      cbv iota. rewrite orb_false_r. eexists. split; [reflexivity|].
      repeat split; reflexivity.
Qed.

(** One more call keeps the invariant of the log. *)
Lemma log_invariant_step (r r1 : Run) (TTL : Z) (res : outcome ProbeReturn) :
  LogInv r -> counter_invariant r ->
  res = fst (call (world (issued r)) (conn r) dstAddr TTL (probeCounter r) wait) ->
  log r1 = mkRecord TTL (probeCounter r) res :: log r ->
  issued r1 = S (issued r) ->
  LogInv r1.
Proof.
  intros (Hlen & Hseq & Hmade) Hc Hres Hlog Hiss.
  unfold log_invariant, probes in *. rewrite Hlog, Hiss. repeat split.
  - cbn [length]. congruence.
  - cbn [rev]. rewrite map_app, Hseq, seq_S, map_app. cbn [map p_seqNum].
    rewrite Hc. reflexivity.
  - constructor; [|assumption].
    exists (issued r), (conn r). cbn [p_result p_TTL p_seqNum]. exact Hres.
Qed.

(** The loop over the probes of one hop. *)
Lemma queries_loop_spec (n : nat) :
  forall (TTL : Z) (b : bool) (r : Run),
    LogInv r -> counter_invariant r ->
    exists new : list ProbeRecord,
      Forall (fun p => p_TTL p = TTL) new /\
      match hop_loop n TTL b r with
      | Next b' r' =>
          LogInv r' /\ counter_invariant r' /\
          log r' = rev new ++ log r /\
          length new = n /\
          Forall (fun p => panicked p = false) new /\
          b' = b || existsb yields_EchoReply new
      | Crash r' =>
          LogInv r' /\
          log r' = rev new ++ log r /\
          (length new <= n)%nat /\
          Exists (fun p => panicked p = true) new
      end.
Proof.
  induction n as [|n IH]; intros TTL b r HL HC.
  - exists []. split; [constructor|]. cbn [queries_loop].
    split; [assumption|]. split; [assumption|]. split; [reflexivity|].
    split; [reflexivity|]. split; [constructor|].
    cbn [existsb]. rewrite orb_false_r. reflexivity.
  - destruct (fst (call (world (issued r)) (conn r) dstAddr TTL
                     (probeCounter r) wait)) as [ret|] eqn:Hp.
    + destruct (queries_loop_returns n TTL b r ret Hp)
        as (r1 & Hstep & Hlog & Hiss & Hpc).
      assert (HL1 : LogInv r1).
      { apply (log_invariant_step r r1 TTL (Returns ret)); auto. }
      assert (HC1 : counter_invariant r1).
      { unfold counter_invariant in *. rewrite Hpc, Hiss, counter_at_S, HC.
        reflexivity. }
      set (rec := mkRecord TTL (probeCounter r) (Returns ret)) in *.
      destruct (IH TTL (b || yields_EchoReply rec) r1 HL1 HC1)
        as (new & HT & Hspec).
      exists (rec :: new). split; [constructor; [reflexivity|assumption]|].
      rewrite Hstep.
      destruct (hop_loop n TTL (b || yields_EchoReply rec) r1) as [b' r'|r'].
      * destruct Hspec as (HL' & HC' & Hlog' & Hlen & Hnp & Hb).
        split; [assumption|]. split; [assumption|]. split; [|split; [|split]].
        -- rewrite Hlog', Hlog. cbn [rev]. rewrite <- app_assoc. reflexivity.
        -- cbn [length]. congruence.
        -- constructor; [reflexivity|assumption].
        -- rewrite Hb. cbn [existsb]. rewrite orb_assoc. reflexivity.
      * destruct Hspec as (HL' & Hlog' & Hlen & Hex).
        split; [assumption|]. split; [|split].
        -- rewrite Hlog', Hlog. cbn [rev]. rewrite <- app_assoc. reflexivity.
        -- cbn [length]. lia.
        -- apply Exists_cons_tl. assumption.
    + destruct (queries_loop_panics n TTL b r Hp) as (r' & Hstep & Hlog & Hiss).
      exists [mkRecord TTL (probeCounter r) Panics].
      split; [constructor; [reflexivity|constructor]|].
      rewrite Hstep. split; [|split; [|split]].
      * apply (log_invariant_step r r' TTL Panics); auto.
      * exact Hlog.
      * cbn [length]. lia.
      * constructor. reflexivity.
Qed.

Lemma log_invariant_print (l : Line) (r : Run) : LogInv r -> LogInv (print l r).
Proof. intros H. exact H. Qed.

Lemma counter_invariant_print (l : Line) (r : Run) :
  counter_invariant r -> counter_invariant (print l r).
Proof. intros H. exact H. Qed.

Local Notation "'q'" := (Z.to_nat queries).

Lemma Forall_TTL_hop (TTL : Z) (l : list ProbeRecord) :
  TTL <= maxTTL ->
  Forall (fun p => p_TTL p = TTL) l ->
  Forall (fun p => TTL <= p_TTL p <= maxTTL) l.
Proof.
  intros Hle H. eapply Forall_impl; [|exact H]. cbn. intros p Hp. lia.
Qed.

Lemma existsb_false_Forall (f : ProbeRecord -> bool) (l : list ProbeRecord) :
  existsb f l = false -> Forall (fun p => f p = false) l.
Proof.
  induction l as [|p l IH]; cbn [existsb]; intros H; [constructor|].
  apply orb_false_iff in H. destruct H as [H1 H2].
  constructor; [assumption|apply IH; assumption].
Qed.

Lemma existsb_true_Exists (f : ProbeRecord -> bool) (l : list ProbeRecord) :
  existsb f l = true -> Exists (fun p => f p = true) l.
Proof.
  intros H. apply existsb_exists in H. apply Exists_exists. exact H.
Qed.

(** The loop over the TTL values, from [TTL] with [n] values left. *)
Lemma ttl_loop_spec (n : nat) :
  forall (fuel : nat) (TTL : Z) (r : Run),
    n = Z.to_nat (maxTTL + 1 - TTL) ->
    maxTTL < Go.MaxInt -> Go.MinInt <= TTL ->
    (n < fuel)%nat ->
    LogInv r -> counter_invariant r ->
    exists (st : Status) (r' : Run) (new : list ProbeRecord),
      escalate fuel TTL r = Some (st, r') /\
      LogInv r' /\
      log r' = rev new ++ log r /\
      (length new <= n * q)%nat /\
      Forall (fun p => TTL <= p_TTL p <= maxTTL) new /\
      match st with
      | Reached =>
          exists (earlier hop : list ProbeRecord) (k : nat),
            new = earlier ++ hop /\ (k < n)%nat /\
            map p_TTL earlier = flat_map (fun h => repeat h q) (zrange TTL k) /\
            Forall (fun p => yields_EchoReply p = false) earlier /\
            length hop = q /\
            Forall (fun p => p_TTL p = TTL + Z.of_nat k) hop /\
            Exists (fun p => yields_EchoReply p = true) hop /\
            Forall (fun p => panicked p = false) new
      | Exhausted =>
          map p_TTL new = flat_map (fun h => repeat h q) (zrange TTL n) /\
          Forall (fun p => yields_EchoReply p = false) new /\
          Forall (fun p => panicked p = false) new
      | Crashed => Exists (fun p => panicked p = true) new
      end.
Proof.
  induction n as [|n IH]; intros fuel TTL r Hn Hmax Hmin Hfuel HL HC.
  - destruct fuel as [|fuel]; [lia|]. cbn [ttl_loop].
    destruct (Z.leb_spec TTL maxTTL) as [Hle|Hgt]; [lia|].
    exists Exhausted, r, []. split; [reflexivity|]. split; [assumption|].
    split; [reflexivity|]. split; [cbn; lia|]. split; [constructor|].
    split; [reflexivity|]. split; constructor.
  - destruct fuel as [|fuel]; [lia|]. cbn [ttl_loop].
    destruct (Z.leb_spec TTL maxTTL) as [Hle|Hgt]; [|lia].
    destruct (queries_loop_spec q TTL false (print (HopLine TTL) r))
      as (hop & HT & Hspec);
      [apply log_invariant_print; assumption
      |apply counter_invariant_print; assumption|].
    destruct (hop_loop q TTL false (print (HopLine TTL) r)) as [b' r1|r1].
    + destruct Hspec as (HL1 & HC1 & Hlog1 & Hlen1 & Hnp1 & Hb).
      rewrite orb_false_l in Hb. change (log (print (HopLine TTL) r)) with (log r) in Hlog1.
      destruct b'.
      * exists Reached, r1, hop. split; [reflexivity|]. split; [assumption|].
        split; [assumption|]. split; [cbn [Nat.mul]; remember (n * q)%nat as m; lia|].
        split; [apply Forall_TTL_hop; assumption|].
        exists [], hop, 0%nat. split; [reflexivity|]. split; [lia|].
        split; [reflexivity|]. split; [constructor|]. split; [assumption|].
        split; [eapply Forall_impl; [|exact HT]; cbn; intros; lia|].
        split; [apply existsb_true_Exists; symmetry; assumption|assumption].
      * rewrite wrap_small by (unfold Go.MinInt, Go.MaxInt in *; lia).
        destruct (IH fuel (TTL + 1) r1) as (st & r' & new & Hrun & HL' & Hlog' & Hlen' & Hbd & Hst);
          try assumption; try lia.
        exists st, r', (hop ++ new). split; [assumption|]. split; [assumption|].
        split; [rewrite Hlog', Hlog1, rev_app_distr, app_assoc; reflexivity|].
        split; [rewrite length_app; cbn [Nat.mul]; remember (n * q)%nat as m; lia|].
        split.
        { apply Forall_app. split; [apply Forall_TTL_hop; assumption|].
          eapply Forall_impl; [|exact Hbd]. cbn. intros; lia. }
        assert (Hno : Forall (fun p => yields_EchoReply p = false) hop)
          by (apply existsb_false_Forall; symmetry; assumption).
        assert (Hmap : map p_TTL hop = repeat TTL q)
          by (rewrite <- Hlen1; apply map_p_TTL_repeat; assumption).
        destruct st.
        -- destruct Hst as (earlier & last & k & -> & Hk & Hmap' & Hno' & Hlen & HTk & Hex & Hnp).
           exists (hop ++ earlier), last, (S k).
           split; [rewrite app_assoc; reflexivity|]. split; [lia|].
           split.
           { rewrite map_app, zrange_S, Hmap, Hmap'. reflexivity. }
           split; [apply Forall_app; split; assumption|].
           split; [assumption|].
           split; [eapply Forall_impl; [|exact HTk]; cbn; intros; lia|].
           split; [assumption|]. apply Forall_app. split; assumption.
        -- destruct Hst as (Hmap' & Hno' & Hnp).
           split; [rewrite map_app, zrange_S, Hmap, Hmap'; reflexivity|].
           split; apply Forall_app; split; assumption.
        -- apply Exists_app. right. assumption.
    + destruct Hspec as (HL1 & Hlog1 & Hlen1 & Hex).
      exists Crashed, r1, hop. split; [reflexivity|]. split; [assumption|].
      split; [assumption|]. split; [cbn [Nat.mul]; remember (n * q)%nat as m; lia|].
      split; [apply Forall_TTL_hop; assumption|assumption].
Qed.

End DriverFacts.

Lemma probes_of_log (r : Run) (new : list ProbeRecord) :
  log r = rev new ++ [] -> probes r = new.
Proof.
  intros H. unfold probes. rewrite H, app_nil_r. apply rev_involutive.
Qed.

(** Every run with a maximum TTL below [MaxInt] ends, and ends in one of
    three ways. *)
Lemma main_spec (processID : Z) (Marshal : icmp.Message -> result (list byte))
    (ParseMessage : list byte -> result icmp.Message)
    (queries wait maxTTL : Z) (dstAddr : Addr) (world : nat -> Script)
    (fuel : nat) :
  maxTTL < Go.MaxInt ->
  (Z.to_nat maxTTL < fuel)%nat ->
  exists (st : Status) (r : Run),
    main processID Marshal ParseMessage queries wait maxTTL dstAddr world fuel
      = Some (st, r) /\
    log_invariant processID Marshal ParseMessage wait dstAddr world r /\
    (length (probes r) <= Z.to_nat maxTTL * Z.to_nat queries)%nat /\
    Forall (fun p => 1 <= p_TTL p <= maxTTL) (probes r) /\
    match st with
    | Reached =>
        exists (earlier hop : list ProbeRecord) (k : nat),
          probes r = earlier ++ hop /\ (k < Z.to_nat maxTTL)%nat /\
          map p_TTL earlier =
            flat_map (fun h => repeat h (Z.to_nat queries)) (zrange 1 k) /\
          Forall (fun p => yields_EchoReply p = false) earlier /\
          length hop = Z.to_nat queries /\
          Forall (fun p => p_TTL p = 1 + Z.of_nat k) hop /\
          Exists (fun p => yields_EchoReply p = true) hop /\
          Forall (fun p => panicked p = false) (probes r)
    | Exhausted =>
        map p_TTL (probes r) =
          flat_map (fun h => repeat h (Z.to_nat queries))
            (zrange 1 (Z.to_nat maxTTL)) /\
        Forall (fun p => yields_EchoReply p = false) (probes r) /\
        Forall (fun p => panicked p = false) (probes r)
    | Crashed => Exists (fun p => panicked p = true) (probes r)
    end.
Proof.
  intros Hmax Hfuel. unfold main.
  destruct (ttl_loop_spec processID Marshal ParseMessage queries wait maxTTL
              dstAddr world (Z.to_nat maxTTL) fuel 1
              {| conn := mkConn None None []; probeCounter := 1; issued := 0;
                 log := []; output := [] |})
    as (st & r & new & Hrun & HL & Hlog & Hlen & Hbd & Hst).
  - f_equal. lia.
  - assumption.
  - unfold Go.MinInt. lia.
  - assumption.
  - repeat split; constructor.
  - reflexivity.
  - cbn [log] in Hlog. apply probes_of_log in Hlog.
    exists st, r. rewrite Hlog. repeat (split; [assumption|]). exact Hst.
Qed.

(** ** The TTL escalation *)

(** C6.  With a maximum TTL below [MaxInt] the run ends.  Every call of
    [probe] has a TTL between 1 and the maximum.  When every call returned
    to the driver, the run ends in exactly one of two ways: Reached, having
    probed the TTL values 1, 2, ..., k in increasing order ([-q] calls each),
    where k is the only TTL at which a call yielded an Echo Reply; or
    Exhausted, the normal return of [main], having probed 1, 2, ..., maxTTL
    without any Echo Reply. *)
Theorem ttl_escalation_terminal_states :
  forall (processID : Z) (Marshal : icmp.Message -> result (list byte))
         (ParseMessage : list byte -> result icmp.Message)
         (queries wait maxTTL : Z) (dstAddr : Addr) (world : nat -> Script)
         (fuel : nat),
    maxTTL < Go.MaxInt ->
    (Z.to_nat maxTTL < fuel)%nat ->
    exists (st : Status) (r : Run),
      main processID Marshal ParseMessage queries wait maxTTL dstAddr world fuel
        = Some (st, r) /\
      Forall (fun p => 1 <= p_TTL p <= maxTTL) (probes r) /\
      (Forall (fun p => p_result p <> Panics) (probes r) ->
       let hops := fun k : nat =>
         flat_map (fun h => repeat h (Z.to_nat queries)) (zrange 1 k) in
       (st = Reached /\
        exists k : nat,
          (0 < k <= Z.to_nat maxTTL)%nat /\
          map p_TTL (probes r) = hops k /\
          (exists p, In p (probes r) /\ p_TTL p = Z.of_nat k /\
                     yields_EchoReply p = true) /\
          (forall p, In p (probes r) -> yields_EchoReply p = true ->
                     p_TTL p = Z.of_nat k))
       \/
       (st = Exhausted /\
        map p_TTL (probes r) = hops (Z.to_nat maxTTL) /\
        (forall p, In p (probes r) -> yields_EchoReply p = false))).
Proof.
  intros processID Marshal ParseMessage queries wait maxTTL dstAddr world fuel
    Hmax Hfuel.
  destruct (main_spec processID Marshal ParseMessage queries wait maxTTL
              dstAddr world fuel Hmax Hfuel)
    as (st & r & Hrun & _ & _ & Hbd & Hst).
  exists st, r. split; [assumption|]. split; [assumption|].
  intros Hnp. cbv zeta. destruct st.
  - left. split; [reflexivity|].
    destruct Hst as (earlier & hop & k & Hsplit & Hk & Hmap & Hno & Hlen & HT & Hex & _).
    exists (S k). split; [lia|]. rewrite Hsplit. split; [|split].
    + rewrite map_app, Hmap, zrange_snoc, flat_map_app. f_equal.
      cbn [flat_map]. rewrite app_nil_r, <- Hlen.
      apply map_p_TTL_repeat. assumption.
    + apply Exists_exists in Hex. destruct Hex as (p & Hin & Hp).
      exists p. split; [apply in_or_app; right; assumption|].
      split; [|assumption].
      rewrite Forall_forall in HT. rewrite (HT p Hin). lia.
    + intros p Hin Hp. apply in_app_or in Hin. destruct Hin as [Hin|Hin].
      * rewrite Forall_forall in Hno. rewrite (Hno p Hin) in Hp. discriminate.
      * rewrite Forall_forall in HT. rewrite (HT p Hin). lia.
  - right. split; [reflexivity|].
    destruct Hst as (Hmap & Hno & _). split; [assumption|].
    apply Forall_forall. assumption.
  - exfalso. apply Exists_exists in Hst. destruct Hst as (p & Hin & Hp).
    rewrite Forall_forall in Hnp. specialize (Hnp p Hin).
    apply panicked_false in Hnp. congruence.
Qed.

Lemma ttl_escalation_terminal_states_witness :
  64 < Go.MaxInt /\ (Z.to_nat 64 < 65)%nat /\
  exists (st : Status) (r : Run),
    main Scenario.pid Scenario.Marshal Scenario.ParseMessage 3 5 64
      Scenario.dst Scenario.path3 65 = Some (st, r) /\
    Forall (fun p => 1 <= p_TTL p <= 64) (probes r).
Proof.
  split; [reflexivity|]. split; [vm_compute; lia|].
  destruct (ttl_escalation_terminal_states Scenario.pid Scenario.Marshal
              Scenario.ParseMessage 3 5 64 Scenario.dst Scenario.path3 65)
    as (st & r & Hrun & Hbd & _).
  - reflexivity.
  - vm_compute. lia.
  - exists st, r. split; assumption.
Defined.

(** The scenario of the specification, destination reached at hop 3: the
    run stops at TTL 3 after the three probes of that hop. *)
Example reached_at_hop_3 :
  option_map (fun sr => (fst sr, map p_TTL (probes (snd sr)),
                         map p_seqNum (probes (snd sr)),
                         map yields_EchoReply (probes (snd sr))))
    (main Scenario.pid Scenario.Marshal Scenario.ParseMessage 3 5 64
       Scenario.dst Scenario.path3 65)
  = Some (Reached, [1; 1; 1; 2; 2; 2; 3; 3; 3], [1; 2; 3; 4; 5; 6; 7; 8; 9],
          [false; false; false; false; false; false; true; true; true]).
Proof. vm_compute. reflexivity. Qed.

(** The scenario of the specification, maxTTL exhausted. *)
Example exhausted_after_5_hops :
  option_map (fun sr => (fst sr, map p_TTL (probes (snd sr)),
                         map p_seqNum (probes (snd sr))))
    (main Scenario.pid Scenario.Marshal Scenario.ParseMessage 3 5 5
       Scenario.dst (fun _ => Scenario.silent) 6)
  = Some (Exhausted, [1; 1; 1; 2; 2; 2; 3; 3; 3; 4; 4; 4; 5; 5; 5],
          [1; 2; 3; 4; 5; 6; 7; 8; 9; 10; 11; 12; 13; 14; 15]).
Proof. vm_compute. reflexivity. Qed.

(** C9.  When every call of [probe] returned to the driver and some call
    yielded an Echo Reply, the run ends Reached, and the calls of the run are
    those of the lower TTL values followed by the whole quota of [-q] calls
    at the TTL of that Echo Reply, the ones after it included: the run ends
    after the loop over the probes of that hop and issues nothing at a higher
    TTL. *)
Theorem reached_hop_completes_quota :
  forall (processID : Z) (Marshal : icmp.Message -> result (list byte))
         (ParseMessage : list byte -> result icmp.Message)
         (queries wait maxTTL : Z) (dstAddr : Addr) (world : nat -> Script)
         (fuel : nat),
    maxTTL < Go.MaxInt ->
    (Z.to_nat maxTTL < fuel)%nat ->
    exists (st : Status) (r : Run),
      main processID Marshal ParseMessage queries wait maxTTL dstAddr world fuel
        = Some (st, r) /\
      (Forall (fun p => p_result p <> Panics) (probes r) ->
       forall p, In p (probes r) -> yields_EchoReply p = true ->
         st = Reached /\
         exists earlier hop : list ProbeRecord,
           probes r = earlier ++ hop /\
           In p hop /\
           length hop = Z.to_nat queries /\
           Forall (fun p' => p_TTL p' = p_TTL p) hop /\
           Forall (fun p' => p_TTL p' < p_TTL p) earlier).
Proof.
  intros processID Marshal ParseMessage queries wait maxTTL dstAddr world fuel
    Hmax Hfuel.
  destruct (main_spec processID Marshal ParseMessage queries wait maxTTL
              dstAddr world fuel Hmax Hfuel)
    as (st & r & Hrun & _ & _ & _ & Hst).
  exists st, r. split; [assumption|].
  intros Hnp p Hin Hp. destruct st.
  - split; [reflexivity|].
    destruct Hst as (earlier & hop & k & Hsplit & Hk & Hmap & Hno & Hlen & HT & Hex & _).
    exists earlier, hop. split; [assumption|].
    rewrite Hsplit in Hin. apply in_app_or in Hin.
    rewrite Forall_forall in Hno, HT.
    destruct Hin as [Hin|Hin];
      [rewrite (Hno p Hin) in Hp; discriminate|].
    split; [assumption|]. split; [assumption|].
    rewrite (HT p Hin). split; [apply Forall_forall; assumption|].
    apply Forall_forall. intros p' Hin'.
    assert (Hr : In (p_TTL p') (zrange 1 k)).
    { apply (In_hops (Z.to_nat queries)). rewrite <- Hmap.
      apply in_map. assumption. }
    apply zrange_In in Hr. lia.
  - exfalso. destruct Hst as (_ & Hno & _). rewrite Forall_forall in Hno.
    rewrite (Hno p Hin) in Hp. discriminate.
  - exfalso. apply Exists_exists in Hst. destruct Hst as (p' & Hin' & Hp').
    rewrite Forall_forall in Hnp. specialize (Hnp p' Hin').
    apply panicked_false in Hnp. congruence.
Qed.

Lemma reached_hop_completes_quota_witness :
  64 < Go.MaxInt /\ (Z.to_nat 64 < 65)%nat /\
  exists (st : Status) (r : Run),
    main Scenario.pid Scenario.Marshal Scenario.ParseMessage 3 5 64
      Scenario.dst Scenario.path3 65 = Some (st, r) /\
    st = Reached /\
    exists earlier hop : list ProbeRecord,
      probes r = earlier ++ hop /\ length hop = 3%nat.
Proof.
  split; [reflexivity|]. split; [vm_compute; lia|].
  destruct (reached_hop_completes_quota Scenario.pid Scenario.Marshal
              Scenario.ParseMessage 3 5 64 Scenario.dst Scenario.path3 65)
    as (st & r & Hrun & H).
  - reflexivity.
  - vm_compute. lia.
  - exists st, r. split; [assumption|].
    assert (Hr : main Scenario.pid Scenario.Marshal Scenario.ParseMessage 3 5 64
                   Scenario.dst Scenario.path3 65 = Some (st, r)) by assumption.
    vm_compute in Hr. injection Hr as <- <-.
    destruct (H ltac:(repeat constructor; discriminate)
                (mkRecord 3 7
                   (Returns (mkReturn (Some Scenario.dst) 9000000 0 None))))
      as (Hst & earlier & hop & H1 & _ & H3 & _).
    + vm_compute. tauto.
    + reflexivity.
    + split; [reflexivity|]. exists earlier, hop. split; assumption.
Defined.

(** ** The sequence numbers of a run *)

(** On the wire the sequence number of a call is the counter cut to 16
    bits. *)
Lemma carried_sequence_spec (R : icmp.rest) (processID : Z) (p : ProbeRecord) :
  carried_sequence R processID p = Some (p_seqNum p mod 65536).
Proof.
  unfold carried_sequence. rewrite Marshal_echo_request. cbv zeta.
  unfold sequence_field, field16, icmp.Echo_Marshal, Go.BigEndian_PutUint16.
  cbn [app skipn].
  rewrite field_PutUint16; [reflexivity|].
  unfold Go.uint16. apply Z.mod_pos_bound. lia.
Qed.

Lemma nth_error_seq_lt (a n i : nat) :
  (i < n)%nat -> nth_error (seq a n) i = Some (a + i)%nat.
Proof.
  intros Hi. rewrite (nth_error_nth' _ 0%nat) by (rewrite length_seq; exact Hi).
  rewrite seq_nth by exact Hi. reflexivity.
Qed.

(** The call number [i] of a run was given the counter after [i]
    increments. *)
Lemma seqNum_of_call (processID : Z)
    (Marshal : icmp.Message -> result (list byte))
    (ParseMessage : list byte -> result icmp.Message)
    (wait : Z) (dstAddr : Addr) (world : nat -> Script) (r : Run)
    (i : nat) (p : ProbeRecord) :
  log_invariant processID Marshal ParseMessage wait dstAddr world r ->
  nth_error (probes r) i = Some p ->
  p_seqNum p = counter_at i.
Proof.
  intros (Hlen & Hseq & _) Hp.
  assert (Hi : (i < issued r)%nat).
  { rewrite Hlen, <- length_rev. apply nth_error_Some.
    unfold probes in Hp. rewrite Hp. discriminate. }
  assert (H : nth_error (map p_seqNum (probes r)) i = Some (p_seqNum p))
    by (rewrite nth_error_map, Hp; reflexivity).
  rewrite Hseq, nth_error_map, nth_error_seq_lt in H by exact Hi.
  cbn in H. injection H as H. symmetry. exact H.
Qed.

(** When nothing arrives the call returns the deadline error. *)
Lemma probe_silent (processID : Z) (R : icmp.rest)
    (ParseMessage : list byte -> result icmp.Message)
    (c : Conn) (dstAddr : Addr) (TTL seqNum waitTime : Z) :
  fst (probe processID (icmp.Marshal R) ParseMessage Scenario.silent c dstAddr
         TTL seqNum waitTime)
  = Returns (mkReturn None 0 0 (Some ErrDeadlineExceeded)).
Proof.
  unfold probe, SetReadDeadline. cbn [Scenario.silent setReadDeadlineErr].
  rewrite Marshal_echo_request. reflexivity.
Qed.

(** C5 (as stated, refuted).  In a run of one hop with 65537 probes, none
    of them answered, the first and the last Echo Request carry the same
    sequence number, 1: the sequence numbers carried by the probes of the
    run are not pairwise distinct. *)
Lemma sequence_numbers_collide :
  1 <= 65537 /\
  exists (st : Status) (r : Run),
    main Scenario.pid Scenario.Marshal Scenario.ParseMessage 65537 5 1
      Scenario.dst (fun _ => Scenario.silent) 2 = Some (st, r) /\
    length (probes r) = Z.to_nat 65537 /\
    (exists p0 p1,
       nth_error (probes r) 0 = Some p0 /\
       nth_error (probes r) (Z.to_nat 65536) = Some p1 /\
       p_seqNum p0 = 1 /\ p_seqNum p1 = 65537 /\
       carried_sequence Scenario.rest0 Scenario.pid p0 = Some 1 /\
       carried_sequence Scenario.rest0 Scenario.pid p1 = Some 1) /\
    ~ NoDup (map (carried_sequence Scenario.rest0 Scenario.pid) (probes r)).
Proof.
  split; [lia|].
  destruct (main_spec Scenario.pid Scenario.Marshal Scenario.ParseMessage
              65537 5 1 Scenario.dst (fun _ => Scenario.silent) 2)
    as (st & r & Hrun & HL & _ & _ & Hst).
  { reflexivity. }
  { change (Z.to_nat 1) with 1%nat. lia. }
  exists st, r. split; [assumption|].
  assert (Hquiet : forall p, In p (probes r) ->
            p_result p = Returns (mkReturn None 0 0 (Some ErrDeadlineExceeded))).
  { intros p Hin. destruct HL as (_ & _ & Hmade).
    rewrite Forall_forall in Hmade. unfold probes in Hin.
    apply in_rev in Hin. destruct (Hmade p Hin) as (i & c & Hres).
    rewrite Hres. apply probe_silent. }
  assert (Hlen : length (probes r) = Z.to_nat 65537).
  { destruct st.
    - exfalso.
      destruct Hst as (earlier & hop & k & Hsplit & _ & _ & _ & _ & _ & Hex & _).
      apply Exists_exists in Hex. destruct Hex as (p & Hin & Hp).
      assert (Hin' : In p (probes r))
        by (rewrite Hsplit; apply in_or_app; right; assumption).
      unfold yields_EchoReply, yields in Hp. rewrite (Hquiet p Hin') in Hp.
      discriminate.
    - destruct Hst as (Hmap & _).
      rewrite <- (length_map p_TTL), Hmap.
      change (Z.to_nat 1) with 1%nat. unfold zrange. cbn [seq map flat_map].
      rewrite app_nil_r. apply repeat_length.
    - exfalso. apply Exists_exists in Hst. destruct Hst as (p & Hin & Hp).
      unfold panicked in Hp. rewrite (Hquiet p Hin) in Hp. discriminate. }
  split; [assumption|].
  destruct (nth_error (probes r) 0) as [p0|] eqn:H0.
  2:{ apply nth_error_None in H0. lia. }
  destruct (nth_error (probes r) (Z.to_nat 65536)) as [p1|] eqn:H1.
  2:{ apply nth_error_None in H1. lia. }
  pose proof (seqNum_of_call _ _ _ _ _ _ _ _ _ HL H0) as Hs0.
  pose proof (seqNum_of_call _ _ _ _ _ _ _ _ _ HL H1) as Hs1.
  rewrite counter_at_small in Hs0, Hs1 by (unfold Go.MaxInt; lia).
  rewrite Z2Nat.id in Hs1 by lia.
  assert (Hc0 : carried_sequence Scenario.rest0 Scenario.pid p0 = Some 1)
    by (rewrite carried_sequence_spec, Hs0; reflexivity).
  assert (Hc1 : carried_sequence Scenario.rest0 Scenario.pid p1 = Some 1)
    by (rewrite carried_sequence_spec, Hs1; reflexivity).
  split.
  - exists p0, p1. repeat split; assumption.
  - intros Hnd. rewrite NoDup_nth_error in Hnd.
    specialize (Hnd 0%nat (Z.to_nat 65536)).
    rewrite !nth_error_map, H0, H1 in Hnd. cbn [option_map] in Hnd.
    rewrite Hc0, Hc1 in Hnd.
    assert (Hz : (0 = Z.to_nat 65536)%nat).
    { apply Hnd; [|reflexivity]. rewrite length_map, Hlen. lia. }
    lia.
Qed.

Lemma quota_bound (queries maxTTL : Z) :
  1 <= queries -> queries * maxTTL <= 65536 ->
  maxTTL <= 65536 /\
  Z.of_nat (Z.to_nat maxTTL * Z.to_nat queries) <= 65536.
Proof.
  intros Hq Hprod. split; [nia|].
  destruct (Z.le_gt_cases maxTTL 0) as [Hle|Hgt].
  - replace (Z.to_nat maxTTL) with 0%nat by lia. cbn. lia.
  - rewrite Nat2Z.inj_mul, !Z2Nat.id by lia. lia.
Qed.

(** C5 (amended).  In every run the counter starts at 1 and is
    incremented once per call of [probe], whatever the call returns, and
    never reset: the call number [i] is given the sequence number [i + 1].
    As long as the quota of the run, [-q] times [-m], is at most 65536
    calls, the sequence numbers given to the calls are pairwise distinct and
    so are the 16-bit sequence numbers that their Echo Requests carry. *)
Theorem sequence_numbers_distinct :
  forall (R : icmp.rest) (processID : Z)
         (ParseMessage : list byte -> result icmp.Message)
         (queries wait maxTTL : Z) (dstAddr : Addr) (world : nat -> Script)
         (fuel : nat),
    1 <= queries ->
    queries * maxTTL <= 65536 ->
    (Z.to_nat maxTTL < fuel)%nat ->
    exists (st : Status) (r : Run),
      main processID (icmp.Marshal R) ParseMessage queries wait maxTTL dstAddr
        world fuel = Some (st, r) /\
      map p_seqNum (probes r) = zrange 1 (length (probes r)) /\
      map (carried_sequence R processID) (probes r) =
        map (fun s => Some (s mod 65536)) (zrange 1 (length (probes r))) /\
      NoDup (map p_seqNum (probes r)) /\
      NoDup (map (carried_sequence R processID) (probes r)).
Proof.
  intros R processID ParseMessage queries wait maxTTL dstAddr world fuel
    Hq Hprod Hfuel.
  destruct (quota_bound queries maxTTL Hq Hprod) as [Hmax Hquota].
  destruct (main_spec processID (icmp.Marshal R) ParseMessage queries wait
              maxTTL dstAddr world fuel)
    as (st & r & Hrun & HL & Hlen & _ & _).
  { unfold Go.MaxInt. lia. }
  { assumption. }
  exists st, r. split; [assumption|].
  assert (Hseq : map p_seqNum (probes r) = zrange 1 (length (probes r))).
  { destruct HL as (Hiss & Hseq & _). rewrite Hseq.
    unfold probes. rewrite length_rev, <- Hiss. unfold zrange.
    apply map_ext_in. intros i Hi. apply in_seq in Hi.
    apply counter_at_small. unfold Go.MaxInt.
    unfold probes in Hlen. rewrite length_rev, <- Hiss in Hlen. lia. }
  assert (Hcar : map (carried_sequence R processID) (probes r) =
                 map (fun s => Some (s mod 65536)) (zrange 1 (length (probes r)))).
  { rewrite <- Hseq, map_map. apply map_ext. intros p.
    apply carried_sequence_spec. }
  split; [assumption|]. split; [assumption|]. split.
  - rewrite Hseq. unfold zrange. apply NoDup_map_NoDup_ForallPairs.
    + intros i j _ _ H. lia.
    + apply seq_NoDup.
  - rewrite Hcar. unfold zrange. rewrite map_map.
    apply NoDup_map_NoDup_ForallPairs.
    + intros i j Hi Hj H. apply in_seq in Hi, Hj. cbv beta in H.
      apply (f_equal (fun o => match o with Some v => v | None => 0 end)) in H.
      cbv beta iota in H.
      assert (Hi' : 0 <= Z.of_nat i < 65536) by lia.
      assert (Hj' : 0 <= Z.of_nat j < 65536) by lia.
      apply Nat2Z.inj. revert H Hi' Hj'.
      generalize (Z.of_nat i) (Z.of_nat j). intros x y H Hx Hy.
      Z.div_mod_to_equations. lia.
    + apply seq_NoDup.
Qed.

Lemma sequence_numbers_distinct_witness :
  1 <= 3 /\ 3 * 5 <= 65536 /\ (Z.to_nat 5 < 6)%nat /\
  exists (st : Status) (r : Run),
    main Scenario.pid (icmp.Marshal Scenario.rest0) Scenario.ParseMessage
      3 5 5 Scenario.dst (fun _ => Scenario.silent) 6 = Some (st, r) /\
    NoDup (map (carried_sequence Scenario.rest0 Scenario.pid) (probes r)).
Proof.
  split; [lia|]. split; [lia|]. split; [vm_compute; lia|].
  destruct (sequence_numbers_distinct Scenario.rest0 Scenario.pid
              Scenario.ParseMessage 3 5 5 Scenario.dst
              (fun _ => Scenario.silent) 6)
    as (st & r & Hrun & _ & _ & _ & Hnd).
  - lia.
  - lia.
  - vm_compute. lia.
  - exists st, r. split; assumption.
Defined.

(** * Further properties *)

(** ** What the wait loop accepts *)

Lemma check_packet_Accept (id seqNum : Z) (m : icmp.Message) (typ : Z) :
  check_packet id seqNum m = Accept typ <-> carries_identity id seqNum m typ.
Proof.
  unfold check_packet, carries_identity.
  destruct m as [ty code cksum body]. cbn [icmp.Type_ icmp.Body].
  destruct ty as [|t|t].
  - split; [discriminate|]. intros [(_ & H & _)|(_ & H & _)]; discriminate H.
  - destruct (Z.eqb_spec t icmp.ICMPTypeEchoReply) as [->|Hne0].
    + destruct body as [|ID Seq Data|Data exts|ty' Data].
      * split; [discriminate|].
        intros [(_ & _ & D & H)|(_ & H & _)]; discriminate H.
      * destruct (Z.eqb_spec ID id) as [->|Hid].
        -- destruct (Z.eqb_spec Seq seqNum) as [->|Hseq].
           ++ split.
              ** intros H. injection H as <-. left.
                 repeat split. exists Data. reflexivity.
              ** intros [(-> & _)|(_ & H & _)]; [reflexivity|discriminate H].
           ++ split; [discriminate|].
              intros [(_ & _ & D & H)|(_ & H & _)]; [|discriminate H].
              congruence.
        -- split; [discriminate|].
           intros [(_ & _ & D & H)|(_ & H & _)]; [|discriminate H].
           congruence.
      * split; [discriminate|].
        intros [(_ & _ & D & H)|(_ & H & _)]; discriminate H.
      * split; [discriminate|].
        intros [(_ & _ & D & H)|(_ & H & _)]; discriminate H.
    + destruct (Z.eqb_spec t icmp.ICMPTypeTimeExceeded) as [->|Hne11].
      * destruct body as [|ID Seq Data|Data exts|ty' Data].
        -- split; [discriminate|].
           intros [(_ & H & _)|(_ & _ & D & E & H & _)]; discriminate H.
        -- split; [discriminate|].
           intros [(_ & H & _)|(_ & _ & D & E & H & _)]; discriminate H.
        -- destruct (embeddedID Data) as [x|] eqn:HX.
           ++ destruct (Z.eqb_spec x id) as [->|Hid].
              ** destruct (embeddedSeq Data) as [y|] eqn:HY.
                 --- destruct (Z.eqb_spec y seqNum) as [->|Hseq].
                     +++ split.
                         *** intros H. injection H as <-. right.
                             repeat split. exists Data, exts.
                             repeat split; assumption.
                         *** intros [(_ & H & _)|(-> & _)];
                               [discriminate H|reflexivity].
                     +++ split; [discriminate|].
                         intros [(_ & H & _)|(_ & _ & D & E & H & _ & H2)];
                           [discriminate H|].
                         congruence.
                 --- split; [discriminate|].
                     intros [(_ & H & _)|(_ & _ & D & E & H & _ & H2)];
                       [discriminate H|].
                     congruence.
              ** split; [discriminate|].
                 intros [(_ & H & _)|(_ & _ & D & E & H & H1 & _)];
                   [discriminate H|].
                 congruence.
           ++ split; [discriminate|].
              intros [(_ & H & _)|(_ & _ & D & E & H & H1 & _)];
                [discriminate H|].
              congruence.
        -- split; [discriminate|].
           intros [(_ & H & _)|(_ & _ & D & E & H & _)]; discriminate H.
      * split; [discriminate|].
        intros [(_ & H & _)|(_ & H & _)]; congruence.
  - split; [discriminate|]. intros [(_ & H & _)|(_ & H & _)]; discriminate H.
Qed.

Lemma wait_loop_sound (processID : Z)
    (ParseMessage : list byte -> result icmp.Message)
    (startTime seqNum : Z) (lastErr : error) (ds : list Datagram)
    (ret : ProbeReturn) :
  wait_loop processID ParseMessage startTime seqNum lastErr ds = Returns ret ->
  err ret = None ->
  exists pre d post,
    ds = pre ++ d :: post /\
    Forall (fun d' => turn ParseMessage processID seqNum d' = Ignore) pre /\
    turn ParseMessage processID seqNum d = Accept (msgType ret) /\
    responderAddr ret = Some (dg_from d) /\
    elapsedTime ret = dg_at d - startTime.
Proof.
  induction ds as [|d ds IH]; intros Hw He.
  - cbn in Hw. injection Hw as <-. discriminate He.
  - rewrite wait_loop_cons in Hw.
    destruct (turn ParseMessage processID seqNum d) as [typ| |] eqn:Hd.
    + injection Hw as <-. exists [], d, ds. cbn.
      repeat split; try assumption. constructor.
    + destruct (IH Hw He) as (pre & d' & post & -> & Hpre & Hacc & Ha & Ht).
      exists (d :: pre), d', post. repeat split; try assumption.
      constructor; assumption.
    + discriminate Hw.
Qed.

(** X1.  A call of [probe] that returns a response returns the first
    datagram that parses to a response to its own request: every datagram
    read before it was passed over, the message carries the masked process
    identity and the sequence number of the call, the responder is the
    sender of that datagram and the elapsed time is measured at its read. *)
Theorem probe_returns_matching_reply :
  forall (processID : Z) (Marshal : icmp.Message -> result (list byte))
         (ParseMessage : list byte -> result icmp.Message)
         (sc : Script) (c : Conn) (dstAddr : Addr) (TTL seqNum waitTime : Z)
         (ret : ProbeReturn),
    fst (probe processID Marshal ParseMessage sc c dstAddr TTL seqNum waitTime)
      = Returns ret ->
    err ret = None ->
    exists pre d post m,
      inbound sc = pre ++ d :: post /\
      Forall (fun d' => turn ParseMessage processID seqNum d' = Ignore) pre /\
      ParseMessage (firstn 1500 (dg_bytes d)) = Ok m /\
      carries_identity (processIDKeep16 processID) seqNum m (msgType ret) /\
      responderAddr ret = Some (dg_from d) /\
      elapsedTime ret = dg_at d - clock_start sc.
Proof.
  intros processID Marshal ParseMessage sc c dstAddr TTL seqNum waitTime ret.
  unfold probe, SetReadDeadline.
  destruct (setReadDeadlineErr sc).
  { cbn. intros H; injection H as <-. discriminate. }
  destruct (Marshal _).
  2:{ cbn. intros H; injection H as <-. discriminate. }
  cbn [fst]. intros Hw He.
  destruct (wait_loop_sound _ _ _ _ _ _ _ Hw He)
    as (pre & d & post & Hin & Hpre & Hacc & Ha & Ht).
  unfold turn in Hacc.
  destruct (ParseMessage (firstn 1500 (dg_bytes d))) as [m|] eqn:Hm;
    [|discriminate].
  exists pre, d, post, m. repeat split; try assumption.
  apply check_packet_Accept. assumption.
Qed.

Lemma probe_returns_matching_reply_witness :
  exists pre d post m,
    inbound Scenario.foreign_then_awaited = pre ++ d :: post /\
    Scenario.ParseMessage (firstn 1500 (dg_bytes d)) = Ok m /\
    carries_identity (processIDKeep16 Scenario.pid) 7 m icmp.ICMPTypeEchoReply.
Proof.
  destruct (probe_returns_matching_reply Scenario.pid Scenario.Marshal
              Scenario.ParseMessage Scenario.foreign_then_awaited
              (mkConn None None []) Scenario.dst 1 7 5
              (mkReturn (Some Scenario.dst) 3000 icmp.ICMPTypeEchoReply None))
    as (pre & d & post & m & Hin & Hpre & Hm & Hc & _).
  - vm_compute. reflexivity.
  - reflexivity.
  - exists pre, d, post, m. repeat split; assumption.
Defined.

Lemma embedded_range (b : list byte) (x : Z) :
  Go.BigEndian_Uint16 b = Returns x -> 0 <= x < 65536.
Proof.
  destruct b as [|b0 [|b1 b]]; try discriminate.
  cbn [Go.BigEndian_Uint16]. intros H.
  assert (Hx : Z.lor (Go.u8 b1) (Z.shiftl (Go.u8 b0) 8) = x) by congruence.
  rewrite <- Hx, lor_shiftl_8 by apply u8_range.
  pose proof (u8_range b0). pose proof (u8_range b1). lia.
Qed.

Lemma embeddedID_range (Data : list byte) (x : Z) :
  embeddedID Data = Returns x -> 0 <= x < 65536.
Proof.
  unfold embeddedID. destruct (Go.slice Data _ _); [|discriminate].
  apply embedded_range.
Qed.

Lemma embeddedSeq_range (Data : list byte) (x : Z) :
  embeddedSeq Data = Returns x -> 0 <= x < 65536.
Proof.
  unfold embeddedSeq. destruct (Go.slice Data _ _); [|discriminate].
  apply embedded_range.
Qed.

Lemma slice2_returns (Data : list byte) (lo : nat) :
  (lo + 2 <= length Data)%nat ->
  exists b0 b1, Go.slice Data lo (lo + 2) = Returns [b0; b1].
Proof.
  intros H. unfold Go.slice.
  replace (lo <=? lo + 2)%nat with true by (symmetry; apply Nat.leb_le; lia).
  replace (lo + 2 <=? length Data)%nat with true
    by (symmetry; apply Nat.leb_le; lia).
  cbn [andb]. replace (lo + 2 - lo)%nat with 2%nat by lia.
  assert (Hl : (2 <= length (skipn lo Data))%nat) by (rewrite length_skipn; lia).
  destruct (skipn lo Data) as [|b0 [|b1 tl]]; cbn in Hl; try lia.
  exists b0, b1. reflexivity.
Qed.

Lemma embeddedID_Panics (Data : list byte) :
  embeddedID Data = Panics -> (length Data < 26)%nat.
Proof.
  intros H. destruct (Nat.lt_ge_cases (length Data) 26) as [Hlt|Hge];
    [assumption|exfalso].
  destruct (slice2_returns Data 24 Hge) as (b0 & b1 & Hs).
  unfold embeddedID in H.
  change (icmpEchoIDOffset + icmpEchoIDLen)%nat with (24 + 2)%nat in H.
  change icmpEchoIDOffset with 24%nat in H.
  rewrite Hs in H. discriminate H.
Qed.

Lemma embeddedSeq_Panics (Data : list byte) :
  embeddedSeq Data = Panics -> (length Data < 28)%nat.
Proof.
  intros H. destruct (Nat.lt_ge_cases (length Data) 28) as [Hlt|Hge];
    [assumption|exfalso].
  destruct (slice2_returns Data 26 Hge) as (b0 & b1 & Hs).
  unfold embeddedSeq in H.
  change (icmpEchoSeqOffset + icmpEchoSeqLen)%nat with (26 + 2)%nat in H.
  change icmpEchoSeqOffset with 26%nat in H.
  rewrite Hs in H. discriminate H.
Qed.

Ltac ok_inj H m :=
  apply (f_equal (fun r => match r with Ok x => x | Err _ => m end)) in H;
  cbv beta iota in H; subst m.

(** The bodies that package icmp gives to the two types the program looks
    at: an Echo body with 16-bit fields to an Echo Reply, a Time Exceeded
    body to a Time Exceeded message. *)
Lemma ParseMessage_bodies (R : icmp.rest) (b : list byte) (m : icmp.Message) :
  icmp.ParseMessage R b = Ok m ->
  exists t,
    icmp.Type_ m = icmp.ipv4_ICMPType t /\
    (t = icmp.ICMPTypeEchoReply ->
     exists ID Seq Data,
       icmp.Body m = icmp.Echo ID Seq Data /\
       0 <= ID < 65536 /\ 0 <= Seq < 65536) /\
    (t = icmp.ICMPTypeTimeExceeded ->
     exists Data exts, icmp.Body m = icmp.TimeExceeded Data exts).
Proof.
  unfold icmp.ParseMessage.
  destruct b as [|t [|c [|k1 [|k0 body]]]]; try discriminate.
  destruct ((Go.u8 t =? icmp.ICMPTypeEcho) || (Go.u8 t =? icmp.ICMPTypeEchoReply))
    eqn:Hecho.
  - unfold icmp.parseEcho.
    destruct body as [|i1 [|i0 [|s1 [|s0 data]]]]; try discriminate.
    intros H. ok_inj H m. exists (Go.u8 t). cbn [icmp.Type_ icmp.Body].
    split; [reflexivity|]. split.
    + intros _. eexists _, _, _. split; [reflexivity|].
      rewrite !lor_shiftl_8 by apply u8_range.
      pose proof (u8_range i1). pose proof (u8_range i0).
      pose proof (u8_range s1). pose proof (u8_range s0). lia.
    + intros Ht. rewrite Ht in Hecho. discriminate Hecho.
  - apply orb_false_iff in Hecho. destruct Hecho as [_ H0].
    destruct (Z.eqb_spec (Go.u8 t) icmp.ICMPTypeTimeExceeded) as [H11|H11].
    + unfold icmp.parseTimeExceeded.
      destruct (length body <? 4)%nat; [discriminate|].
      destruct (icmp.parseMultipartMessageBody R (Go.u8 t) body) as [data exts].
      intros H. ok_inj H m. exists (Go.u8 t). cbn [icmp.Type_ icmp.Body].
      split; [reflexivity|]. split.
      * intros Ht. rewrite Ht in H0. discriminate H0.
      * intros _. exists data, exts. reflexivity.
    + destruct (icmp.parseOtherBody R (Go.u8 t) body) as [mb|]; [|discriminate].
      intros H. ok_inj H m. exists (Go.u8 t). cbn [icmp.Type_ icmp.Body].
      split; [reflexivity|]. split.
      * intros Ht. rewrite Ht in H0. discriminate H0.
      * intros Ht. contradiction.
Qed.

(** With the parser of package icmp, a message stops the program only when
    it is a Time Exceeded message with fewer than 28 bytes of payload, and is
    accepted only for 16-bit identities. *)
Lemma check_parsed (R : icmp.rest) (b : list byte) (m : icmp.Message)
    (id seqNum : Z) :
  icmp.ParseMessage R b = Ok m ->
  match check_packet id seqNum m with
  | Accept _ => 0 <= id < 65536 /\ 0 <= seqNum < 65536
  | Ignore => True
  | Abort =>
      exists Data exts,
        icmp.Type_ m = icmp.ipv4_ICMPType icmp.ICMPTypeTimeExceeded /\
        icmp.Body m = icmp.TimeExceeded Data exts /\
        (length Data < 28)%nat
  end.
Proof.
  intros Hm. destruct (ParseMessage_bodies R b m Hm) as (t & Ht & Hecho & Hte).
  unfold check_packet. rewrite Ht.
  destruct (Z.eqb_spec t icmp.ICMPTypeEchoReply) as [H0|H0].
  - destruct (Hecho H0) as (ID & Seq & Data & Hb & HID & HSeq). rewrite Hb.
    destruct (Z.eqb_spec ID id) as [<-|]; [|exact I].
    destruct (Z.eqb_spec Seq seqNum) as [<-|]; [|exact I].
    split; assumption.
  - destruct (Z.eqb_spec t icmp.ICMPTypeTimeExceeded) as [H11|H11]; [|exact I].
    destruct (Hte H11) as (Data & exts & Hb). rewrite Hb.
    destruct (embeddedID Data) as [x|] eqn:HX.
    + destruct (Z.eqb_spec x id) as [<-|]; [|exact I].
      destruct (embeddedSeq Data) as [y|] eqn:HY.
      * destruct (Z.eqb_spec y seqNum) as [<-|]; [|exact I].
        split; [eapply embeddedID_range|eapply embeddedSeq_range]; eassumption.
      * exists Data, exts. subst t. repeat split.
        apply embeddedSeq_Panics. assumption.
    + exists Data, exts. subst t. repeat split.
      apply embeddedID_Panics in HX. lia.
Qed.

Lemma wait_loop_panics (processID : Z)
    (ParseMessage : list byte -> result icmp.Message)
    (startTime seqNum : Z) (lastErr : error) (ds : list Datagram) :
  wait_loop processID ParseMessage startTime seqNum lastErr ds = Panics ->
  exists d, In d ds /\ turn ParseMessage processID seqNum d = Abort.
Proof.
  induction ds as [|d ds IH]; intros Hw; [discriminate Hw|].
  rewrite wait_loop_cons in Hw.
  destruct (turn ParseMessage processID seqNum d) eqn:Hd.
  - discriminate Hw.
  - destruct (IH Hw) as (d' & Hin & Hd'). exists d'. split; [right|]; assumption.
  - exists d. split; [left; reflexivity|assumption].
Qed.

(** X2.  With the parser of package icmp, a call of [probe] stops the
    program only when one of the datagrams it read is a Time Exceeded message
    with fewer than 28 bytes of payload: no Echo Reply, no message of another
    type and no unparseable datagram does. *)
Theorem probe_panics_only_on_short_time_exceeded :
  forall (R : icmp.rest) (processID : Z)
         (Marshal : icmp.Message -> result (list byte))
         (sc : Script) (c : Conn) (dstAddr : Addr) (TTL seqNum waitTime : Z),
    fst (probe processID Marshal (icmp.ParseMessage R) sc c dstAddr TTL seqNum
           waitTime) = Panics ->
    exists d code cksum Data exts,
      In d (inbound sc) /\
      icmp.ParseMessage R (firstn 1500 (dg_bytes d)) =
        Ok (icmp.mkMessage (icmp.ipv4_ICMPType icmp.ICMPTypeTimeExceeded)
              code cksum (icmp.TimeExceeded Data exts)) /\
      (length Data < 28)%nat.
Proof.
  intros R processID Marshal sc c dstAddr TTL seqNum waitTime.
  unfold probe, SetReadDeadline.
  destruct (setReadDeadlineErr sc); [discriminate|].
  destruct (Marshal _); [|discriminate].
  cbn [fst]. intros Hw.
  destruct (wait_loop_panics _ _ _ _ _ _ Hw) as (d & Hin & Hd).
  unfold turn in Hd.
  destruct (icmp.ParseMessage R (firstn 1500 (dg_bytes d))) as [m|] eqn:Hm;
    [|discriminate].
  pose proof (check_parsed R _ m (processIDKeep16 processID) seqNum Hm) as Hc.
  rewrite Hd in Hc. destruct Hc as (Data & exts & Hty & Hb & Hlen).
  destruct m as [ty code cksum body]. cbn [icmp.Type_ icmp.Body] in Hty, Hb.
  subst ty body. exists d, code, cksum, Data, exts.
  repeat split; assumption.
Qed.

Lemma probe_panics_only_on_short_time_exceeded_witness :
  exists d Data,
    In d (inbound Scenario.bare_then_awaited) /\ (length Data < 28)%nat /\
    exists code cksum exts,
      Scenario.ParseMessage (firstn 1500 (dg_bytes d)) =
        Ok (icmp.mkMessage (icmp.ipv4_ICMPType icmp.ICMPTypeTimeExceeded)
              code cksum (icmp.TimeExceeded Data exts)).
Proof.
  destruct (probe_panics_only_on_short_time_exceeded Scenario.rest0
              Scenario.pid Scenario.Marshal Scenario.bare_then_awaited
              (mkConn None None []) Scenario.dst 1 7 5)
    as (d & code & cksum & Data & exts & Hin & Hm & Hlen).
  - vm_compute. reflexivity.
  - exists d, Data. split; [assumption|]. split; [assumption|].
    exists code, cksum, exts. assumption.
Defined.

(** X3.  With the parser of package icmp, a call of [probe] whose sequence
    number does not fit in 16 bits never returns a response, whatever
    arrives: the reply to its own request carries the number cut to 16
    bits and is passed over. *)
Theorem probe_beyond_16_bits_unanswered :
  forall (R : icmp.rest) (processID : Z)
         (Marshal : icmp.Message -> result (list byte))
         (sc : Script) (c : Conn) (dstAddr : Addr) (TTL seqNum waitTime : Z)
         (ret : ProbeReturn),
    ~ (0 <= seqNum < 65536) ->
    fst (probe processID Marshal (icmp.ParseMessage R) sc c dstAddr TTL seqNum
           waitTime) = Returns ret ->
    err ret <> None.
Proof.
  intros R processID Marshal sc c dstAddr TTL seqNum waitTime ret Hseq Hp He.
  destruct (probe_returns_matching_reply _ _ _ _ _ _ _ _ _ _ Hp He)
    as (pre & d & post & m & _ & _ & Hm & Hc & _).
  apply check_packet_Accept in Hc.
  pose proof (check_parsed R _ m (processIDKeep16 processID) seqNum Hm) as H.
  rewrite Hc in H. destruct H as [_ H]. contradiction.
Qed.

Lemma probe_beyond_16_bits_unanswered_witness :
  ~ (0 <= 65536 < 65536) /\
  sequence_field (Scenario.request Scenario.pid 65536) = Some 0 /\
  err (mkReturn None 0 0 (Some ErrDeadlineExceeded)) <> None.
Proof.
  split; [lia|]. split; [vm_compute; reflexivity|].
  apply (probe_beyond_16_bits_unanswered Scenario.rest0 Scenario.pid
           Scenario.Marshal
           (Scenario.arrive
              [mkDatagram
                 (Scenario.echo_reply (Scenario.request Scenario.pid 65536))
                 Scenario.dst 3000])
           (mkConn None None []) Scenario.dst 1 65536 5).
  - lia.
  - vm_compute. reflexivity.
Defined.

(** ** What a run keeps true from one call of [probe] to the next *)

Section RunInvariant.

Variable processID : Z.
Variable Marshal : icmp.Message -> result (list byte).
Variable ParseMessage : list byte -> result icmp.Message.
Variables queries wait maxTTL : Z.
Variable dstAddr : Addr.
Variable world : nat -> Script.

(** A property of the state of a run that the header of a hop keeps, and
    that a turn of the loop over the probes keeps: the call, its record and
    its line of the report. *)
Variable Inv : Run -> Prop.

Hypothesis Inv_hop : forall (TTL : Z) (r : Run), Inv r -> Inv (print (HopLine TTL) r).

Hypothesis Inv_turn :
  forall (r : Run) (TTL pc : Z),
    Inv r ->
    let called :=
      probe processID Marshal ParseMessage (world (issued r)) (conn r) dstAddr
        TTL (probeCounter r) wait in
    let rec := mkRecord TTL (probeCounter r) (fst called) in
    Inv {| conn := snd called; probeCounter := pc; issued := S (issued r);
           log := rec :: log r; output := report_line rec ++ output r |}.

Lemma queries_loop_keeps (n : nat) :
  forall (TTL : Z) (b : bool) (r : Run),
    Inv r ->
    match queries_loop processID Marshal ParseMessage wait dstAddr world n TTL b r
    with
    | Next _ r' => Inv r'
    | Crash r' => Inv r'
    end.
Proof.
  induction n as [|n IH]; intros TTL b r HI; [exact HI|].
  cbn [queries_loop].
  pose proof (Inv_turn r TTL (probeCounter r) HI) as Hpanic.
  pose proof (Inv_turn r TTL (Go.wrap (probeCounter r + 1)) HI) as Hret.
  pose proof (probe_returns processID Marshal ParseMessage (world (issued r))
                (conn r) dstAddr TTL (probeCounter r) wait) as Hshape.
  cbv zeta in Hpanic, Hret.
  destruct (probe processID Marshal ParseMessage (world (issued r)) (conn r)
              dstAddr TTL (probeCounter r) wait) as [res c].
  cbn [fst snd] in *. destruct res as [ret|].
  - specialize (Hshape ret eq_refl).
    unfold report_line in Hret. cbn [p_result] in Hret.
    destruct (err ret) as [e|].
    + apply IH. exact Hret.
    + destruct (Hshape eq_refl) as [Haddr Htyp].
      destruct (responderAddr ret) as [a|]; [|contradiction].
      destruct Htyp as [Htyp|Htyp]; rewrite Htyp.
      * change (icmp.ICMPTypeEchoReply =? icmp.ICMPTypeEchoReply) with true.
        cbv iota. apply IH. exact Hret.
      * change (icmp.ICMPTypeTimeExceeded =? icmp.ICMPTypeEchoReply) with false.
        change (icmp.ICMPTypeTimeExceeded =? icmp.ICMPTypeTimeExceeded) with true.
        cbv iota. apply IH. exact Hret.
  - exact Hpanic.
Qed.

Lemma ttl_loop_keeps (fuel : nat) :
  forall (TTL : Z) (r : Run) (st : Status) (r' : Run),
    Inv r ->
    ttl_loop processID Marshal ParseMessage queries wait maxTTL dstAddr world
      fuel TTL r = Some (st, r') ->
    Inv r'.
Proof.
  induction fuel as [|fuel IH]; intros TTL r st r' HI Hrun; [discriminate Hrun|].
  cbn [ttl_loop] in Hrun.
  destruct (TTL <=? maxTTL).
  - pose proof (queries_loop_keeps (Z.to_nat queries) TTL false
                  (print (HopLine TTL) r) (Inv_hop TTL r HI)) as Hq.
    destruct (queries_loop processID Marshal ParseMessage wait dstAddr world
                (Z.to_nat queries) TTL false (print (HopLine TTL) r))
      as [b r1|r1].
    + destruct b.
      * injection Hrun as _ <-. exact Hq.
      * eapply IH; eassumption.
    + injection Hrun as _ <-. exact Hq.
  - injection Hrun as _ <-. exact HI.
Qed.

End RunInvariant.

(** The socket after a call during which no operation but the reads
    failed. *)
Lemma probe_conn (R : icmp.rest) (processID : Z)
    (ParseMessage : list byte -> result icmp.Message)
    (sc : Script) (c : Conn) (dstAddr : Addr) (TTL seqNum waitTime : Z) :
  socket_ok sc ->
  snd (probe processID (icmp.Marshal R) ParseMessage sc c dstAddr TTL seqNum
         waitTime)
  = mkConn (Some (clock_deadline sc + Go.wrap (1000000000 * waitTime)))
      (Some TTL)
      (mkSent (echo_request_bytes R processID seqNum) dstAddr (Some TTL)
         :: sent c).
Proof.
  intros (Hd & Ht & Hw).
  unfold probe, SetReadDeadline, SetTTL, WriteTo, echo_request_bytes.
  rewrite Hd, Ht, Marshal_echo_request. cbn [snd writeToErr].
  rewrite Hw. reflexivity.
Qed.

(** X4.  In a run during which the socket accepts every deadline, TTL and
    write, the datagrams handed to the network are, in the order of the
    calls of [probe], one per call: the Echo Request with the sequence number
    of the call, addressed to the destination, sent while the TTL option of
    the socket is the TTL of the call; this holds for the calls that time
    out, fail to read or stop the program as well. *)
Theorem one_datagram_per_probe :
  forall (R : icmp.rest) (processID : Z)
         (ParseMessage : list byte -> result icmp.Message)
         (queries wait maxTTL : Z) (dstAddr : Addr) (world : nat -> Script)
         (fuel : nat) (st : Status) (r : Run),
    (forall i, socket_ok (world i)) ->
    main processID (icmp.Marshal R) ParseMessage queries wait maxTTL dstAddr
      world fuel = Some (st, r) ->
    rev (sent (conn r)) = map (datagram_of R processID dstAddr) (probes r).
Proof.
  intros R processID ParseMessage queries wait maxTTL dstAddr world fuel st r
    Hok Hrun.
  unfold probes. rewrite map_rev. f_equal.
  unfold main in Hrun.
  apply (ttl_loop_keeps processID (icmp.Marshal R) ParseMessage queries wait
           maxTTL dstAddr world
           (fun r => sent (conn r) = map (datagram_of R processID dstAddr) (log r)))
    in Hrun.
  - exact Hrun.
  - intros TTL r0 H. exact H.
  - intros r0 TTL pc H. cbv zeta. cbn [conn log].
    rewrite probe_conn by apply Hok. cbn [sent map]. rewrite H.
    reflexivity.
  - reflexivity.
Qed.

Lemma one_datagram_per_probe_witness :
  exists st r,
    main Scenario.pid (icmp.Marshal Scenario.rest0) Scenario.ParseMessage
      3 5 64 Scenario.dst Scenario.path3 65 = Some (st, r) /\
    length (sent (conn r)) = 9%nat /\
    rev (sent (conn r)) =
      map (datagram_of Scenario.rest0 Scenario.pid Scenario.dst) (probes r).
Proof.
  destruct (main Scenario.pid (icmp.Marshal Scenario.rest0)
              Scenario.ParseMessage 3 5 64 Scenario.dst Scenario.path3 65)
    as [[st r]|] eqn:Hrun; [|vm_compute in Hrun; discriminate Hrun].
  exists st, r. split; [reflexivity|]. split.
  - vm_compute in Hrun. injection Hrun as _ <-. reflexivity.
  - apply (one_datagram_per_probe Scenario.rest0 Scenario.pid
             Scenario.ParseMessage 3 5 64 Scenario.dst Scenario.path3 65 st r).
    + intros i. unfold Scenario.path3.
      destruct (i <? 6)%nat; repeat split.
    + exact Hrun.
Defined.

Lemma flat_map_rev_lines (l : list ProbeRecord) :
  flat_map report_line (rev l) = rev (flat_map report_line l).
Proof.
  induction l as [|p l IH]; [reflexivity|].
  cbn [rev flat_map]. rewrite flat_map_app, rev_app_distr, IH.
  cbn [flat_map]. rewrite app_nil_r. f_equal.
  unfold report_line. destruct (p_result p) as [ret|]; [|reflexivity].
  destruct (err ret), (responderAddr ret); reflexivity.
Qed.

Lemma report_line_not_hop (p : ProbeRecord) :
  filter (fun l => negb (is_HopLine l)) (report_line p) = report_line p.
Proof.
  unfold report_line. destruct (p_result p) as [ret|]; [|reflexivity].
  destruct (err ret), (responderAddr ret); reflexivity.
Qed.

(** X5.  In every run the report holds, between the headers of the hops
    and in the order of the calls of [probe], exactly one line per call that
    returned: a star for a call that returned an error (the deadline or any
    other), the responder and the elapsed time for a call that returned a
    response; a call that stopped the program leaves no line. *)
Theorem report_has_one_line_per_probe :
  forall (processID : Z) (Marshal : icmp.Message -> result (list byte))
         (ParseMessage : list byte -> result icmp.Message)
         (queries wait maxTTL : Z) (dstAddr : Addr) (world : nat -> Script)
         (fuel : nat) (st : Status) (r : Run),
    main processID Marshal ParseMessage queries wait maxTTL dstAddr world fuel
      = Some (st, r) ->
    filter (fun l => negb (is_HopLine l)) (rev (output r))
      = flat_map report_line (probes r).
Proof.
  intros processID Marshal ParseMessage queries wait maxTTL dstAddr world fuel
    st r Hrun.
  unfold probes. rewrite filter_rev, flat_map_rev_lines. f_equal.
  unfold main in Hrun.
  apply (ttl_loop_keeps processID Marshal ParseMessage queries wait
           maxTTL dstAddr world
           (fun r => filter (fun l => negb (is_HopLine l)) (output r)
                     = flat_map report_line (log r)))
    in Hrun.
  - exact Hrun.
  - intros TTL r0 H. exact H.
  - intros r0 TTL pc H. cbv zeta. cbn [output log flat_map].
    rewrite filter_app, report_line_not_hop, H. reflexivity.
  - reflexivity.
Qed.

Lemma report_has_one_line_per_probe_witness :
  exists st r,
    main Scenario.pid Scenario.Marshal Scenario.ParseMessage 3 5 3
      Scenario.dst Scenario1.lossy 4 = Some (st, r) /\
    flat_map report_line (probes r) =
      [ResponseLine (Scenario.router 1) 5000000;
       ResponseLine (Scenario.router 1) 5000000;
       ResponseLine (Scenario.router 1) 5000000;
       StarLine; StarLine; StarLine;
       ResponseLine Scenario.dst 9000000;
       ResponseLine Scenario.dst 9000000;
       ResponseLine Scenario.dst 9000000] /\
    filter (fun l => negb (is_HopLine l)) (rev (output r))
      = flat_map report_line (probes r).
Proof.
  destruct (main Scenario.pid Scenario.Marshal Scenario.ParseMessage 3 5 3
              Scenario.dst Scenario1.lossy 4)
    as [[st r]|] eqn:Hrun; [|vm_compute in Hrun; discriminate Hrun].
  exists st, r. split; [reflexivity|]. split.
  - vm_compute in Hrun. injection Hrun as _ <-. vm_compute. reflexivity.
  - apply (report_has_one_line_per_probe Scenario.pid Scenario.Marshal
             Scenario.ParseMessage 3 5 3 Scenario.dst Scenario1.lossy 4 st r).
    exact Hrun.
Defined.

(** ** The options of the socket *)

(** X6.  The error of [SetTTL] is dropped: when the TTL of a call cannot
    be set, the Echo Request is sent all the same, under the TTL option that
    the socket had before the call, and the call waits for its response as
    if nothing had happened. *)
Theorem ttl_error_discarded :
  forall (processID : Z) (Marshal : icmp.Message -> result (list byte))
         (ParseMessage : list byte -> result icmp.Message)
         (sc : Script) (c : Conn) (dstAddr : Addr) (TTL seqNum waitTime : Z)
         (e : error) (msgBytes : list byte),
    setReadDeadlineErr sc = None ->
    setTTLErr sc = Some e ->
    Marshal (echo_request processID seqNum) = Ok msgBytes ->
    writeToErr sc = None ->
    let called :=
      probe processID Marshal ParseMessage sc c dstAddr TTL seqNum waitTime in
    fst called =
      wait_loop processID ParseMessage (clock_start sc) seqNum (readErr sc)
        (inbound sc) /\
    TTL_option (snd called) = TTL_option c /\
    sent (snd called) = mkSent msgBytes dstAddr (TTL_option c) :: sent c.
Proof.
  intros processID Marshal ParseMessage sc c dstAddr TTL seqNum waitTime e
    msgBytes Hd Ht Hm Hw.
  cbv zeta. unfold probe, SetReadDeadline, SetTTL, WriteTo.
  rewrite Hd, Ht, Hm. cbn [snd]. rewrite Hw. cbn. repeat split.
Qed.

Lemma ttl_error_discarded_witness :
  sent (snd (probe Scenario.pid Scenario.Marshal Scenario.ParseMessage
               (mkScript 0 0 None (Some (ErrSocket 22)) None [] ErrDeadlineExceeded)
               (mkConn None (Some 255) []) Scenario.dst 256 7 5))
  = [mkSent (Scenario.request Scenario.pid 7) Scenario.dst (Some 255)].
Proof.
  destruct (ttl_error_discarded Scenario.pid Scenario.Marshal
              Scenario.ParseMessage
              (mkScript 0 0 None (Some (ErrSocket 22)) None [] ErrDeadlineExceeded)
              (mkConn None (Some 255) []) Scenario.dst 256 7 5 (ErrSocket 22)
              (Scenario.request Scenario.pid 7))
    as (_ & _ & H).
  - reflexivity.
  - reflexivity.
  - vm_compute. reflexivity.
  - reflexivity.
  - exact H.
Defined.

(** X7.  For a wait time of at most 9223372036 seconds (and at least
    minus that) the read deadline of a call is that many seconds after the
    clock; from 9223372037 to 18446744073 seconds the duration overflows and
    the deadline is set before the clock, so that the call cannot wait. *)
Theorem read_deadline_of_wait :
  forall (processID : Z) (Marshal : icmp.Message -> result (list byte))
         (ParseMessage : list byte -> result icmp.Message)
         (sc : Script) (c : Conn) (dstAddr : Addr) (TTL seqNum waitTime : Z)
         (msgBytes : list byte),
    setReadDeadlineErr sc = None ->
    Marshal (echo_request processID seqNum) = Ok msgBytes ->
    let c' :=
      snd (probe processID Marshal ParseMessage sc c dstAddr TTL seqNum
             waitTime) in
    (- 9223372036 <= waitTime <= 9223372036 ->
     readDeadline c' = Some (clock_deadline sc + 1000000000 * waitTime)) /\
    (9223372037 <= waitTime <= 18446744073 ->
     exists t, readDeadline c' = Some t /\ t < clock_deadline sc).
Proof.
  intros processID Marshal ParseMessage sc c dstAddr TTL seqNum waitTime
    msgBytes Hd Hm. cbv zeta.
  pose proof (probe_waits processID Marshal ParseMessage sc c dstAddr TTL
                seqNum waitTime msgBytes Hd Hm) as Hp.
  destruct (probe _ _ _ _ _ _ _ _ _) as [res c']. destruct Hp as [_ Hdl].
  cbn [snd]. rewrite Hdl. split.
  - intros Hw. rewrite wrap_small by (unfold Go.MinInt, Go.MaxInt; lia).
    reflexivity.
  - intros Hw. eexists. split; [reflexivity|].
    unfold Go.wrap. Z.div_mod_to_equations. lia.
Qed.

Lemma read_deadline_of_wait_witness :
  readDeadline
    (snd (probe Scenario.pid Scenario.Marshal Scenario.ParseMessage
            Scenario.silent (mkConn None None []) Scenario.dst 1 7 5))
  = Some 5000000000.
Proof.
  destruct (read_deadline_of_wait Scenario.pid Scenario.Marshal
              Scenario.ParseMessage Scenario.silent (mkConn None None [])
              Scenario.dst 1 7 5 (Scenario.request Scenario.pid 7))
    as [H _].
  - reflexivity.
  - vm_compute. reflexivity.
  - apply H. lia.
Defined.

(** ** The version with one probe per hop *)

Section OneProbePerHopFacts.

Variable Getpid : Z.
Variable Marshal : icmp.Message -> result (list byte).
Variable ParseMessage : list byte -> result icmp.Message.

Lemma wait_loop1_cons (startTime seqNum : Z) (lastErr : error)
    (d : Datagram) (ds : list Datagram) :
  wait_loop1 Getpid ParseMessage startTime seqNum lastErr (d :: ds) =
  match turn1 ParseMessage Getpid seqNum d with
  | Accept typ =>
      Returns (mkReturn (Some (dg_from d)) (dg_at d - startTime) typ None)
  | Ignore => wait_loop1 Getpid ParseMessage startTime seqNum lastErr ds
  | Abort => Panics
  end.
Proof.
  unfold turn1. cbn [wait_loop1].
  destruct (ParseMessage (firstn 1500 (dg_bytes d))); reflexivity.
Qed.

Lemma wait_loop1_sound (startTime seqNum : Z) (lastErr : error)
    (ds : list Datagram) (ret : ProbeReturn) :
  wait_loop1 Getpid ParseMessage startTime seqNum lastErr ds = Returns ret ->
  err ret = None ->
  exists d,
    In d ds /\
    turn1 ParseMessage Getpid seqNum d = Accept (msgType ret) /\
    responderAddr ret = Some (dg_from d).
Proof.
  induction ds as [|d ds IH]; intros Hw He.
  - cbn in Hw. injection Hw as <-. discriminate He.
  - rewrite wait_loop1_cons in Hw.
    destruct (turn1 ParseMessage Getpid seqNum d) as [typ| |] eqn:Hd.
    + injection Hw as <-. exists d. cbn.
      split; [left; reflexivity|]. split; [assumption|reflexivity].
    + destruct (IH Hw He) as (d' & Hin & Hacc & Ha).
      exists d'. split; [right; assumption|]. split; assumption.
    + discriminate Hw.
Qed.

Lemma probe1_sound (sc : Script) (c : Conn) (dstAddr : Addr) (TTL seqNum : Z)
    (ret : ProbeReturn) :
  fst (probe1 Getpid Marshal ParseMessage sc c dstAddr TTL seqNum) = Returns ret ->
  err ret = None ->
  exists d,
    In d (inbound sc) /\
    turn1 ParseMessage Getpid seqNum d = Accept (msgType ret) /\
    responderAddr ret = Some (dg_from d).
Proof.
  unfold probe1, SetReadDeadline.
  destruct (setReadDeadlineErr sc).
  { cbn. intros H; injection H as <-. discriminate. }
  destruct (Marshal _).
  2:{ cbn. intros H; injection H as <-. discriminate. }
  cbn [fst]. apply wait_loop1_sound.
Qed.

Lemma probe1_returns (sc : Script) (c : Conn) (dstAddr : Addr) (TTL seqNum : Z)
    (ret : ProbeReturn) :
  fst (probe1 Getpid Marshal ParseMessage sc c dstAddr TTL seqNum) = Returns ret ->
  err ret = None ->
  responderAddr ret <> None /\
  (msgType ret = icmp.ICMPTypeEchoReply \/
   msgType ret = icmp.ICMPTypeTimeExceeded).
Proof.
  intros Hp He. destruct (probe1_sound _ _ _ _ _ _ Hp He) as (d & _ & Hacc & Ha).
  split; [rewrite Ha; discriminate|].
  unfold turn1 in Hacc.
  destruct (ParseMessage (firstn 1500 (dg_bytes d))) as [m|]; [|discriminate].
  apply check_packet_Accept in Hacc.
  destruct Hacc as [(H & _)|(H & _)]; [left|right]; exact H.
Qed.

Variable dstAddr : Addr.
Variable world : nat -> Script.

Local Notation "'escalate1'" :=
  (ttl_loop1 Getpid Marshal ParseMessage dstAddr world).
Local Notation "'made1'" :=
  (fun p : ProbeRecord =>
     exists (i : nat) (c : Conn),
       p_result p =
       fst (probe1 Getpid Marshal ParseMessage (world i) c dstAddr
              (p_TTL p) (p_seqNum p))).
Local Notation "'quiet'" :=
  (fun p : ProbeRecord => yields_EchoReply p = false /\ panicked p = false).

(** The loop over the TTL values of this version, from [TTL] with [n]
    values left. *)
Lemma ttl_loop1_spec (n : nat) :
  forall (fuel : nat) (TTL : Z) (r : Run1),
    n = Z.to_nat (65 - TTL) -> 1 <= TTL -> (n < fuel)%nat ->
    exists (st : Status) (r' : Run1) (new : list ProbeRecord),
      escalate1 fuel TTL r = Some (st, r') /\
      log1 r' = rev new ++ log1 r /\
      map p_TTL new = zrange TTL (length new) /\
      map p_seqNum new = zrange TTL (length new) /\
      (length new <= n)%nat /\
      Forall made1 new /\
      match st with
      | Reached =>
          exists earlier last,
            new = earlier ++ [last] /\ yields_EchoReply last = true /\
            Forall quiet earlier
      | Exhausted => length new = n /\ Forall quiet new
      | Crashed =>
          exists earlier last,
            new = earlier ++ [last] /\ panicked last = true /\
            Forall quiet earlier
      end.
Proof.
  induction n as [|n IH]; intros fuel TTL r Hn Hmin Hfuel.
  - destruct fuel as [|fuel]; [lia|]. cbn [ttl_loop1].
    destruct (Z.leb_spec TTL maxTTL1) as [Hle|Hgt];
      [unfold maxTTL1 in Hle; lia|].
    exists Exhausted, r, []. repeat split; try reflexivity; constructor.
  - destruct fuel as [|fuel]; [lia|]. cbn [ttl_loop1].
    destruct (Z.leb_spec TTL maxTTL1) as [Hle|Hgt];
      [unfold maxTTL1 in Hle|unfold maxTTL1 in Hgt; lia].
    pose proof (probe1_returns (world (issued1 r)) (conn1 r) dstAddr TTL TTL)
      as Hshape.
    assert (Hmade : forall res,
              res = fst (probe1 Getpid Marshal ParseMessage (world (issued1 r))
                           (conn1 r) dstAddr TTL TTL) ->
              made1 (mkRecord TTL TTL res)).
    { intros res ->. exists (issued1 r), (conn1 r). reflexivity. }
    destruct (probe1 Getpid Marshal ParseMessage (world (issued1 r)) (conn1 r)
                dstAddr TTL TTL) as [res c].
    cbn [fst] in Hshape, Hmade. specialize (Hmade res eq_refl).
    set (rec := mkRecord TTL TTL res) in *.
    assert (Hnext : forall l : list Line1,
              exists (st : Status) (r' : Run1) (new : list ProbeRecord),
                escalate1 fuel (Go.wrap (TTL + 1))
                  {| conn1 := c; issued1 := S (issued1 r);
                     log1 := rec :: log1 r; output1 := l |} = Some (st, r') /\
                log1 r' = rev new ++ rec :: log1 r /\
                map p_TTL new = zrange (TTL + 1) (length new) /\
                map p_seqNum new = zrange (TTL + 1) (length new) /\
                (length new <= n)%nat /\
                Forall made1 new /\
                match st with
                | Reached =>
                    exists earlier last,
                      new = earlier ++ [last] /\ yields_EchoReply last = true /\
                      Forall quiet earlier
                | Exhausted => length new = n /\ Forall quiet new
                | Crashed =>
                    exists earlier last,
                      new = earlier ++ [last] /\ panicked last = true /\
                      Forall quiet earlier
                end).
    { intros l. rewrite wrap_small by (unfold Go.MinInt, Go.MaxInt; lia).
      apply (IH fuel (TTL + 1)
               {| conn1 := c; issued1 := S (issued1 r);
                  log1 := rec :: log1 r; output1 := l |}); lia. }
    assert (Hcont : quiet rec ->
              forall (st : Status) (r' : Run1) (new : list ProbeRecord),
                log1 r' = rev new ++ rec :: log1 r ->
                map p_TTL new = zrange (TTL + 1) (length new) ->
                map p_seqNum new = zrange (TTL + 1) (length new) ->
                (length new <= n)%nat ->
                Forall made1 new ->
                match st with
                | Reached =>
                    exists earlier last,
                      new = earlier ++ [last] /\ yields_EchoReply last = true /\
                      Forall quiet earlier
                | Exhausted => length new = n /\ Forall quiet new
                | Crashed =>
                    exists earlier last,
                      new = earlier ++ [last] /\ panicked last = true /\
                      Forall quiet earlier
                end ->
                log1 r' = rev (rec :: new) ++ log1 r /\
                map p_TTL (rec :: new) = zrange TTL (length (rec :: new)) /\
                map p_seqNum (rec :: new) = zrange TTL (length (rec :: new)) /\
                (length (rec :: new) <= S n)%nat /\
                Forall made1 (rec :: new) /\
                match st with
                | Reached =>
                    exists earlier last,
                      rec :: new = earlier ++ [last] /\
                      yields_EchoReply last = true /\ Forall quiet earlier
                | Exhausted => length (rec :: new) = S n /\ Forall quiet (rec :: new)
                | Crashed =>
                    exists earlier last,
                      rec :: new = earlier ++ [last] /\
                      panicked last = true /\ Forall quiet earlier
                end).
    { intros Hq st r' new Hlog HT HS Hlen Hm Hst.
      split; [rewrite Hlog; cbn [rev]; rewrite <- app_assoc; reflexivity|].
      split; [cbn [map length]; rewrite zrange_S, HT; reflexivity|].
      split; [cbn [map length]; rewrite zrange_S, HS; reflexivity|].
      split; [cbn [length]; lia|].
      split; [constructor; assumption|].
      destruct st.
      - destruct Hst as (earlier & last & -> & Hy & Hqs).
        exists (rec :: earlier), last. split; [reflexivity|].
        split; [assumption|constructor; assumption].
      - destruct Hst as [Hl Hqs]. split; [cbn [length]; lia|].
        constructor; assumption.
      - destruct Hst as (earlier & last & -> & Hy & Hqs).
        exists (rec :: earlier), last. split; [reflexivity|].
        split; [assumption|constructor; assumption]. }
    assert (Hstop : forall (st : Status) (r' : Run1),
              log1 r' = rec :: log1 r ->
              match st with
              | Reached => yields_EchoReply rec = true
              | Exhausted => False
              | Crashed => panicked rec = true
              end ->
              log1 r' = rev [rec] ++ log1 r /\
              map p_TTL [rec] = zrange TTL (length [rec]) /\
              map p_seqNum [rec] = zrange TTL (length [rec]) /\
              (length [rec] <= S n)%nat /\
              Forall made1 [rec] /\
              match st with
              | Reached =>
                  exists earlier last,
                    [rec] = earlier ++ [last] /\
                    yields_EchoReply last = true /\ Forall quiet earlier
              | Exhausted => length [rec] = S n /\ Forall quiet [rec]
              | Crashed =>
                  exists earlier last,
                    [rec] = earlier ++ [last] /\
                    panicked last = true /\ Forall quiet earlier
              end).
    { intros st r' Hlog Hst.
      split; [assumption|].
      split; [cbn; f_equal; lia|]. split; [cbn; f_equal; lia|].
      split; [cbn [length]; lia|].
      split; [constructor; [assumption|constructor]|].
      destruct st; [|contradiction|];
        exists [], rec; (split; [reflexivity|]); (split; [assumption|constructor]). }
    destruct res as [ret|].
    + specialize (Hshape ret eq_refl).
      destruct (err ret) as [e|] eqn:He.
      * destruct (Hnext (StarLine1 TTL :: output1 r))
          as (st & r' & new & Hrun & Hlog & HT & HS & Hlen & Hm & Hst).
        exists st, r', (rec :: new). split; [exact Hrun|].
        apply Hcont; try assumption.
        unfold yields_EchoReply, yields, panicked, rec. cbn [p_result].
        rewrite He. split; reflexivity.
      * destruct (Hshape eq_refl) as [Haddr Htyp].
        destruct (responderAddr ret) as [a|]; [|contradiction].
        destruct Htyp as [Htyp|Htyp]; rewrite Htyp.
        -- change (icmp.ICMPTypeEchoReply =? icmp.ICMPTypeEchoReply) with true.
           cbv iota. eexists Reached, _, [rec]. split; [reflexivity|].
           apply (Hstop Reached); [reflexivity|].
           unfold yields_EchoReply, yields, rec. cbn [p_result].
           rewrite He, Htyp. reflexivity.
        -- change (icmp.ICMPTypeTimeExceeded =? icmp.ICMPTypeEchoReply) with false.
           change (icmp.ICMPTypeTimeExceeded =? icmp.ICMPTypeTimeExceeded) with true.
           cbv iota.
           destruct (Hnext (ResponseLine1 TTL a (elapsedTime ret) :: output1 r))
             as (st & r' & new & Hrun & Hlog & HT & HS & Hlen & Hm & Hst).
           exists st, r', (rec :: new). split; [exact Hrun|].
           apply Hcont; try assumption.
           unfold yields_EchoReply, yields, panicked, rec. cbn [p_result].
           rewrite He, Htyp. split; reflexivity.
    + eexists Crashed, _, [rec]. split; [reflexivity|].
      apply (Hstop Crashed); reflexivity.
Qed.

End OneProbePerHopFacts.

Lemma main1_spec (Getpid : Z) (Marshal : icmp.Message -> result (list byte))
    (ParseMessage : list byte -> result icmp.Message)
    (dstAddr : Addr) (world : nat -> Script) :
  exists (st : Status) (r : Run1),
    main1 Getpid Marshal ParseMessage dstAddr world = Some (st, r) /\
    map p_TTL (probes1 r) = zrange 1 (length (probes1 r)) /\
    map p_seqNum (probes1 r) = zrange 1 (length (probes1 r)) /\
    (length (probes1 r) <= 64)%nat /\
    Forall (fun p =>
              exists (i : nat) (c : Conn),
                p_result p =
                fst (probe1 Getpid Marshal ParseMessage (world i) c dstAddr
                       (p_TTL p) (p_seqNum p)))
      (probes1 r) /\
    match st with
    | Reached =>
        exists earlier last,
          probes1 r = earlier ++ [last] /\ yields_EchoReply last = true /\
          Forall (fun p => yields_EchoReply p = false /\ panicked p = false)
            earlier
    | Exhausted =>
        length (probes1 r) = 64%nat /\
        Forall (fun p => yields_EchoReply p = false /\ panicked p = false)
          (probes1 r)
    | Crashed =>
        exists earlier last,
          probes1 r = earlier ++ [last] /\ panicked last = true /\
          Forall (fun p => yields_EchoReply p = false /\ panicked p = false)
            earlier
    end.
Proof.
  destruct (ttl_loop1_spec Getpid Marshal ParseMessage dstAddr world 64 65 1
              {| conn1 := mkConn None None []; issued1 := 0; log1 := [];
                 output1 := [] |})
    as (st & r & new & Hrun & Hlog & HT & HS & Hlen & Hm & Hst);
    [reflexivity|lia|lia|].
  cbn [log1] in Hlog.
  assert (Hp : probes1 r = new).
  { unfold probes1. rewrite Hlog, app_nil_r. apply rev_involutive. }
  exists st, r. rewrite Hp. split; [exact Hrun|].
  repeat (split; [assumption|]). exact Hst.
Qed.

(** X8.  Every run of the version with one probe per hop ends.  It calls
    [probe] once per TTL, for the TTL values 1, 2, ... in order and at most
    64 times, and gives each call its TTL as sequence number.  It ends
    Reached on the first call that yields an Echo Reply, which is its last
    call; Exhausted after 64 calls without an Echo Reply; and otherwise with
    the run-time panic of its last call. *)
Theorem one_probe_per_hop_run :
  forall (Getpid : Z) (Marshal : icmp.Message -> result (list byte))
         (ParseMessage : list byte -> result icmp.Message)
         (dstAddr : Addr) (world : nat -> Script),
    exists (st : Status) (r : Run1),
      main1 Getpid Marshal ParseMessage dstAddr world = Some (st, r) /\
      map p_TTL (probes1 r) = zrange 1 (length (probes1 r)) /\
      map p_seqNum (probes1 r) = map p_TTL (probes1 r) /\
      (length (probes1 r) <= 64)%nat /\
      match st with
      | Reached =>
          exists earlier last,
            probes1 r = earlier ++ [last] /\ yields_EchoReply last = true /\
            Forall (fun p => yields_EchoReply p = false /\ panicked p = false)
              earlier
      | Exhausted =>
          length (probes1 r) = 64%nat /\
          Forall (fun p => yields_EchoReply p = false /\ panicked p = false)
            (probes1 r)
      | Crashed =>
          exists earlier last,
            probes1 r = earlier ++ [last] /\ panicked last = true /\
            Forall (fun p => yields_EchoReply p = false /\ panicked p = false)
              earlier
      end.
Proof.
  intros Getpid Marshal ParseMessage dstAddr world.
  destruct (main1_spec Getpid Marshal ParseMessage dstAddr world)
    as (st & r & Hrun & HT & HS & Hlen & _ & Hst).
  exists st, r. split; [exact Hrun|]. split; [exact HT|].
  split; [rewrite HS, HT; reflexivity|]. split; assumption.
Qed.

(** The destination three hops away is reached by the third call of this
    version, which is the last one. *)
Example one_probe_per_hop_reached_at_hop_3 :
  option_map (fun sr => (fst sr, map p_TTL (probes1 (snd sr)),
                         map p_seqNum (probes1 (snd sr)),
                         rev (output1 (snd sr))))
    (main1 Scenario1.pid Scenario.Marshal Scenario.ParseMessage Scenario.dst
       Scenario1.path3)
  = Some (Reached, [1; 2; 3], [1; 2; 3],
          [ResponseLine1 1 (Scenario.router 1) 5000000;
           ResponseLine1 2 (Scenario.router 2) 5000000;
           ResponseLine1 3 Scenario.dst 9000000]).
Proof. vm_compute. reflexivity. Qed.

(** X9.  In the version with one probe per hop the process identity is
    not masked: with the parser of package icmp, when [os.Getpid()] does not
    fit in 16 bits no call of [probe] ever returns a response, whatever
    arrives, and no run ends Reached. *)
Theorem unmasked_pid_never_answered :
  forall (R : icmp.rest) (Getpid : Z)
         (Marshal : icmp.Message -> result (list byte))
         (dstAddr : Addr) (world : nat -> Script),
    ~ (0 <= Getpid < 65536) ->
    exists (st : Status) (r : Run1),
      main1 Getpid Marshal (icmp.ParseMessage R) dstAddr world = Some (st, r) /\
      st <> Reached /\
      forall p, In p (probes1 r) ->
        forall ret, p_result p = Returns ret -> err ret <> None.
Proof.
  intros R Getpid Marshal dstAddr world Hpid.
  destruct (main1_spec Getpid Marshal (icmp.ParseMessage R) dstAddr world)
    as (st & r & Hrun & _ & _ & _ & Hmade & Hst).
  assert (Hall : forall p, In p (probes1 r) ->
                   forall ret, p_result p = Returns ret -> err ret <> None).
  { intros p Hin ret Hret He.
    rewrite Forall_forall in Hmade. destruct (Hmade p Hin) as (i & c & Hres).
    rewrite Hret in Hres. symmetry in Hres.
    destruct (probe1_sound _ _ _ _ _ _ _ _ _ Hres He) as (d & _ & Hacc & _).
    unfold turn1 in Hacc.
    destruct (icmp.ParseMessage R (firstn 1500 (dg_bytes d))) as [m|] eqn:Hm;
      [|discriminate].
    pose proof (check_parsed R _ m Getpid (p_seqNum p) Hm) as H.
    rewrite Hacc in H. destruct H as [H _]. contradiction. }
  exists st, r. split; [exact Hrun|]. split; [|exact Hall].
  intros ->. destruct Hst as (earlier & last & Hsplit & Hy & _).
  assert (Hin : In last (probes1 r))
    by (rewrite Hsplit; apply in_or_app; right; left; reflexivity).
  unfold yields_EchoReply, yields in Hy.
  destruct (p_result last) as [ret|] eqn:Hret; [|discriminate].
  destruct (err ret) eqn:He; [discriminate|].
  exact (Hall last Hin ret Hret He).
Qed.

Lemma unmasked_pid_never_answered_witness :
  ~ (0 <= Scenario.pid < 65536) /\
  option_map (fun sr => (fst sr, length (probes1 (snd sr))))
    (main1 Scenario.pid Scenario.Marshal Scenario.ParseMessage Scenario.dst
       (fun i => Scenario.arrive
                   [mkDatagram
                      (Scenario.echo_reply
                         (Scenario.request Scenario.pid (Z.of_nat i + 1)))
                      Scenario.dst 9000000]))
  = Some (Exhausted, 64%nat).
Proof.
  split; [unfold Scenario.pid; lia|].
  destruct (unmasked_pid_never_answered Scenario.rest0 Scenario.pid
              Scenario.Marshal Scenario.dst
              (fun i => Scenario.arrive
                          [mkDatagram
                             (Scenario.echo_reply
                                (Scenario.request Scenario.pid (Z.of_nat i + 1)))
                             Scenario.dst 9000000]))
    as (st & r & Hrun & Hst & _).
  - unfold Scenario.pid. lia.
  - vm_compute. reflexivity.
Defined.

(** ** The version without a maximum TTL *)

Lemma check_packet0_Accept (Getpid : Z) (m : icmp.Message) (typ : Z) :
  check_packet0 Getpid m = Accept typ ->
  (typ = icmp.ICMPTypeEchoReply /\
   icmp.Type_ m = icmp.ipv4_ICMPType icmp.ICMPTypeEchoReply /\
   exists Seq Data, icmp.Body m = icmp.Echo Getpid Seq Data)
  \/
  (typ = icmp.ICMPTypeTimeExceeded /\
   icmp.Type_ m = icmp.ipv4_ICMPType icmp.ICMPTypeTimeExceeded /\
   exists Data exts,
     icmp.Body m = icmp.TimeExceeded Data exts /\
     embeddedID Data = Returns Getpid).
Proof.
  unfold check_packet0. destruct m as [ty code cksum body].
  cbn [icmp.Type_ icmp.Body]. destruct ty as [|t|t]; try discriminate.
  destruct (Z.eqb_spec t icmp.ICMPTypeEchoReply) as [->|H0].
  - destruct body as [|ID Seq Data|Data exts|ty' Data]; try discriminate.
    destruct (Z.eqb_spec ID Getpid) as [->|]; [|discriminate].
    intros H. left. split; [congruence|]. split; [reflexivity|].
    exists Seq, Data. reflexivity.
  - destruct (Z.eqb_spec t icmp.ICMPTypeTimeExceeded) as [->|H11];
      [|discriminate].
    destruct body as [|ID Seq Data|Data exts|ty' Data]; try discriminate.
    destruct (embeddedID Data) as [x|] eqn:HX; [|discriminate].
    destruct (Z.eqb_spec x Getpid) as [->|]; [|discriminate].
    intros H. right. split; [congruence|]. split; [reflexivity|].
    exists Data, exts. split; [reflexivity|assumption].
Qed.

Section NoMaximumFacts.

Variable Getpid : Z.
Variable Marshal : icmp.Message -> result (list byte).
Variable ParseMessage : list byte -> result icmp.Message.
Variable resolve : nat -> result Addr.
Variable world : nat -> Script.

Lemma wait_loop0_ends (pending : list Datagram) (out : list Line0) :
  match wait_loop0 Getpid ParseMessage pending out with
  | Return0 =>
      exists d, In d pending /\
        turn0 ParseMessage Getpid d = Accept icmp.ICMPTypeEchoReply
  | Break0 _ => True
  | Panic0 => exists d, In d pending /\ turn0 ParseMessage Getpid d = Abort
  end.
Proof.
  induction pending as [|d ds IH]; [exact I|].
  cbn [wait_loop0].
  assert (Hnext : match wait_loop0 Getpid ParseMessage ds out with
                  | Return0 =>
                      exists d', In d' (d :: ds) /\
                        turn0 ParseMessage Getpid d' = Accept icmp.ICMPTypeEchoReply
                  | Break0 _ => True
                  | Panic0 =>
                      exists d', In d' (d :: ds) /\
                        turn0 ParseMessage Getpid d' = Abort
                  end).
  { destruct (wait_loop0 Getpid ParseMessage ds out); [|exact I|];
      destruct IH as (d' & Hin & Hd'); exists d'; (split; [right|]); assumption. }
  pose proof (eq_refl (turn0 ParseMessage Getpid d)) as Hd.
  unfold turn0 at 2 in Hd.
  destruct (ParseMessage (buffer_after_read (dg_bytes d))) as [m|];
    [|exact Hnext].
  destruct (check_packet0 Getpid m) as [typ| |] eqn:Hc.
  - destruct (Z.eqb_spec typ icmp.ICMPTypeEchoReply) as [->|]; [|exact I].
    exists d. split; [left; reflexivity|assumption].
  - exact Hnext.
  - exists d. split; [left; reflexivity|assumption].
Qed.

Lemma ttl_loop0_exits (fuel : nat) :
  forall (TTL : Z) (r : Run0) (st : Status0) (r' : Run0),
    ttl_loop0 Getpid Marshal ParseMessage resolve world fuel TTL r
      = Some (st, r') ->
    match st with
    | Returned0 =>
        exists i d, In d (inbound (world i)) /\
          turn0 ParseMessage Getpid d = Accept icmp.ICMPTypeEchoReply
    | Fatal0 e =>
        Marshal (echo_request1 Getpid 1) = Err e \/ exists i, resolve i = Err e
    | Panicked0 =>
        exists i d, In d (inbound (world i)) /\
          turn0 ParseMessage Getpid d = Abort
    end.
Proof.
  induction fuel as [|fuel IH]; intros TTL r st r' Hrun; [discriminate Hrun|].
  cbn [ttl_loop0] in Hrun. unfold SetReadDeadline in Hrun.
  destruct (setReadDeadlineErr (world (turns0 r))).
  { eapply IH. exact Hrun. }
  destruct (Marshal (echo_request1 Getpid 1)) as [msgBytes|e] eqn:Hm.
  2:{ injection Hrun as <- _. left. reflexivity. }
  destruct (resolve (turns0 r)) as [ipAddr|e] eqn:Hr.
  2:{ injection Hrun as <- _. right. exists (turns0 r). assumption. }
  pose proof (wait_loop0_ends (inbound (world (turns0 r))) (output0 r)) as Hw.
  destruct (wait_loop0 Getpid ParseMessage (inbound (world (turns0 r)))
              (output0 r)) as [|out|].
  - injection Hrun as <- _. destruct Hw as (d & Hin & Hd).
    exists (turns0 r), d. split; assumption.
  - eapply IH. exact Hrun.
  - injection Hrun as <- _. destruct Hw as (d & Hin & Hd).
    exists (turns0 r), d. split; assumption.
Qed.

End NoMaximumFacts.

(** X10.  The version without a maximum TTL ends in three ways only:
    [main] returns when a datagram parses to an Echo Reply whose identifier
    is [os.Getpid()], whatever its sequence number; [log.Fatalf] ends it
    when the message does not serialise or the name does not resolve; and a
    run-time panic ends it on a datagram that its wait loop cannot handle.
    A timeout, a failed read or deadline, and a Time Exceeded message only
    lead to the next TTL. *)
Theorem no_maximum_exits :
  forall (Getpid : Z) (Marshal : icmp.Message -> result (list byte))
         (ParseMessage : list byte -> result icmp.Message)
         (resolve : nat -> result Addr) (world : nat -> Script)
         (fuel : nat) (st : Status0) (r : Run0),
    main0 Getpid Marshal ParseMessage resolve world fuel = Some (st, r) ->
    match st with
    | Returned0 =>
        exists i d m Seq Data,
          In d (inbound (world i)) /\
          ParseMessage (buffer_after_read (dg_bytes d)) = Ok m /\
          icmp.Type_ m = icmp.ipv4_ICMPType icmp.ICMPTypeEchoReply /\
          icmp.Body m = icmp.Echo Getpid Seq Data
    | Fatal0 e =>
        Marshal (echo_request1 Getpid 1) = Err e \/ exists i, resolve i = Err e
    | Panicked0 =>
        exists i d, In d (inbound (world i)) /\
          turn0 ParseMessage Getpid d = Abort
    end.
Proof.
  intros Getpid Marshal ParseMessage resolve world fuel st r Hrun.
  unfold main0 in Hrun. apply ttl_loop0_exits in Hrun.
  destruct st; try exact Hrun.
  destruct Hrun as (i & d & Hin & Hd). unfold turn0 in Hd.
  destruct (ParseMessage (buffer_after_read (dg_bytes d))) as [m|] eqn:Hm;
    [|discriminate].
  apply check_packet0_Accept in Hd.
  destruct Hd as [(_ & Hty & Seq & Data & Hb)|(H & _)]; [|discriminate H].
  exists i, d, m, Seq, Data. repeat split; assumption.
Qed.

Lemma no_maximum_exits_witness :
  exists i d m Seq Data,
    In d (inbound (Scenario1.path3 i)) /\
    Scenario.ParseMessage (buffer_after_read (dg_bytes d)) = Ok m /\
    icmp.Type_ m = icmp.ipv4_ICMPType icmp.ICMPTypeEchoReply /\
    icmp.Body m = icmp.Echo Scenario1.pid Seq Data.
Proof.
  destruct (main0 Scenario1.pid Scenario.Marshal Scenario.ParseMessage
              (fun _ => Ok Scenario.dst) Scenario1.path3 3)
    as [[st r]|] eqn:Hrun; [|vm_compute in Hrun; discriminate Hrun].
  pose proof (no_maximum_exits Scenario1.pid Scenario.Marshal
                Scenario.ParseMessage (fun _ => Ok Scenario.dst)
                Scenario1.path3 3 st r Hrun) as H.
  assert (Hst : st = Returned0).
  { vm_compute in Hrun. injection Hrun as <- _. reflexivity. }
  rewrite Hst in H. exact H.
Defined.

Lemma buffer_after_read_length (b : list byte) :
  length (buffer_after_read b) = 1500%nat.
Proof.
  unfold buffer_after_read.
  rewrite length_firstn, length_app, repeat_length. apply Nat.min_l.
  apply Nat.le_add_l.
Qed.

(** The payload that [parseMultipartMessageBody] gives for a body of 30
    bytes or more holds at least 26 bytes: the whole rest of the body when
    no extension is found, the original datagram field otherwise. *)
Lemma parseMultipartMessageBody_length (R : icmp.rest) (typ : Z)
    (b : list byte) :
  extensions_after_datagram R ->
  (30 <= length b)%nat ->
  (26 <= length (fst (icmp.parseMultipartMessageBody R typ b)))%nat.
Proof.
  intros HR Hlen. unfold icmp.parseMultipartMessageBody.
  destruct (Nat.eqb_spec (length b) 4) as [H4|_]; [exfalso; lia|].
  assert (Hdata : forall l : Z, 26 <= l ->
            (26 <= length
               (if (0 <? l)%Z
                then firstn (Z.to_nat l) (skipn 4 b) ++
                     repeat x00 (Z.to_nat l - length (firstn (Z.to_nat l) (skipn 4 b)))
                else []))%nat).
  { intros l Hl. destruct (Z.ltb_spec 0 l) as [_|H0]; [|exfalso; lia].
    rewrite length_app, repeat_length, length_firstn. lia. }
  destruct (icmp.parseExtensions R typ (skipn 4 b) (4 * Go.u8 (nth 1 b x00)))
    as [[exts l']|e] eqn:He.
  - cbn [fst]. apply Hdata. eapply HR. exact He.
  - cbn [fst]. apply Hdata. lia.
Qed.

(** A Time Exceeded message that package icmp parses from 34 bytes or more
    has a payload of at least 26 bytes. *)
Lemma parsed_time_exceeded_length (R : icmp.rest) (b : list byte)
    (m : icmp.Message) (Data : list byte) (exts : list icmp.Extension) :
  extensions_after_datagram R ->
  (34 <= length b)%nat ->
  icmp.ParseMessage R b = Ok m ->
  icmp.Type_ m = icmp.ipv4_ICMPType icmp.ICMPTypeTimeExceeded ->
  icmp.Body m = icmp.TimeExceeded Data exts ->
  (26 <= length Data)%nat.
Proof.
  intros HR Hlen. unfold icmp.ParseMessage.
  destruct b as [|t [|c [|k1 [|k0 body]]]]; try discriminate.
  cbn [length] in Hlen.
  destruct ((Go.u8 t =? icmp.ICMPTypeEcho) || (Go.u8 t =? icmp.ICMPTypeEchoReply))
    eqn:Hecho.
  - destruct (icmp.parseEcho body) as [mb|]; [|discriminate].
    intros H. ok_inj H m. cbn [icmp.Type_ icmp.Body]. intros Hty _.
    assert (Ht : Go.u8 t = icmp.ICMPTypeTimeExceeded) by congruence.
    rewrite Ht in Hecho. discriminate Hecho.
  - destruct (Z.eqb_spec (Go.u8 t) icmp.ICMPTypeTimeExceeded) as [H11|H11].
    + unfold icmp.parseTimeExceeded.
      destruct (Nat.ltb_spec (length body) 4) as [H4|_]; [exfalso; lia|].
      pose proof (parseMultipartMessageBody_length R (Go.u8 t) body HR) as Hd.
      destruct (icmp.parseMultipartMessageBody R (Go.u8 t) body) as [data exts'].
      intros H. ok_inj H m. cbn [icmp.Type_ icmp.Body]. intros _ Hb.
      assert (HD : data = Data) by congruence. subst data.
      apply Hd. lia.
    + destruct (icmp.parseOtherBody R (Go.u8 t) body) as [mb|]; [|discriminate].
      intros H. ok_inj H m. cbn [icmp.Type_ icmp.Body]. intros Hty _.
      assert (Ht : Go.u8 t = icmp.ICMPTypeTimeExceeded) by congruence.
      contradiction.
Qed.

(** With the parser of package icmp, no datagram stops the wait loop of the
    version without a maximum TTL: the whole buffer is parsed, so the
    payload of a Time Exceeded message reaches beyond byte 25. *)
Lemma turn0_never_aborts (R : icmp.rest) (Getpid : Z) (d : Datagram) :
  extensions_after_datagram R ->
  turn0 (icmp.ParseMessage R) Getpid d <> Abort.
Proof.
  intros HR. unfold turn0.
  destruct (icmp.ParseMessage R (buffer_after_read (dg_bytes d))) as [m|] eqn:Hm;
    [|discriminate].
  destruct (ParseMessage_bodies R _ m Hm) as (t & Ht & Hecho & Hte).
  unfold check_packet0. rewrite Ht.
  destruct (Z.eqb_spec t icmp.ICMPTypeEchoReply) as [H0|H0].
  - destruct (Hecho H0) as (ID & Seq & Data & Hb & _). rewrite Hb.
    destruct (ID =? Getpid); discriminate.
  - destruct (Z.eqb_spec t icmp.ICMPTypeTimeExceeded) as [H11|H11];
      [|discriminate].
    destruct (Hte H11) as (Data & exts & Hb). rewrite Hb.
    destruct (embeddedID Data) as [x|] eqn:HX.
    + destruct (x =? Getpid); discriminate.
    + apply embeddedID_Panics in HX. subst t.
      pose proof (parsed_time_exceeded_length R
                    (buffer_after_read (dg_bytes d)) m Data exts HR) as Hlen.
      rewrite buffer_after_read_length in Hlen.
      assert (H34 : (34 <= 1500)%nat) by (apply Nat.leb_le; reflexivity).
      specialize (Hlen H34 Hm Ht Hb). lia.
Qed.

Lemma package_rest0 : extensions_after_datagram Scenario.rest0.
Proof. intros typ b l l' exts H. discriminate H. Qed.

(** X11.  With the parser of package icmp, the version without a maximum TTL
    never ends with a run-time panic, whatever datagrams arrive: it parses
    the whole buffer of 1500 bytes, not the bytes read, so a Time Exceeded
    message always has a payload that reaches beyond byte 25 and the
    expression [Data[24:26]] is in range. *)
Theorem no_maximum_never_panics :
  forall (R : icmp.rest) (Getpid : Z)
         (Marshal : icmp.Message -> result (list byte))
         (resolve : nat -> result Addr) (world : nat -> Script)
         (fuel : nat) (st : Status0) (r : Run0),
    extensions_after_datagram R ->
    main0 Getpid Marshal (icmp.ParseMessage R) resolve world fuel
      = Some (st, r) ->
    st <> Panicked0.
Proof.
  intros R Getpid Marshal resolve world fuel st r HR Hrun Hst. subst st.
  unfold main0 in Hrun. apply ttl_loop0_exits in Hrun.
  destruct Hrun as (i & d & _ & Hd).
  exact (turn0_never_aborts R Getpid d HR Hd).
Qed.

Lemma no_maximum_never_panics_witness :
  main0 12241 Scenario.Marshal Scenario.ParseMessage
    (fun _ => Ok Scenario.dst) (fun _ => Scenario.bare_then_awaited) 1
  = Some (Returned0,
          mkRun0 (mkConn (Some 5000000000) (Some 1)
                    [mkSent (Scenario.request 12241 1) Scenario.dst (Some 1)])
                 1 [])
  /\ Returned0 <> Panicked0.
Proof.
  assert (Hrun : main0 12241 Scenario.Marshal Scenario.ParseMessage
                   (fun _ => Ok Scenario.dst)
                   (fun _ => Scenario.bare_then_awaited) 1
                 = Some (Returned0,
                         mkRun0 (mkConn (Some 5000000000) (Some 1)
                                   [mkSent (Scenario.request 12241 1)
                                           Scenario.dst (Some 1)])
                                1 [])) by (vm_compute; reflexivity).
  split; [exact Hrun|].
  exact (no_maximum_never_panics Scenario.rest0 12241 Scenario.Marshal
           (fun _ => Ok Scenario.dst) (fun _ => Scenario.bare_then_awaited)
           1 _ _ package_rest0 Hrun).
Defined.

(** Package icmp serialises every Echo Request. *)
Lemma Marshal_echo_request1 (R : icmp.rest) (Getpid seqNum : Z) :
  exists msgBytes,
    icmp.Marshal R (echo_request1 Getpid seqNum) = Ok msgBytes.
Proof.
  unfold icmp.Marshal, echo_request1. cbn [icmp.Type_ icmp.Body].
  eexists. reflexivity.
Qed.

(** With package icmp and a name that resolves, the loop over the TTL values
    goes on as long as no Echo Reply with the identifier [os.Getpid()] is
    read. *)
Lemma main0_goes_on (R : icmp.rest) (Getpid : Z)
    (resolve : nat -> result Addr) (world : nat -> Script) :
  extensions_after_datagram R ->
  (forall i, exists ipAddr, resolve i = Ok ipAddr) ->
  (forall i d, In d (inbound (world i)) ->
     turn0 (icmp.ParseMessage R) Getpid d <> Accept icmp.ICMPTypeEchoReply) ->
  forall fuel,
    main0 Getpid (icmp.Marshal R) (icmp.ParseMessage R) resolve world fuel
      = None.
Proof.
  intros HR Hres Hno fuel.
  destruct (main0 Getpid (icmp.Marshal R) (icmp.ParseMessage R) resolve world fuel)
    as [[st r]|] eqn:Hrun; [exfalso|reflexivity].
  unfold main0 in Hrun. apply ttl_loop0_exits in Hrun.
  destruct st as [|e|].
  - destruct Hrun as (i & d & Hin & Hd). exact (Hno i d Hin Hd).
  - destruct Hrun as [Hm|(i & Hr)].
    + destruct (Marshal_echo_request1 R Getpid 1) as (b & Hb).
      rewrite Hb in Hm. discriminate Hm.
    + destruct (Hres i) as (a & Ha). rewrite Ha in Hr. discriminate Hr.
  - destruct Hrun as (i & d & _ & Hd).
    exact (turn0_never_aborts R Getpid d HR Hd).
Qed.

(** X12.  The version without a maximum TTL has no way to give up: with
    package icmp and a name that resolves, when no datagram that arrives is
    an Echo Reply with the identifier [os.Getpid()], the loop over the TTL
    values never ends, however many turns it is given; timeouts, read
    errors, failed deadlines and Time Exceeded messages all lead to the
    next TTL. *)
Theorem no_maximum_never_gives_up :
  forall (R : icmp.rest) (Getpid : Z)
         (resolve : nat -> result Addr) (world : nat -> Script),
    extensions_after_datagram R ->
    (forall i, exists ipAddr, resolve i = Ok ipAddr) ->
    (forall i d m Seq Data,
       In d (inbound (world i)) ->
       icmp.ParseMessage R (buffer_after_read (dg_bytes d)) = Ok m ->
       icmp.Type_ m = icmp.ipv4_ICMPType icmp.ICMPTypeEchoReply ->
       icmp.Body m <> icmp.Echo Getpid Seq Data) ->
    forall fuel,
      main0 Getpid (icmp.Marshal R) (icmp.ParseMessage R) resolve world fuel
        = None.
Proof.
  intros R Getpid resolve world HR Hres Hno.
  apply main0_goes_on; [exact HR|exact Hres|].
  intros i d Hin Hd. unfold turn0 in Hd.
  destruct (icmp.ParseMessage R (buffer_after_read (dg_bytes d))) as [m|] eqn:Hm;
    [|discriminate].
  apply check_packet0_Accept in Hd.
  destruct Hd as [(_ & Hty & Seq & Data & Hb)|(H & _)]; [|discriminate H].
  exact (Hno i d m Seq Data Hin Hm Hty Hb).
Qed.

Lemma no_maximum_never_gives_up_witness :
  main0 Scenario1.pid (icmp.Marshal Scenario.rest0)
    (icmp.ParseMessage Scenario.rest0) (fun _ => Ok Scenario.dst)
    (fun i =>
       Scenario.arrive
         [mkDatagram
            (Scenario.time_exceeded Scenario.ip_header
               (Scenario.request Scenario1.pid 1))
            (Scenario.router (Z.of_nat i + 1)) 5000000])
    300
  = None.
Proof.
  apply (no_maximum_never_gives_up Scenario.rest0 Scenario1.pid
           (fun _ => Ok Scenario.dst)).
  - exact package_rest0.
  - intros i. exists Scenario.dst. reflexivity.
  - intros i d m Seq Data Hin Hm Hty Hb.
    cbn [Scenario.arrive inbound] in Hin. destruct Hin as [<-|[]].
    cbn [dg_bytes] in Hm. vm_compute in Hm. ok_inj Hm m.
    discriminate Hty.
Defined.

(** X13.  The version without a maximum TTL compares the 16-bit identifier
    of an Echo Reply with the whole of [os.Getpid()]: when the process
    identity does not fit in 16 bits, no reply ever ends the program, and
    with a name that resolves it goes on for ever whatever arrives. *)
Theorem no_maximum_unmasked_pid_runs_for_ever :
  forall (R : icmp.rest) (Getpid : Z)
         (resolve : nat -> result Addr) (world : nat -> Script),
    extensions_after_datagram R ->
    (forall i, exists ipAddr, resolve i = Ok ipAddr) ->
    ~ (0 <= Getpid < 65536) ->
    forall fuel,
      main0 Getpid (icmp.Marshal R) (icmp.ParseMessage R) resolve world fuel
        = None.
Proof.
  intros R Getpid resolve world HR Hres Hpid.
  apply main0_goes_on; [exact HR|exact Hres|].
  intros i d Hin Hd. unfold turn0 in Hd.
  destruct (icmp.ParseMessage R (buffer_after_read (dg_bytes d))) as [m|] eqn:Hm;
    [|discriminate].
  apply check_packet0_Accept in Hd.
  destruct Hd as [(_ & Hty & Seq & Data & Hb)|(H & _)]; [|discriminate H].
  destruct (ParseMessage_bodies R _ m Hm) as (t & Ht & Hecho & _).
  assert (H0 : t = icmp.ICMPTypeEchoReply) by congruence.
  destruct (Hecho H0) as (ID & Seq' & Data' & Hb' & HID & _).
  assert (ID = Getpid) by congruence. subst ID. exact (Hpid HID).
Qed.

Lemma no_maximum_unmasked_pid_runs_for_ever_witness :
  main0 Scenario.pid (icmp.Marshal Scenario.rest0)
    (icmp.ParseMessage Scenario.rest0) (fun _ => Ok Scenario.dst)
    Scenario.path3 300
  = None.
Proof.
  apply (no_maximum_unmasked_pid_runs_for_ever Scenario.rest0 Scenario.pid
           (fun _ => Ok Scenario.dst) Scenario.path3).
  - exact package_rest0.
  - intros i. exists Scenario.dst. reflexivity.
  - unfold Scenario.pid. lia.
Defined.

(** ** The headers of the hops *)

Lemma report_line_no_hop (p : ProbeRecord) :
  filter is_HopLine (report_line p) = [].
Proof.
  unfold report_line. destruct (p_result p) as [ret|]; [|reflexivity].
  destruct (err ret), (responderAddr ret); reflexivity.
Qed.

Section Headers.

Variable processID : Z.
Variable Marshal : icmp.Message -> result (list byte).
Variable ParseMessage : list byte -> result icmp.Message.
Variables queries wait maxTTL : Z.
Variable dstAddr : Addr.
Variable world : nat -> Script.

Lemma queries_loop_headers (n : nat) (TTL : Z) (b : bool) (r : Run) :
  match queries_loop processID Marshal ParseMessage wait dstAddr world n TTL b r
  with
  | Next _ r' => filter is_HopLine (output r') = filter is_HopLine (output r)
  | Crash r' => filter is_HopLine (output r') = filter is_HopLine (output r)
  end.
Proof.
  apply (queries_loop_keeps processID Marshal ParseMessage wait dstAddr world
           (fun r0 => filter is_HopLine (output r0)
                      = filter is_HopLine (output r))).
  - intros r0 TTL0 pc H. cbv zeta. cbn [output].
    rewrite filter_app, report_line_no_hop. exact H.
  - reflexivity.
Qed.

Lemma ttl_loop_headers (fuel : nat) :
  forall (TTL : Z) (r : Run) (st : Status) (r' : Run),
    maxTTL < Go.MaxInt ->
    Go.MinInt <= TTL ->
    ttl_loop processID Marshal ParseMessage queries wait maxTTL dstAddr world
      fuel TTL r = Some (st, r') ->
    exists k : nat,
      filter is_HopLine (output r')
        = rev (map HopLine (zrange TTL k)) ++ filter is_HopLine (output r) /\
      TTL + Z.of_nat k <= Z.max TTL (maxTTL + 1) /\
      (st = Exhausted -> TTL + Z.of_nat k = Z.max TTL (maxTTL + 1)) /\
      (st <> Exhausted -> (0 < k)%nat).
Proof.
  induction fuel as [|fuel IH]; intros TTL r st r' Hmax Hmin Hrun;
    [discriminate Hrun|].
  cbn [ttl_loop] in Hrun.
  destruct (Z.leb_spec TTL maxTTL) as [Hle|Hgt].
  - pose proof (queries_loop_headers (Z.to_nat queries) TTL false
                  (print (HopLine TTL) r)) as Hq.
    assert (Hone : forall r1 : Run,
              filter is_HopLine (output r1)
                = filter is_HopLine (output (print (HopLine TTL) r)) ->
              filter is_HopLine (output r1)
                = rev (map HopLine (zrange TTL 1)) ++ filter is_HopLine (output r)).
    { intros r1 H. rewrite H. unfold zrange. cbn [seq map rev app].
      cbn [print output filter is_HopLine]. do 2 f_equal. lia. }
    destruct (queries_loop processID Marshal ParseMessage wait dstAddr world
                (Z.to_nat queries) TTL false (print (HopLine TTL) r))
      as [b r1|r1].
    + destruct b.
      * injection Hrun as <- <-. exists 1%nat.
        split; [apply Hone; exact Hq|]. split; [lia|].
        split; [discriminate|lia].
      * unfold Go.MaxInt, Go.MinInt in *.
        rewrite wrap_small in Hrun by (unfold Go.MaxInt, Go.MinInt; lia).
        destruct (IH (TTL + 1) r1 st r' Hmax ltac:(lia) Hrun)
          as (k & Hk & Hb & He & Hn).
        exists (S k). split.
        { rewrite Hk, Hq, zrange_S. cbn [map rev print output filter is_HopLine].
          rewrite <- app_assoc. reflexivity. }
        split; [lia|]. split; [intros H; specialize (He H); lia|lia].
    + injection Hrun as <- <-. exists 1%nat.
      split; [apply Hone; exact Hq|]. split; [lia|].
      split; [discriminate|lia].
  - injection Hrun as <- <-. exists 0%nat. split; [reflexivity|].
    split; [lia|]. split; [lia|]. intros H. contradiction.
Qed.

(** A run without probes: with no turn of the loop over the probes, the
    loop over the TTL values prints its headers and ends. *)
Lemma ttl_loop_idle (n : nat) :
  forall (fuel : nat) (TTL : Z) (r : Run),
    Z.to_nat queries = 0%nat ->
    maxTTL < Go.MaxInt ->
    Go.MinInt <= TTL ->
    Z.to_nat (maxTTL + 1 - TTL) = n ->
    (n < fuel)%nat ->
    ttl_loop processID Marshal ParseMessage queries wait maxTTL dstAddr world
      fuel TTL r
    = Some (Exhausted,
            {| conn := conn r; probeCounter := probeCounter r;
               issued := issued r; log := log r;
               output := rev (map HopLine (zrange TTL n)) ++ output r |}).
Proof.
  induction n as [|n IH]; intros fuel TTL r Hq Hmax Hmin Hn Hfuel;
    (destruct fuel as [|fuel]; [lia|]); cbn [ttl_loop].
  - destruct (Z.leb_spec TTL maxTTL) as [Hle|Hgt]; [lia|].
    destruct r; reflexivity.
  - destruct (Z.leb_spec TTL maxTTL) as [Hle|Hgt]; [|lia].
    rewrite Hq. cbn [queries_loop].
    unfold Go.MaxInt, Go.MinInt in *.
    rewrite wrap_small by (unfold Go.MaxInt, Go.MinInt; lia).
    rewrite (IH fuel (TTL + 1) (print (HopLine TTL) r) Hq Hmax) by lia.
    rewrite zrange_S. cbn [map rev print conn probeCounter issued log output].
    rewrite <- app_assoc. reflexivity.
Qed.

End Headers.

(** X14.  In every run that ends, the headers of the report are "Hop 1",
    "Hop 2", ... up to some hop k, once each and in increasing order: k is
    the maximum TTL (none for a maximum below 1) when [main] returns after
    the last TTL, and at least one header and at most the maximum TTL
    otherwise. *)
Theorem report_hop_headers :
  forall (processID : Z) (Marshal : icmp.Message -> result (list byte))
         (ParseMessage : list byte -> result icmp.Message)
         (queries wait maxTTL : Z) (dstAddr : Addr) (world : nat -> Script)
         (fuel : nat) (st : Status) (r : Run),
    maxTTL < Go.MaxInt ->
    main processID Marshal ParseMessage queries wait maxTTL dstAddr world fuel
      = Some (st, r) ->
    exists k : nat,
      filter is_HopLine (rev (output r)) = map HopLine (zrange 1 k) /\
      Z.of_nat k <= Z.max 0 maxTTL /\
      (st = Exhausted -> Z.of_nat k = Z.max 0 maxTTL) /\
      (st <> Exhausted -> (0 < k)%nat).
Proof.
  intros processID Marshal ParseMessage queries wait maxTTL dstAddr world fuel
    st r Hmax Hrun.
  unfold main in Hrun.
  apply ttl_loop_headers in Hrun;
    [|exact Hmax|unfold Go.MinInt; lia].
  destruct Hrun as (k & Hk & Hb & He & Hn).
  exists k. rewrite filter_rev, Hk. cbn [output filter].
  rewrite app_nil_r, rev_involutive.
  split; [reflexivity|]. split; [lia|].
  split; [intros H; specialize (He H); lia|exact Hn].
Qed.

Lemma report_hop_headers_witness :
  exists st r,
    main Scenario.pid Scenario.Marshal Scenario.ParseMessage 3 5 64
      Scenario.dst Scenario.path3 4 = Some (st, r) /\
    exists k : nat,
      filter is_HopLine (rev (output r)) = map HopLine (zrange 1 k) /\
      Z.of_nat k <= Z.max 0 64.
Proof.
  destruct (main Scenario.pid Scenario.Marshal Scenario.ParseMessage 3 5 64
              Scenario.dst Scenario.path3 4) as [[st r]|] eqn:Hrun;
    [|vm_compute in Hrun; discriminate Hrun].
  exists st, r. split; [reflexivity|].
  destruct (report_hop_headers Scenario.pid Scenario.Marshal
              Scenario.ParseMessage 3 5 64 Scenario.dst Scenario.path3 4 st r)
    as (k & Hk & Hb & _).
  - unfold Go.MaxInt. lia.
  - exact Hrun.
  - exists k. split; assumption.
Defined.

(** X15.  With a number of probes per hop below 1 the program calls [probe]
    not once: it leaves the socket and the counter as they were, prints the
    headers of the hops 1 to the maximum TTL and nothing else, and [main]
    returns after the last TTL, whatever the network does. *)
Theorem no_queries_no_probes :
  forall (processID : Z) (Marshal : icmp.Message -> result (list byte))
         (ParseMessage : list byte -> result icmp.Message)
         (queries wait maxTTL : Z) (dstAddr : Addr) (world : nat -> Script)
         (fuel : nat),
    queries <= 0 ->
    maxTTL < Go.MaxInt ->
    (Z.to_nat maxTTL < fuel)%nat ->
    main processID Marshal ParseMessage queries wait maxTTL dstAddr world fuel
    = Some (Exhausted,
            {| conn := mkConn None None []; probeCounter := 1; issued := 0;
               log := [];
               output := rev (map HopLine (zrange 1 (Z.to_nat maxTTL))) |}).
Proof.
  intros processID Marshal ParseMessage queries wait maxTTL dstAddr world fuel
    Hq Hmax Hfuel.
  unfold main.
  rewrite (ttl_loop_idle processID Marshal ParseMessage queries wait maxTTL
             dstAddr world (Z.to_nat maxTTL)).
  - cbn [conn probeCounter issued log output]. rewrite app_nil_r. reflexivity.
  - lia.
  - exact Hmax.
  - unfold Go.MinInt. lia.
  - f_equal. lia.
  - exact Hfuel.
Qed.

Lemma no_queries_no_probes_witness :
  main Scenario.pid Scenario.Marshal Scenario.ParseMessage 0 5 3
    Scenario.dst Scenario.path3 4
  = Some (Exhausted,
          {| conn := mkConn None None []; probeCounter := 1; issued := 0;
             log := [];
             output := [HopLine 3; HopLine 2; HopLine 1] |}).
Proof.
  apply (no_queries_no_probes Scenario.pid Scenario.Marshal
           Scenario.ParseMessage 0 5 3 Scenario.dst Scenario.path3 4).
  - lia.
  - unfold Go.MaxInt. lia.
  - cbn. lia.
Defined.
